(** * A file server over a line-oriented protocol: model and properties

    Shallow embedding of [file_interface.py] (the storage backend) and of
    [ClientHandler.run] in [file_server.py] (the per-connection state
    machine), together with the parts of the Python runtime they rely on:
    [str] methods, the strict UTF-8 codec, [base64], [hashlib.md5] and a
    small POSIX file system. *)

From Stdlib Require Import ZArith NArith List String Ascii Bool Lia.
From Stdlib.Strings Require Import Byte.
From stdpp Require Import gmap list.
Import ListNotations.

Open Scope N_scope.

(** ** Python values

    A [str] is a sequence of Unicode code points, a [bytes] object a
    sequence of octets. *)

Abbreviation pystr := (list N).
Abbreviation pybytes := (list byte).

Definition str (s : string) : pystr :=
  map N_of_ascii (list_ascii_of_string s).
Arguments str : simpl never.

Definition byte_of_N (n : N) : byte :=
  match Byte.of_N (n mod 256) with
  | Some b => b
  | None => x00
  end.

(** [bytes(...)] literal from the code points of an ASCII/Latin-1 text. *)
Definition bytes_of (s : string) : pybytes :=
  map byte_of_N (str s).

#[warnings="-register-all"]
Inductive pyval :=
| PNone
| PStr (s : pystr)
| PList (l : list pyval)
| PDict (items : list (pystr * pyval)).

(** ** Exceptions

    Every exception raised in the modelled code is an instance of
    [Exception]; the classes are kept apart because [str(e)] differs. *)

Inductive exn :=
| IndexError (msg : pystr)
| ValueError (msg : pystr)
| BinasciiError (msg : pystr)
| OSError (errno : N) (strerror : pystr) (filename : option pystr)
| AttributeError (msg : pystr)
| UnicodeDecodeError (b : byte) (start stop : nat) (reason : pystr).

Inductive res (A : Type) :=
| Ok (a : A)
| Raise (e : exn).
Arguments Ok {A} a.
Arguments Raise {A} e.

Definition res_bind {A B} (r : res A) (k : A -> res B) : res B :=
  match r with
  | Ok a => k a
  | Raise e => Raise e
  end.

Definition res_map {A B} (f : A -> B) (r : res A) : res B :=
  res_bind r (fun a => Ok (f a)).

Definition is_ok {A} (r : res A) : bool :=
  match r with Ok _ => true | Raise _ => false end.

(** ** Number formatting used in messages *)

Definition digit_char (d : N) : N :=
  if d <? 10 then 48 + d else 87 + d.

Fixpoint dec_digits (fuel : nat) (n : N) (acc : pystr) : pystr :=
  match fuel with
  | O => acc
  | S k =>
    let acc' := digit_char (n mod 10) :: acc in
    if n / 10 =? 0 then acc' else dec_digits k (n / 10) acc'
  end.

(** [str(n)] for a non-negative integer. *)
Definition dec (n : N) : pystr :=
  dec_digits (S (N.to_nat (N.log2 n))) n [].

(** ["%02x" % b] *)
Definition hex2 (b : N) : pystr :=
  [digit_char (b / 16 mod 16); digit_char (b mod 16)].

(** ** [str] methods *)

(** [_PyUnicode_IsWhitespace]: the characters removed by [str.strip()]. *)
Definition is_whitespace (c : N) : bool :=
  ((0x09 <=? c) && (c <=? 0x0D)) || ((0x1C <=? c) && (c <=? 0x20))
  || (c =? 0x85) || (c =? 0xA0) || (c =? 0x1680)
  || ((0x2000 <=? c) && (c <=? 0x200A))
  || (c =? 0x2028) || (c =? 0x2029) || (c =? 0x202F) || (c =? 0x205F)
  || (c =? 0x3000).

Fixpoint lstrip (s : pystr) : pystr :=
  match s with
  | c :: r => if is_whitespace c then lstrip r else s
  | [] => []
  end.

Definition rstrip (s : pystr) : pystr := rev (lstrip (rev s)).

Definition strip (s : pystr) : pystr := rstrip (lstrip s).

Fixpoint startswith (s prefix : pystr) : bool :=
  match prefix, s with
  | [], _ => true
  | p :: prefix', c :: s' => (c =? p) && startswith s' prefix'
  | _ :: _, [] => false
  end.

(** ['\n' in s] *)
Definition has_newline (s : pystr) : bool := existsb (N.eqb 10) s.

(** [s.split('\n', 1)] when ['\n' in s]: the text before the first
    newline and the text after it. *)
Fixpoint split_newline (s : pystr) : option (pystr * pystr) :=
  match s with
  | [] => None
  | c :: r =>
    if c =? 10 then Some ([], r)
    else match split_newline r with
         | Some (line, rest) => Some (c :: line, rest)
         | None => None
         end
  end.

(** [s.split(sep)] for a one-character separator. *)
Fixpoint split_on (sep : N) (s : pystr) : list pystr :=
  match s with
  | [] => [[]]
  | c :: r =>
    if c =? sep then [] :: split_on sep r
    else match split_on sep r with
         | w :: ws => (c :: w) :: ws
         | [] => [[c]]
         end
  end.

(** The code points for which [str.isprintable] is false, as closed
    ranges: the categories Cc, Cf, Cs, Co, Cn, Zl, Zp and Zs but for the
    space, in the Unicode 14.0 database of CPython 3.11. *)
Definition nonprintable_ranges : list (N * N) :=
  [
  (0, 31); (127, 160); (173, 173); (888, 889); (896, 899); (907, 907);
   (909, 909); (930, 930); (1328, 1328); (1367, 1368); (1419, 1420);
   (1424, 1424); (1480, 1487); (1515, 1518); (1525, 1541); (1564, 1564);
   (1757, 1757); (1806, 1807); (1867, 1868); (1970, 1983); (2043, 2044);
   (2094, 2095); (2111, 2111); (2140, 2141); (2143, 2143); (2155, 2159);
   (2191, 2199); (2274, 2274); (2436, 2436); (2445, 2446); (2449, 2450);
   (2473, 2473); (2481, 2481); (2483, 2485); (2490, 2491); (2501, 2502);
   (2505, 2506); (2511, 2518); (2520, 2523); (2526, 2526); (2532, 2533);
   (2559, 2560); (2564, 2564); (2571, 2574); (2577, 2578); (2601, 2601);
   (2609, 2609); (2612, 2612); (2615, 2615); (2618, 2619); (2621, 2621);
   (2627, 2630); (2633, 2634); (2638, 2640); (2642, 2648); (2653, 2653);
   (2655, 2661); (2679, 2688); (2692, 2692); (2702, 2702); (2706, 2706);
   (2729, 2729); (2737, 2737); (2740, 2740); (2746, 2747); (2758, 2758);
   (2762, 2762); (2766, 2767); (2769, 2783); (2788, 2789); (2802, 2808);
   (2816, 2816); (2820, 2820); (2829, 2830); (2833, 2834); (2857, 2857);
   (2865, 2865); (2868, 2868); (2874, 2875); (2885, 2886); (2889, 2890);
   (2894, 2900); (2904, 2907); (2910, 2910); (2916, 2917); (2936, 2945);
   (2948, 2948); (2955, 2957); (2961, 2961); (2966, 2968); (2971, 2971);
   (2973, 2973); (2976, 2978); (2981, 2983); (2987, 2989); (3002, 3005);
   (3011, 3013); (3017, 3017); (3022, 3023); (3025, 3030); (3032, 3045);
   (3067, 3071); (3085, 3085); (3089, 3089); (3113, 3113); (3130, 3131);
   (3141, 3141); (3145, 3145); (3150, 3156); (3159, 3159); (3163, 3164);
   (3166, 3167); (3172, 3173); (3184, 3190); (3213, 3213); (3217, 3217);
   (3241, 3241); (3252, 3252); (3258, 3259); (3269, 3269); (3273, 3273);
   (3278, 3284); (3287, 3292); (3295, 3295); (3300, 3301); (3312, 3312);
   (3315, 3327); (3341, 3341); (3345, 3345); (3397, 3397); (3401, 3401);
   (3408, 3411); (3428, 3429); (3456, 3456); (3460, 3460); (3479, 3481);
   (3506, 3506); (3516, 3516); (3518, 3519); (3527, 3529); (3531, 3534);
   (3541, 3541); (3543, 3543); (3552, 3557); (3568, 3569); (3573, 3584);
   (3643, 3646); (3676, 3712); (3715, 3715); (3717, 3717); (3723, 3723);
   (3748, 3748); (3750, 3750); (3774, 3775); (3781, 3781); (3783, 3783);
   (3790, 3791); (3802, 3803); (3808, 3839); (3912, 3912); (3949, 3952);
   (3992, 3992); (4029, 4029); (4045, 4045); (4059, 4095); (4294, 4294);
   (4296, 4300); (4302, 4303); (4681, 4681); (4686, 4687); (4695, 4695);
   (4697, 4697); (4702, 4703); (4745, 4745); (4750, 4751); (4785, 4785);
   (4790, 4791); (4799, 4799); (4801, 4801); (4806, 4807); (4823, 4823);
   (4881, 4881); (4886, 4887); (4955, 4956); (4989, 4991); (5018, 5023);
   (5110, 5111); (5118, 5119); (5760, 5760); (5789, 5791); (5881, 5887);
   (5910, 5918); (5943, 5951); (5972, 5983); (5997, 5997); (6001, 6001);
   (6004, 6015); (6110, 6111); (6122, 6127); (6138, 6143); (6158, 6158);
   (6170, 6175); (6265, 6271); (6315, 6319); (6390, 6399); (6431, 6431);
   (6444, 6447); (6460, 6463); (6465, 6467); (6510, 6511); (6517, 6527);
   (6572, 6575); (6602, 6607); (6619, 6621); (6684, 6685); (6751, 6751);
   (6781, 6782); (6794, 6799); (6810, 6815); (6830, 6831); (6863, 6911);
   (6989, 6991); (7039, 7039); (7156, 7163); (7224, 7226); (7242, 7244);
   (7305, 7311); (7355, 7356); (7368, 7375); (7419, 7423); (7958, 7959);
   (7966, 7967); (8006, 8007); (8014, 8015); (8024, 8024); (8026, 8026);
   (8028, 8028); (8030, 8030); (8062, 8063); (8117, 8117); (8133, 8133);
   (8148, 8149); (8156, 8156); (8176, 8177); (8181, 8181); (8191, 8207);
   (8232, 8239); (8287, 8303); (8306, 8307); (8335, 8335); (8349, 8351);
   (8385, 8399); (8433, 8447); (8588, 8591); (9255, 9279); (9291, 9311);
   (11124, 11125); (11158, 11158); (11508, 11512); (11558, 11558);
   (11560, 11564); (11566, 11567); (11624, 11630); (11633, 11646);
   (11671, 11679); (11687, 11687); (11695, 11695); (11703, 11703);
   (11711, 11711); (11719, 11719); (11727, 11727); (11735, 11735);
   (11743, 11743); (11870, 11903); (11930, 11930); (12020, 12031);
   (12246, 12271); (12284, 12288); (12352, 12352); (12439, 12440);
   (12544, 12548); (12592, 12592); (12687, 12687); (12772, 12783);
   (12831, 12831); (42125, 42127); (42183, 42191); (42540, 42559);
   (42744, 42751); (42955, 42959); (42962, 42962); (42964, 42964);
   (42970, 42993); (43053, 43055); (43066, 43071); (43128, 43135);
   (43206, 43213); (43226, 43231); (43348, 43358); (43389, 43391);
   (43470, 43470); (43482, 43485); (43519, 43519); (43575, 43583);
   (43598, 43599); (43610, 43611); (43715, 43738); (43767, 43776);
   (43783, 43784); (43791, 43792); (43799, 43807); (43815, 43815);
   (43823, 43823); (43884, 43887); (44014, 44015); (44026, 44031);
   (55204, 55215); (55239, 55242); (55292, 63743); (64110, 64111);
   (64218, 64255); (64263, 64274); (64280, 64284); (64311, 64311);
   (64317, 64317); (64319, 64319); (64322, 64322); (64325, 64325);
   (64451, 64466); (64912, 64913); (64968, 64974); (64976, 65007);
   (65050, 65055); (65107, 65107); (65127, 65127); (65132, 65135);
   (65141, 65141); (65277, 65280); (65471, 65473); (65480, 65481);
   (65488, 65489); (65496, 65497); (65501, 65503); (65511, 65511);
   (65519, 65531); (65534, 65535); (65548, 65548); (65575, 65575);
   (65595, 65595); (65598, 65598); (65614, 65615); (65630, 65663);
   (65787, 65791); (65795, 65798); (65844, 65846); (65935, 65935);
   (65949, 65951); (65953, 65999); (66046, 66175); (66205, 66207);
   (66257, 66271); (66300, 66303); (66340, 66348); (66379, 66383);
   (66427, 66431); (66462, 66462); (66500, 66503); (66518, 66559);
   (66718, 66719); (66730, 66735); (66772, 66775); (66812, 66815);
   (66856, 66863); (66916, 66926); (66939, 66939); (66955, 66955);
   (66963, 66963); (66966, 66966); (66978, 66978); (66994, 66994);
   (67002, 67002); (67005, 67071); (67383, 67391); (67414, 67423);
   (67432, 67455); (67462, 67462); (67505, 67505); (67515, 67583);
   (67590, 67591); (67593, 67593); (67638, 67638); (67641, 67643);
   (67645, 67646); (67670, 67670); (67743, 67750); (67760, 67807);
   (67827, 67827); (67830, 67834); (67868, 67870); (67898, 67902);
   (67904, 67967); (68024, 68027); (68048, 68049); (68100, 68100);
   (68103, 68107); (68116, 68116); (68120, 68120); (68150, 68151);
   (68155, 68158); (68169, 68175); (68185, 68191); (68256, 68287);
   (68327, 68330); (68343, 68351); (68406, 68408); (68438, 68439);
   (68467, 68471); (68498, 68504); (68509, 68520); (68528, 68607);
   (68681, 68735); (68787, 68799); (68851, 68857); (68904, 68911);
   (68922, 69215); (69247, 69247); (69290, 69290); (69294, 69295);
   (69298, 69375); (69416, 69423); (69466, 69487); (69514, 69551);
   (69580, 69599); (69623, 69631); (69710, 69713); (69750, 69758);
   (69821, 69821); (69827, 69839); (69865, 69871); (69882, 69887);
   (69941, 69941); (69960, 69967); (70007, 70015); (70112, 70112);
   (70133, 70143); (70162, 70162); (70207, 70271); (70279, 70279);
   (70281, 70281); (70286, 70286); (70302, 70302); (70314, 70319);
   (70379, 70383); (70394, 70399); (70404, 70404); (70413, 70414);
   (70417, 70418); (70441, 70441); (70449, 70449); (70452, 70452);
   (70458, 70458); (70469, 70470); (70473, 70474); (70478, 70479);
   (70481, 70486); (70488, 70492); (70500, 70501); (70509, 70511);
   (70517, 70655); (70748, 70748); (70754, 70783); (70856, 70863);
   (70874, 71039); (71094, 71095); (71134, 71167); (71237, 71247);
   (71258, 71263); (71277, 71295); (71354, 71359); (71370, 71423);
   (71451, 71452); (71468, 71471); (71495, 71679); (71740, 71839);
   (71923, 71934); (71943, 71944); (71946, 71947); (71956, 71956);
   (71959, 71959); (71990, 71990); (71993, 71994); (72007, 72015);
   (72026, 72095); (72104, 72105); (72152, 72153); (72165, 72191);
   (72264, 72271); (72355, 72367); (72441, 72703); (72713, 72713);
   (72759, 72759); (72774, 72783); (72813, 72815); (72848, 72849);
   (72872, 72872); (72887, 72959); (72967, 72967); (72970, 72970);
   (73015, 73017); (73019, 73019); (73022, 73022); (73032, 73039);
   (73050, 73055); (73062, 73062); (73065, 73065); (73103, 73103);
   (73106, 73106); (73113, 73119); (73130, 73439); (73465, 73647);
   (73649, 73663); (73714, 73726); (74650, 74751); (74863, 74863);
   (74869, 74879); (75076, 77711); (77811, 77823); (78895, 82943);
   (83527, 92159); (92729, 92735); (92767, 92767); (92778, 92781);
   (92863, 92863); (92874, 92879); (92910, 92911); (92918, 92927);
   (92998, 93007); (93018, 93018); (93026, 93026); (93048, 93052);
   (93072, 93759); (93851, 93951); (94027, 94030); (94088, 94094);
   (94112, 94175); (94181, 94191); (94194, 94207); (100344, 100351);
   (101590, 101631); (101641, 110575); (110580, 110580); (110588, 110588);
   (110591, 110591); (110883, 110927); (110931, 110947); (110952, 110959);
   (111356, 113663); (113771, 113775); (113789, 113791); (113801, 113807);
   (113818, 113819); (113824, 118527); (118574, 118575); (118599, 118607);
   (118724, 118783); (119030, 119039); (119079, 119080); (119155, 119162);
   (119275, 119295); (119366, 119519); (119540, 119551); (119639, 119647);
   (119673, 119807); (119893, 119893); (119965, 119965); (119968, 119969);
   (119971, 119972); (119975, 119976); (119981, 119981); (119994, 119994);
   (119996, 119996); (120004, 120004); (120070, 120070); (120075, 120076);
   (120085, 120085); (120093, 120093); (120122, 120122); (120127, 120127);
   (120133, 120133); (120135, 120137); (120145, 120145); (120486, 120487);
   (120780, 120781); (121484, 121498); (121504, 121504); (121520, 122623);
   (122655, 122879); (122887, 122887); (122905, 122906); (122914, 122914);
   (122917, 122917); (122923, 123135); (123181, 123183); (123198, 123199);
   (123210, 123213); (123216, 123535); (123567, 123583); (123642, 123646);
   (123648, 124895); (124903, 124903); (124908, 124908); (124911, 124911);
   (124927, 124927); (125125, 125126); (125143, 125183); (125260, 125263);
   (125274, 125277); (125280, 126064); (126133, 126208); (126270, 126463);
   (126468, 126468); (126496, 126496); (126499, 126499); (126501, 126502);
   (126504, 126504); (126515, 126515); (126520, 126520); (126522, 126522);
   (126524, 126529); (126531, 126534); (126536, 126536); (126538, 126538);
   (126540, 126540); (126544, 126544); (126547, 126547); (126549, 126550);
   (126552, 126552); (126554, 126554); (126556, 126556); (126558, 126558);
   (126560, 126560); (126563, 126563); (126565, 126566); (126571, 126571);
   (126579, 126579); (126584, 126584); (126589, 126589); (126591, 126591);
   (126602, 126602); (126620, 126624); (126628, 126628); (126634, 126634);
   (126652, 126703); (126706, 126975); (127020, 127023); (127124, 127135);
   (127151, 127152); (127168, 127168); (127184, 127184); (127222, 127231);
   (127406, 127461); (127491, 127503); (127548, 127551); (127561, 127567);
   (127570, 127583); (127590, 127743); (128728, 128732); (128749, 128751);
   (128765, 128767); (128884, 128895); (128985, 128991); (129004, 129007);
   (129009, 129023); (129036, 129039); (129096, 129103); (129114, 129119);
   (129160, 129167); (129198, 129199); (129202, 129279); (129620, 129631);
   (129646, 129647); (129653, 129655); (129661, 129663); (129671, 129679);
   (129709, 129711); (129723, 129727); (129734, 129743); (129754, 129759);
   (129768, 129775); (129783, 129791); (129939, 129939); (129995, 130031);
   (130042, 131071); (173792, 173823); (177977, 177983); (178206, 178207);
   (183970, 183983); (191457, 194559); (195102, 196607); (201547, 917759);
   (918000, 1114111) ].

(** [Py_UNICODE_ISPRINTABLE] *)
Definition is_printable (c : N) : bool :=
  negb (existsb (fun r => (fst r <=? c) && (c <=? snd r))
                nonprintable_ranges).

(** ["%04x" % c] and ["%08x" % c] *)
Definition hex4 (c : N) : pystr :=
  [digit_char (c / 4096 mod 16); digit_char (c / 256 mod 16);
   digit_char (c / 16 mod 16); digit_char (c mod 16)].

Definition hex8 (c : N) : pystr := hex4 (c / 65536 mod 65536) ++ hex4 c.

(** [repr(s)] of a [str], as [unicode_repr] writes it: the quote is the
    double quote when the text holds a single quote and no double quote;
    the quote and the backslash get a backslash, tab, newline and return
    their letter, the other ASCII controls [\xNN], and a code point
    above U+007E that is not printable [\xNN], [\uNNNN] or
    [\UNNNNNNNN] by its size. *)
Definition repr_char (quote c : N) : pystr :=
  if (c =? quote) || (c =? 92) then [92; c]
  else if c =? 9 then str "\t"
  else if c =? 10 then str "\n"
  else if c =? 13 then str "\r"
  else if (c <? 32) || (c =? 127) then str "\x" ++ hex2 c
  else if c <? 127 then [c]
  else if is_printable c then [c]
  else if c <=? 255 then str "\x" ++ hex2 c
  else if c <=? 65535 then str "\u" ++ hex4 c
  else str "\U" ++ hex8 c.

Definition repr (s : pystr) : pystr :=
  let quote :=
    if existsb (N.eqb 39) s && negb (existsb (N.eqb 34) s) then 34 else 39 in
  quote :: flat_map (repr_char quote) s ++ [quote].

(** [str(e)] *)
Definition str_exn (e : exn) : pystr :=
  match e with
  | IndexError msg | ValueError msg | BinasciiError msg
  | AttributeError msg => msg
  | OSError errno strerror None =>
    str "[Errno " ++ dec errno ++ str "] " ++ strerror
  | OSError errno strerror (Some f) =>
    str "[Errno " ++ dec errno ++ str "] " ++ strerror ++ str ": " ++ repr f
  | UnicodeDecodeError b start stop reason =>
    if Nat.eqb stop (S start) then
      str "'utf-8' codec can't decode byte 0x" ++ hex2 (Byte.to_N b)
      ++ str " in position " ++ dec (N.of_nat start) ++ str ": " ++ reason
    else
      str "'utf-8' codec can't decode bytes in position "
      ++ dec (N.of_nat start) ++ str "-" ++ dec (N.of_nat (Nat.pred stop))
      ++ str ": " ++ reason
  end.

(** ** The strict UTF-8 codec: [bytes.decode()]

    Follows CPython's [utf8_decode]: shortest-form sequences only, no
    surrogates, nothing above U+10FFFF.  [pos] is the offset of the next
    byte in the whole input and only matters for the error report. *)

Definition is_continuation (c : N) : bool := (0x80 <=? c) && (c <? 0xC0).

Definition decode_error (b : byte) (start stop : nat) (reason : string)
  : res pystr :=
  Raise (UnicodeDecodeError b start stop (str reason)).

Fixpoint utf8_decode_from (pos : nat) (data : pybytes) : res pystr :=
  let eof := (pos + length data)%nat in
  match data with
  | [] => Ok []
  | b0 :: r0 =>
    let ch := Byte.to_N b0 in
    if ch <? 0x80 then
      res_map (cons ch) (utf8_decode_from (1 + pos) r0)
    else if ch <? 0xC2 then
      decode_error b0 pos (1 + pos) "invalid start byte"
    else if ch <? 0xE0 then
      match r0 with
      | [] => decode_error b0 pos eof "unexpected end of data"
      | b1 :: r1 =>
        let ch2 := Byte.to_N b1 in
        if negb (is_continuation ch2) then
          decode_error b0 pos (1 + pos) "invalid continuation byte"
        else
          res_map (cons (N.lor (N.shiftl (N.land ch 0x1F) 6) (N.land ch2 0x3F)))
                  (utf8_decode_from (2 + pos) r1)
      end
    else if ch <? 0xF0 then
      match r0 with
      | [] => decode_error b0 pos eof "unexpected end of data"
      | b1 :: r1 =>
        let ch2 := Byte.to_N b1 in
        if negb (is_continuation ch2)
           || (if ch2 <? 0xA0 then ch =? 0xE0 else ch =? 0xED) then
          decode_error b0 pos (1 + pos) "invalid continuation byte"
        else
          match r1 with
          | [] => decode_error b0 pos eof "unexpected end of data"
          | b2 :: r2 =>
            let ch3 := Byte.to_N b2 in
            if negb (is_continuation ch3) then
              decode_error b0 pos (2 + pos) "invalid continuation byte"
            else
              res_map (cons (N.lor (N.shiftl (N.land ch 0x0F) 12)
                              (N.lor (N.shiftl (N.land ch2 0x3F) 6)
                                     (N.land ch3 0x3F))))
                      (utf8_decode_from (3 + pos) r2)
          end
      end
    else if ch <? 0xF5 then
      match r0 with
      | [] => decode_error b0 pos eof "unexpected end of data"
      | b1 :: r1 =>
        let ch2 := Byte.to_N b1 in
        if negb (is_continuation ch2)
           || (if ch2 <? 0x90 then ch =? 0xF0 else ch =? 0xF4) then
          decode_error b0 pos (1 + pos) "invalid continuation byte"
        else
          match r1 with
          | [] => decode_error b0 pos eof "unexpected end of data"
          | b2 :: r2 =>
            let ch3 := Byte.to_N b2 in
            if negb (is_continuation ch3) then
              decode_error b0 pos (2 + pos) "invalid continuation byte"
            else
              match r2 with
              | [] => decode_error b0 pos eof "unexpected end of data"
              | b3 :: r3 =>
                let ch4 := Byte.to_N b3 in
                if negb (is_continuation ch4) then
                  decode_error b0 pos (3 + pos) "invalid continuation byte"
                else
                  res_map (cons (N.lor (N.shiftl (N.land ch 0x07) 18)
                                  (N.lor (N.shiftl (N.land ch2 0x3F) 12)
                                    (N.lor (N.shiftl (N.land ch3 0x3F) 6)
                                           (N.land ch4 0x3F)))))
                          (utf8_decode_from (4 + pos) r3)
              end
          end
      end
    else
      decode_error b0 pos (1 + pos) "invalid start byte"
  end.

(** [data.decode()] *)
Definition bytes_decode (data : pybytes) : res pystr :=
  utf8_decode_from 0 data.

(** [s.encode()] (UTF-8) for text without surrogates. *)
Definition utf8_encode_char (c : N) : pybytes :=
  if c <? 0x80 then [byte_of_N c]
  else if c <? 0x800 then
    [byte_of_N (N.lor 0xC0 (N.shiftr c 6));
     byte_of_N (N.lor 0x80 (N.land c 0x3F))]
  else if c <? 0x10000 then
    [byte_of_N (N.lor 0xE0 (N.shiftr c 12));
     byte_of_N (N.lor 0x80 (N.land (N.shiftr c 6) 0x3F));
     byte_of_N (N.lor 0x80 (N.land c 0x3F))]
  else
    [byte_of_N (N.lor 0xF0 (N.shiftr c 18));
     byte_of_N (N.lor 0x80 (N.land (N.shiftr c 12) 0x3F));
     byte_of_N (N.lor 0x80 (N.land (N.shiftr c 6) 0x3F));
     byte_of_N (N.lor 0x80 (N.land c 0x3F))].

Definition str_encode (s : pystr) : pybytes := flat_map utf8_encode_char s.

(** ** [base64]

    [b64encode] is RFC 4648 with padding.  [b64decode(s)] is called with
    its default [validate=False]: a [str] argument is first encoded as
    ASCII, then [binascii.a2b_base64] runs in its lenient mode, in which
    every character outside the alphabet is skipped. *)

Definition table_b2a_base64 (i : N) : N :=
  if i <? 26 then 65 + i
  else if i <? 52 then 97 + (i - 26)
  else if i <? 62 then 48 + (i - 52)
  else if i =? 62 then 43
  else 47.

Definition table_a2b_base64 (c : N) : option N :=
  if (65 <=? c) && (c <=? 90) then Some (c - 65)
  else if (97 <=? c) && (c <=? 122) then Some (c - 97 + 26)
  else if (48 <=? c) && (c <=? 57) then Some (c - 48 + 52)
  else if c =? 43 then Some 62
  else if c =? 47 then Some 63
  else None.

Definition BASE64_PAD : N := 61.

Fixpoint b2a_base64 (data : pybytes) : pystr :=
  match data with
  | [] => []
  | [b0] =>
    let x := Byte.to_N b0 in
    [table_b2a_base64 (N.shiftr x 2);
     table_b2a_base64 (N.shiftl (N.land x 3) 4);
     BASE64_PAD; BASE64_PAD]
  | [b0; b1] =>
    let x := Byte.to_N b0 in
    let y := Byte.to_N b1 in
    [table_b2a_base64 (N.shiftr x 2);
     table_b2a_base64 (N.lor (N.shiftl (N.land x 3) 4) (N.shiftr y 4));
     table_b2a_base64 (N.shiftl (N.land y 15) 2);
     BASE64_PAD]
  | b0 :: b1 :: b2 :: rest =>
    let x := Byte.to_N b0 in
    let y := Byte.to_N b1 in
    let z := Byte.to_N b2 in
    table_b2a_base64 (N.shiftr x 2)
    :: table_b2a_base64 (N.lor (N.shiftl (N.land x 3) 4) (N.shiftr y 4))
    :: table_b2a_base64 (N.lor (N.shiftl (N.land y 15) 2) (N.shiftr z 6))
    :: table_b2a_base64 (N.land z 63)
    :: b2a_base64 rest
  end.

(** [base64.b64encode(data).decode()] *)
Definition b64encode (data : pybytes) : pystr := b2a_base64 data.

(** The scanning loop of [binascii.a2b_base64] with [strict_mode] off.
    [quad_pos] counts the data characters of the current group of four,
    [leftchar] holds the bits not yet written, [pads] the padding
    characters seen since the last data character, [out] the bytes written
    so far, most recent first. *)
Fixpoint a2b_base64_loop (ascii : list N) (quad_pos leftchar pads : N)
    (out : pybytes) : res pybytes :=
  match ascii with
  | [] =>
    if quad_pos =? 0 then Ok (rev out)
    else if quad_pos =? 1 then
      Raise (BinasciiError
        (str "Invalid base64-encoded string: number of data characters ("
         ++ dec (N.of_nat (length out) / 3 * 4 + 1)
         ++ str ") cannot be 1 more than a multiple of 4"))
    else Raise (BinasciiError (str "Incorrect padding"))
  | this_ch :: rest =>
    if this_ch =? BASE64_PAD then
      if 2 <=? quad_pos then
        if 4 <=? quad_pos + (pads + 1) then Ok (rev out)
        else a2b_base64_loop rest quad_pos leftchar (pads + 1) out
      else a2b_base64_loop rest quad_pos leftchar pads out
    else
      match table_a2b_base64 this_ch with
      | None => a2b_base64_loop rest quad_pos leftchar pads out
      | Some v =>
        if quad_pos =? 0 then
          a2b_base64_loop rest 1 v 0 out
        else if quad_pos =? 1 then
          a2b_base64_loop rest 2 (N.land v 0x0F) 0
            (byte_of_N (N.lor (N.shiftl leftchar 2) (N.shiftr v 4)) :: out)
        else if quad_pos =? 2 then
          a2b_base64_loop rest 3 (N.land v 0x03) 0
            (byte_of_N (N.lor (N.shiftl leftchar 4) (N.shiftr v 2)) :: out)
        else
          a2b_base64_loop rest 0 0 0
            (byte_of_N (N.lor (N.shiftl leftchar 6) v) :: out)
      end
  end.

Definition a2b_base64 (ascii : list N) : res pybytes :=
  a2b_base64_loop ascii 0 0 0 [].

(** [base64.b64decode(s)] for a [str] argument. *)
Definition b64decode (s : pystr) : res pybytes :=
  if forallb (fun c => c <? 128) s then a2b_base64 s
  else Raise (ValueError
                (str "string argument should contain only ASCII characters")).

(** ** [hashlib.md5]

    RFC 1321 on 32-bit words held in [N]. *)

Module MD5.

Definition mask32 (x : N) : N := N.land x 0xFFFFFFFF.

Definition add32 (x y : N) : N := mask32 (x + y).

Definition not32 (x : N) : N := N.lxor x 0xFFFFFFFF.

Definition rotl32 (x c : N) : N :=
  mask32 (N.lor (N.shiftl x c) (N.shiftr x (32 - c))).

Definition S_table : list N :=
  [7; 12; 17; 22; 7; 12; 17; 22; 7; 12; 17; 22; 7; 12; 17; 22;
   5; 9; 14; 20; 5; 9; 14; 20; 5; 9; 14; 20; 5; 9; 14; 20;
   4; 11; 16; 23; 4; 11; 16; 23; 4; 11; 16; 23; 4; 11; 16; 23;
   6; 10; 15; 21; 6; 10; 15; 21; 6; 10; 15; 21; 6; 10; 15; 21].

(** [K_table[i] = floor(2^32 * abs(sin(i + 1)))] *)
Definition K_table : list N :=
  [
   0xd76aa478; 0xe8c7b756; 0x242070db; 0xc1bdceee;
   0xf57c0faf; 0x4787c62a; 0xa8304613; 0xfd469501;
   0x698098d8; 0x8b44f7af; 0xffff5bb1; 0x895cd7be;
   0x6b901122; 0xfd987193; 0xa679438e; 0x49b40821;
   0xf61e2562; 0xc040b340; 0x265e5a51; 0xe9b6c7aa;
   0xd62f105d; 0x02441453; 0xd8a1e681; 0xe7d3fbc8;
   0x21e1cde6; 0xc33707d6; 0xf4d50d87; 0x455a14ed;
   0xa9e3e905; 0xfcefa3f8; 0x676f02d9; 0x8d2a4c8a;
   0xfffa3942; 0x8771f681; 0x6d9d6122; 0xfde5380c;
   0xa4beea44; 0x4bdecfa9; 0xf6bb4b60; 0xbebfbc70;
   0x289b7ec6; 0xeaa127fa; 0xd4ef3085; 0x04881d05;
   0xd9d4d039; 0xe6db99e5; 0x1fa27cf8; 0xc4ac5665;
   0xf4292244; 0x432aff97; 0xab9423a7; 0xfc93a039;
   0x655b59c3; 0x8f0ccc92; 0xffeff47d; 0x85845dd1;
   0x6fa87e4f; 0xfe2ce6e0; 0xa3014314; 0x4e0811a1;
   0xf7537e82; 0xbd3af235; 0x2ad7d2bb; 0xeb86d391].

Record state := mkState { sA : N; sB : N; sC : N; sD : N }.

Definition init : state :=
  mkState 0x67452301 0xefcdab89 0x98badcfe 0x10325476.

(** Little-endian 32-bit word from four bytes. *)
Definition word_of_bytes (bs : pybytes) : N :=
  fold_right (fun b acc => Byte.to_N b + 256 * acc) 0 bs.

Definition bytes_of_word (w : N) : pybytes :=
  [byte_of_N w; byte_of_N (N.shiftr w 8);
   byte_of_N (N.shiftr w 16); byte_of_N (N.shiftr w 24)].

Fixpoint words_of_block (n : nat) (block : pybytes) : list N :=
  match n with
  | O => []
  | S k => word_of_bytes (firstn 4 block) :: words_of_block k (skipn 4 block)
  end.

Definition step (M : list N) (st : state) (i : nat) : state :=
  let '(mkState A B C D) := st in
  let '(F, g) :=
    if (i <? 16)%nat then
      (N.lor (N.land B C) (N.land (not32 B) D), i)
    else if (i <? 32)%nat then
      (N.lor (N.land D B) (N.land (not32 D) C), ((5 * i + 1) mod 16)%nat)
    else if (i <? 48)%nat then
      (N.lxor B (N.lxor C D), ((3 * i + 5) mod 16)%nat)
    else
      (N.lxor C (N.lor B (not32 D)), ((7 * i) mod 16)%nat) in
  let F' := add32 (add32 (add32 F A) (nth i K_table 0)) (nth g M 0) in
  mkState D (add32 B (rotl32 F' (nth i S_table 0))) B C.

Definition compress (st : state) (block : pybytes) : state :=
  let M := words_of_block 16 block in
  let st' := fold_left (step M) (seq 0 64) st in
  mkState (add32 (sA st) (sA st')) (add32 (sB st) (sB st'))
          (add32 (sC st) (sC st')) (add32 (sD st) (sD st')).

(** The message followed by 0x80, zero bytes up to 56 modulo 64, and the
    bit length as a 64-bit little-endian integer. *)
Definition pad (data : pybytes) : pybytes :=
  let len := length data in
  let zeros := ((55 + 64 - len mod 64) mod 64)%nat in
  let bits := N.of_nat len * 8 in
  data ++ [x80] ++ repeat x00 zeros
  ++ bytes_of_word (mask32 bits) ++ bytes_of_word (mask32 (N.shiftr bits 32)).

Fixpoint blocks (n : nat) (data : pybytes) (st : state) : state :=
  match n with
  | O => st
  | S k => blocks k (skipn 64 data) (compress st (firstn 64 data))
  end.

Definition digest (data : pybytes) : pybytes :=
  let p := pad data in
  let st := blocks (length p / 64) p init in
  bytes_of_word (sA st) ++ bytes_of_word (sB st)
  ++ bytes_of_word (sC st) ++ bytes_of_word (sD st).

(** [hashlib.md5(data).hexdigest()] *)
Definition hexdigest (data : pybytes) : pystr :=
  flat_map (fun b => hex2 (Byte.to_N b)) (digest data).

End MD5.

(** ** The process environment: a POSIX file system without links

    The file system maps absolute paths (sequences of names below the
    root) to regular files or directories; the root always exists.  The
    [world] also carries the working directory of the process, the names
    the [tempfile] generator is going to propose, a chronological record
    of the calls made to the operating system, the block size the file
    system reports ([st_blksize], the size [open] gives the buffer of a
    file object), and what the next writes to the disk are going to do:
    a write takes all the bytes it is given, or it takes the first [n]
    of them and fails with [OSError(errno, strerror)]; once the list is
    used up every write takes all. *)

Inductive entry :=
| File (content : pybytes)
| Dir.

Abbreviation path := (list pystr).

Inductive event :=
| EvChdir (name : pystr)
| EvOpen (name mode : pystr)
| EvRemove (name : pystr)
| EvExists (name : pystr)
| EvGlob (pattern : pystr)
| EvMkstemp (dir : pystr)
| EvWrite (name : pystr) (data : pybytes).

Inductive write_outcome :=
| WriteAll
| WriteFails (n : nat) (errno : N) (strerror : pystr).

Record world := mkWorld {
  files : gmap path entry;
  cwd : path;
  rng : list pystr;
  trace : list event;
  blksize : N;
  disk : list write_outcome
}.

Definition set_files (fs : gmap path entry) (w : world) : world :=
  mkWorld fs (cwd w) (rng w) (trace w) (blksize w) (disk w).

Definition set_cwd (d : path) (w : world) : world :=
  mkWorld (files w) d (rng w) (trace w) (blksize w) (disk w).

Definition set_rng (r : list pystr) (w : world) : world :=
  mkWorld (files w) (cwd w) r (trace w) (blksize w) (disk w).

Definition set_disk (d : list write_outcome) (w : world) : world :=
  mkWorld (files w) (cwd w) (rng w) (trace w) (blksize w) d.

Definition log (e : event) (w : world) : world :=
  mkWorld (files w) (cwd w) (rng w) (trace w ++ [e]) (blksize w) (disk w).

(** What the resolution of a path can report: the errno of the system
    call, or the null character that Python refuses before any call. *)
Inductive errno :=
  ENOENT | EEXIST | ENOTDIR | EISDIR | ENAMETOOLONG | NULBYTE.

Definition os_error (e : errno) (name : pystr) : exn :=
  match e with
  | ENOENT => OSError 2 (str "No such file or directory") (Some name)
  | EEXIST => OSError 17 (str "File exists") (Some name)
  | ENOTDIR => OSError 20 (str "Not a directory") (Some name)
  | EISDIR => OSError 21 (str "Is a directory") (Some name)
  | ENAMETOOLONG => OSError 36 (str "File name too long") (Some name)
  | NULBYTE => ValueError (str "embedded null byte")
  end.

(** The limits of Linux on the bytes of one name and of a whole path,
    its closing null character included. *)
Definition NAME_MAX : N := 255.
Definition PATH_MAX : N := 4096.

Definition lookup_entry (fs : gmap path entry) (p : path) : option entry :=
  match p with
  | [] => Some Dir
  | _ => fs !! p
  end.

Definition step_component (cur : path) (c : pystr) : path :=
  if bool_decide (c = []) || bool_decide (c = str ".") then cur
  else if bool_decide (c = str "..") then removelast cur
  else cur ++ [c].

(** Path resolution: every component is looked up in a directory, and
    a component of more than [NAME_MAX] bytes is refused there. *)
Fixpoint walk (fs : gmap path entry) (cur : path) (comps : list pystr)
  : path + errno :=
  match comps with
  | [] => inl cur
  | c :: rest =>
    match lookup_entry fs cur with
    | Some Dir =>
      if NAME_MAX <? N.of_nat (length (str_encode c)) then inr ENAMETOOLONG
      else walk fs (step_component cur c) rest
    | Some (File _) => inr ENOTDIR
    | None => inr ENOENT
    end
  end.

(** A name with a null character never reaches the system; the empty
    name and a path that does not fit in [PATH_MAX] bytes are refused by
    it at once. *)
Definition resolve (w : world) (name : pystr) : path + errno :=
  if existsb (N.eqb 0) name then inr NULBYTE
  else
    match name with
    | [] => inr ENOENT
    | c :: _ =>
      if PATH_MAX <=? N.of_nat (length (str_encode name)) then
        inr ENAMETOOLONG
      else walk (files w) (if c =? 47 then [] else cwd w) (split_on 47 name)
    end.

(** Computations that read and change a state and may raise. *)
Definition ST (S A : Type) : Type := S -> res A * S.

Definition ret {S A} (a : A) : ST S A := fun s => (Ok a, s).

Definition raise {S A} (e : exn) : ST S A := fun s => (Raise e, s).

Definition bind {S A B} (m : ST S A) (k : A -> ST S B) : ST S B :=
  fun s =>
    match m s with
    | (Ok a, s') => k a s'
    | (Raise e, s') => (Raise e, s')
    end.

(** [try: m  except Exception as e: h e] *)
Definition try_except {S A} (m : ST S A) (h : exn -> ST S A) : ST S A :=
  fun s =>
    match m s with
    | (Ok a, s') => (Ok a, s')
    | (Raise e, s') => h e s'
    end.

(** [try: m  finally: f] *)
Definition try_finally {S A} (m : ST S A) (f : ST S unit) : ST S A :=
  fun s =>
    match m s with
    | (r, s') =>
      match f s' with
      | (Ok _, s'') => (r, s'')
      | (Raise e, s'') => (Raise e, s'')
      end
    end.

Notation "'let*' x ':=' m 'in' k" := (bind m (fun x => k))
  (at level 10, x name, m at level 100, k at level 200, only parsing).

(** Computations on the process environment. *)
Abbreviation M := (ST world).

Definition emit (e : event) : M unit := fun w => (Ok tt, log e w).

(** [os.chdir(name)] *)
Definition os_chdir (name : pystr) : M unit :=
  let* _ := emit (EvChdir name) in
  fun w =>
    match resolve w name with
    | inr e => (Raise (os_error e name), w)
    | inl p =>
      match lookup_entry (files w) p with
      | Some Dir => (Ok tt, set_cwd p w)
      | Some (File _) => (Raise (os_error ENOTDIR name), w)
      | None => (Raise (os_error ENOENT name), w)
      end
    end.

(** [open(name, 'rb').read()] *)
Definition open_read (name : pystr) : M pybytes :=
  let* _ := emit (EvOpen name (str "rb")) in
  fun w =>
    match resolve w name with
    | inr e => (Raise (os_error e name), w)
    | inl p =>
      match lookup_entry (files w) p with
      | Some (File data) => (Ok data, w)
      | Some Dir => (Raise (os_error EISDIR name), w)
      | None => (Raise (os_error ENOENT name), w)
      end
    end.

(** The next write to the disk. *)
Definition next_write (w : world) : write_outcome * world :=
  match disk w with
  | [] => (WriteAll, w)
  | outcome :: rest => (outcome, set_disk rest w)
  end.

(** [with open(name, 'wb') as f: f.write(data)].  Opening creates the
    file or cuts it to nothing.  The data then goes to the disk in one
    write, by [f.write] itself when it is larger than the buffer and
    when [f] is closed otherwise; no data, no write.  When the write
    fails the file keeps what reached it and the [OSError] leaves the
    [with] statement. *)
Definition open_write (name : pystr) (data : pybytes) : M unit :=
  let* _ := emit (EvOpen name (str "wb")) in
  fun w =>
    match resolve w name with
    | inr e => (Raise (os_error e name), w)
    | inl p =>
      match lookup_entry (files w) p with
      | Some Dir => (Raise (os_error EISDIR name), w)
      | _ =>
        match data with
        | [] => (Ok tt, set_files (<[p := File []]> (files w)) w)
        | _ =>
          match next_write w with
          | (WriteAll, w') =>
            (Ok tt, set_files (<[p := File data]> (files w')) w')
          | (WriteFails n errno strerror, w') =>
            (Raise (OSError errno strerror None),
             set_files (<[p := File (firstn n data)]> (files w')) w')
          end
        end
      end
    end.

(** [os.remove(name)] *)
Definition os_remove (name : pystr) : M unit :=
  let* _ := emit (EvRemove name) in
  fun w =>
    match resolve w name with
    | inr e => (Raise (os_error e name), w)
    | inl p =>
      match lookup_entry (files w) p with
      | Some (File _) => (Ok tt, set_files (delete p (files w)) w)
      | Some Dir => (Raise (os_error EISDIR name), w)
      | None => (Raise (os_error ENOENT name), w)
      end
    end.

(** [os.path.exists(name)] *)
Definition os_path_exists (name : pystr) : M bool :=
  let* _ := emit (EvExists name) in
  fun w =>
    match resolve w name with
    | inr _ => (Ok false, w)
    | inl p => (Ok (bool_decide (is_Some (lookup_entry (files w) p))), w)
    end.

(** The name of an entry when it lies directly in [dir]. *)
Definition child_name (dir : path) (item : path * entry) : option pystr :=
  match last (fst item) with
  | Some name =>
    if bool_decide (removelast (fst item) = dir) then Some name else None
  | None => None
  end.

(** The names in the working directory, as [os.scandir] yields them. *)
Definition listdir_cwd (w : world) : list pystr :=
  match lookup_entry (files w) (cwd w) with
  | Some Dir => omap (child_name (cwd w)) (map_to_list (files w))
  | _ => []
  end.

(** [fnmatch] of a name against ['*.*'], after [glob] has dropped the
    hidden names: the name holds a dot and does not begin with one. *)
Definition matches_star_dot_star (name : pystr) : bool :=
  negb (startswith name (str ".")) && existsb (N.eqb 46) name.

(** [glob('*.*')] *)
Definition glob_star_dot_star : M (list pystr) :=
  let* _ := emit (EvGlob (str "*.*")) in
  fun w => (Ok (filter (fun n => matches_star_dot_star n = true)
                       (listdir_cwd w)), w).

(** [os.path.join(a, b)] *)
Definition os_path_join (a b : pystr) : pystr :=
  if startswith b (str "/") then b
  else if bool_decide (a = []) || bool_decide (last a = Some 47) then a ++ b
  else a ++ str "/" ++ b.

(** ** [tempfile.NamedTemporaryFile(delete=False, dir=...)]

    The file object remembers its name, whether it has been closed, and
    the bytes written to it that wait in its buffer.  Candidate names
    come from the generator; a name that is already taken is skipped, as
    the exclusive creation fails on it. *)

Record tempfile := mkTemp {
  name : pystr;
  closed : bool;
  pending : pybytes
}.

Definition set_pending (b : pybytes) (f : tempfile) : tempfile :=
  mkTemp (name f) (closed f) b.

Fixpoint mkstemp_inner (dir : pystr) (candidates : list pystr) (w : world)
  : res pystr * world :=
  match candidates with
  | [] =>
    (Raise (OSError 17 (str "No usable temporary file name found") None),
     set_rng [] w)
  | r :: rest =>
    let file := os_path_join dir (str "tmp" ++ r) in
    match resolve w file with
    | inr e => (Raise (os_error e file), set_rng rest w)
    | inl p =>
      match lookup_entry (files w) p with
      | None => (Ok file, set_rng rest (set_files (<[p := File []]> (files w)) w))
      | Some _ => mkstemp_inner dir rest w
      end
    end
  end.

Definition NamedTemporaryFile (dir : pystr) : M tempfile :=
  let* _ := emit (EvMkstemp dir) in
  let* file := (fun w => mkstemp_inner dir (rng w) w) in
  ret (mkTemp file false []).

(** The bytes [data] reach the end of the file called [name].  The file
    object is the only writer of its file and never seeks, so its
    position is the end of the file. *)
Definition append_to (name : pystr) (data : pybytes) (w : world) : world :=
  match resolve w name with
  | inl p =>
    match files w !! p with
    | Some (File old) => set_files (<[p := File (old ++ data)]> (files w)) w
    | _ => w
    end
  | inr _ => w
  end.

(** One write of [data] to the disk, at the end of the file called
    [name]: how many bytes were taken, and the error if there was one. *)
Definition raw_write (name : pystr) (data : pybytes) (w : world)
  : nat * option exn * world :=
  match next_write (log (EvWrite name data) w) with
  | (WriteAll, w') => (length data, None, append_to name data w')
  | (WriteFails n errno strerror, w') =>
    (Nat.min n (length data), Some (OSError errno strerror None),
     append_to name (firstn n data) w')
  end.

(** [f.flush()]: the buffer goes to the disk; after a failure it keeps
    what was not taken.  An empty buffer makes no write. *)
Definition file_flush (f : tempfile) (w : world)
  : res unit * tempfile * world :=
  match pending f with
  | [] => (Ok tt, f, w)
  | _ =>
    match raw_write (name f) (pending f) w with
    | (_, None, w') => (Ok tt, set_pending [] f, w')
    | (n, Some e, w') => (Raise e, set_pending (skipn n (pending f)) f, w')
    end
  end.

(** [f.write(data)] on a buffered file object ([_io.BufferedRandom]):
    data that fits in what is left of the buffer is kept there;
    otherwise the buffer is flushed first, and the data is written to
    the disk at once when it is larger than the whole buffer and kept in
    the buffer when it is not. *)
Definition file_write (f : tempfile) (data : pybytes) (w : world)
  : res unit * tempfile * world :=
  if closed f then (Raise (ValueError (str "write to closed file")), f, w)
  else if N.of_nat (length data)
          <=? blksize w - N.of_nat (length (pending f)) then
    (Ok tt, set_pending (pending f ++ data) f, w)
  else
    match file_flush f w with
    | (Raise e, f', w') => (Raise e, f', w')
    | (Ok _, f', w') =>
      if blksize w <? N.of_nat (length data) then
        match raw_write (name f) data w' with
        | (_, None, w'') => (Ok tt, f', w'')
        | (_, Some e, w'') => (Raise e, f', w'')
        end
      else (Ok tt, set_pending data f', w')
    end.

(** [f.close()]: nothing on a closed file; otherwise the buffer is
    flushed and the file is closed whether the flush succeeded or not,
    the buffer being given up; the error of the flush is raised after
    that. *)
Definition file_close (f : tempfile) (w : world)
  : res unit * tempfile * world :=
  if closed f then (Ok tt, f, w)
  else
    match file_flush f w with
    | (r, f', w') => (r, mkTemp (name f) true [], w')
    end.

(** ** [file_interface.py] *)

Fixpoint bytes_startswith (data pre : pybytes) : bool :=
  match pre, data with
  | [], _ => true
  | p :: pre', b :: data' => Byte.eqb b p && bytes_startswith data' pre'
  | _ :: _, [] => false
  end.

Definition bytes_eqb (a b : pybytes) : bool :=
  Nat.eqb (length a) (length b) && bytes_startswith a b.

Definition detect_file_type (file_bytes : pybytes) : pystr :=
  let header := firstn 16 file_bytes in
  if bytes_startswith header [x89; x50; x4e; x47; x0d; x0a; x1a; x0a] then
    str ".png"
  else if bytes_startswith header [xff; xd8; xff] then str ".jpeg"
  else if bytes_startswith header (bytes_of "%PDF") then str ".pdf"
  else if bytes_startswith header (bytes_of "GIF87a")
          || bytes_startswith header (bytes_of "GIF89a") then str ".gif"
  else if bytes_startswith header [x50; x4b; x03; x04] then str ".zip"
  else if bytes_startswith header (bytes_of "ID3")
          || bytes_eqb (firstn 2 header) [xff; xfb] then str ".mpeg"
  else [].

(** [dict(status='ERROR', data=str(e))] *)
Definition error_dict (e : exn) : pyval :=
  PDict [(str "status", PStr (str "ERROR")); (str "data", PStr (str_exn e))].

(** [params[0]] *)
Definition params_0 (params : list pystr) : M pystr :=
  match params with
  | p :: _ => ret p
  | [] => raise (IndexError (str "list index out of range"))
  end.

(** [FileInterface.__init__] *)
Definition FileInterface_init : M unit := os_chdir (str "files/").

Definition FileInterface_list (params : list pystr) : M pyval :=
  try_except
    (let* filelist := glob_star_dot_star in
     ret (PDict [(str "status", PStr (str "OK"));
                 (str "data", PList (map PStr filelist))]))
    (fun e => ret (error_dict e)).

Definition FileInterface_get (params : list pystr) : M pyval :=
  try_except
    (let* filename := params_0 params in
     if bool_decide (filename = []) then ret PNone
     else
       let* content := open_read filename in
       let isifile := b64encode content in
       ret (PDict [(str "status", PStr (str "OK"));
                   (str "data_namafile", PStr filename);
                   (str "data_file", PStr isifile)]))
    (fun e => ret (error_dict e)).

Definition FileInterface_upload (params : list pystr) : M pyval :=
  try_except
    (let* temp_filepath := params_0 params in
     let* file_bytes := open_read temp_filepath in
     let hashed_name := MD5.hexdigest file_bytes in
     let file_type := detect_file_type file_bytes in
     let* _ := open_write (hashed_name ++ file_type) file_bytes in
     ret (PDict [(str "status", PStr (str "OK"));
                 (str "message", PStr (str "File uploaded successfully"));
                 (str "data",
                  PDict [(str "file_path", PStr (hashed_name ++ file_type))])]))
    (fun e => ret (error_dict e)).

Definition FileInterface_delete (params : list pystr) : M pyval :=
  try_except
    (let* filename := params_0 params in
     if bool_decide (filename = []) then ret PNone
     else
       let* _ := os_remove filename in
       ret (PDict [(str "status", PStr (str "OK"));
                   (str "message", PStr (str "File deleted successfully"))]))
    (fun e => ret (error_dict e)).

(** ** [ClientHandler.run] in [file_server.py]

    The local variables of [run] form the session.  The handler is a
    computation on the session, the process environment and the record of
    what it did with its socket and with the protocol object: the
    payloads passed to [sendall], the lines passed to [proses_string],
    the data written to the temporary file, and the closing of the
    socket.  Only the handler holds the socket, so nothing else adds to
    that record.  What the socket delivers is given as the list of
    results of the successive [recv] calls; once the list is used up the
    peer has closed the connection and [recv] returns [b'']. *)

Record session := mkSession {
  buffer : pystr;
  uploading : bool;
  temp_file : option tempfile;
  temp_path : pystr
}.

Inductive hevent :=
| HDispatch (line : pystr)
| HSend (payload : pystr)
| HWrite (data : pybytes)
| HConnClose.

Record hstate := mkH { sess : session; env : world; hlog : list hevent }.

Abbreviation H := (ST hstate).

Definition lift {A} (m : M A) : H A :=
  fun h => let '(r, w) := m (env h) in (r, mkH (sess h) w (hlog h)).

Definition get_session : H session := fun h => (Ok (sess h), h).

Definition modify_session (f : session -> session) : H unit :=
  fun h => (Ok tt, mkH (f (sess h)) (env h) (hlog h)).

Definition note (e : hevent) : H unit :=
  fun h => (Ok tt, mkH (sess h) (env h) (hlog h ++ [e])).

Definition set_buffer (b : pystr) (s : session) : session :=
  mkSession b (uploading s) (temp_file s) (temp_path s).

Definition set_uploading (u : bool) (s : session) : session :=
  mkSession (buffer s) u (temp_file s) (temp_path s).

Definition set_temp_file (f : option tempfile) (s : session) : session :=
  mkSession (buffer s) (uploading s) f (temp_path s).

Definition set_temp_path (p : pystr) (s : session) : session :=
  mkSession (buffer s) (uploading s) (temp_file s) p.

Inductive recv_result :=
| Data (data : pybytes)
| RecvError (e : exn).

Definition terminator : pystr := [13; 10; 13; 10].

(** [self._send_response(message)]: the payload is handed to [sendall]
    in one piece.  The socket is taken to accept it: a [sendall] that
    raises is not part of this model. *)
Definition _send_response (message : pystr) : H unit :=
  let payload := message ++ terminator in
  note (HSend payload).

(** A text between double quotes. *)
Definition quoted (s : pystr) : pystr := 34 :: s ++ [34].

(** The f-string of the [except] clause: the text of the exception is
    placed between double quotes as it is. *)
Definition error_msg (err : exn) : pystr :=
  str "{" ++ quoted (str "status") ++ str ":" ++ quoted (str "ERROR")
  ++ str "," ++ quoted (str "data") ++ str ":" ++ quoted (str_exn err)
  ++ str "}".

(** A method of the file object of the session: the object is the same
    one afterwards, in its new state, whether the call raised or not. *)
Definition on_temp_file
    (method : tempfile -> world -> res unit * tempfile * world)
    (f : tempfile) : H unit :=
  fun h =>
    match method f (env h) with
    | (r, f', w') => (r, mkH (set_temp_file (Some f') (sess h)) w' (hlog h))
    end.

(** [temp_file.close()] *)
Definition temp_file_close : H unit :=
  let* s := get_session in
  match temp_file s with
  | Some f => on_temp_file file_close f
  | None =>
    raise (AttributeError (str "'NoneType' object has no attribute 'close'"))
  end.

(** [temp_file.write(data)] *)
Definition temp_file_write (data : pybytes) : H unit :=
  let* s := get_session in
  match temp_file s with
  | Some f =>
    let* _ := on_temp_file (fun f => file_write f data) f in
    note (HWrite data)
  | None =>
    raise (AttributeError (str "'NoneType' object has no attribute 'write'"))
  end.

Section Handler.

(** [TMP_DIR = tempfile.gettempdir()] *)
Variable TMP_DIR : pystr.

(** [protocol.proses_string]: it maps a request line to the text of the
    response and acts on the process environment only. *)
Variable proses_string : pystr -> M pystr.

Definition dispatch (line : pystr) : H pystr :=
  let* _ := note (HDispatch line) in
  lift (proses_string line).

(** The body of the inner [while] loop for one stripped line. *)
Definition handle_line (line : pystr) : H unit :=
  let* s := get_session in
  if uploading s then
    if bool_decide (line = str "ENDUPLOAD") then
      let* _ := temp_file_close in
      let* response := dispatch (str "UPLOAD " ++ temp_path s) in
      let* _ := _send_response response in
      let* _ := lift (os_remove (temp_path s)) in
      let* _ := modify_session (set_uploading false) in
      let* _ := modify_session (set_temp_file None) in
      modify_session (set_temp_path [])
    else
      let* data := (fun h => (b64decode line, h)) in
      temp_file_write data
  else if startswith line (str "UPLOAD") then
    let* _ := modify_session (set_uploading true) in
    let* f := lift (NamedTemporaryFile TMP_DIR) in
    let* _ := modify_session (set_temp_file (Some f)) in
    let* _ := modify_session (set_temp_path (name f)) in
    _send_response (str "READY TO RECEIVE FILE")
  else
    let* response := dispatch line in
    _send_response response.

(** [while '\n' in buffer: line, buffer = buffer.split('\n', 1); ...].
    Every turn removes at least one character from the buffer, so
    [fuel] turns are enough when [fuel] is the length of the buffer. *)
Fixpoint frames_loop (fuel : nat) : H unit :=
  match fuel with
  | O => ret tt
  | S fuel' =>
    let* s := get_session in
    match split_newline (buffer s) with
    | None => ret tt
    | Some (line, rest) =>
      let* _ := modify_session (set_buffer rest) in
      let* _ := handle_line (strip line) in
      frames_loop fuel'
    end
  end.

(** [buffer += data.decode()] followed by the inner loop. *)
Definition on_data (data : pybytes) : H unit :=
  let* text := (fun h => (bytes_decode data, h)) in
  let* s := get_session in
  let* _ := modify_session (set_buffer (buffer s ++ text)) in
  frames_loop (length (buffer s ++ text)).

(** [while True: data = self.conn.recv(BUFFER_SIZE); ...] *)
Fixpoint recv_loop (input : list recv_result) : H unit :=
  match input with
  | [] => ret tt
  | RecvError e :: _ => raise e
  | Data [] :: _ => ret tt
  | Data data :: input' =>
    let* _ := on_data data in
    recv_loop input'
  end.

(** The [except Exception as err] clause. *)
Definition on_exception (err : exn) : H unit :=
  _send_response (error_msg err).

(** The [finally] clause. *)
Definition cleanup : H unit :=
  let* s := get_session in
  let* _ :=
    match temp_file s with
    | Some f => if closed f then ret tt else temp_file_close
    | None => ret tt
    end in
  let* _ :=
    if bool_decide (temp_path s = []) then ret tt
    else
      let* found := lift (os_path_exists (temp_path s)) in
      if found then lift (os_remove (temp_path s)) else ret tt in
  note HConnClose.

(** [try: body  except Exception as err: ...  finally: ...] *)
Definition guarded (body : H unit) : H unit :=
  try_finally (try_except body on_exception) cleanup.

Definition initial_session : session := mkSession [] false None [].

(** [ClientHandler.run] on a fresh connection. *)
Definition run (input : list recv_result) (w : world) : res unit * hstate :=
  guarded (recv_loop input) (mkH initial_session w []).

End Handler.

(** What the client receives: the payloads passed to [sendall]. *)
Definition sent (h : hstate) : list pystr :=
  omap (fun e => match e with HSend p => Some p | _ => None end) (hlog h).

Definition dispatched (h : hstate) : list pystr :=
  omap (fun e => match e with HDispatch l => Some l | _ => None end) (hlog h).

Definition written (h : hstate) : list pybytes :=
  omap (fun e => match e with HWrite d => Some d | _ => None end) (hlog h).

(** ** JSON texts (RFC 8259)

    A recogniser for the JSON grammar, used to judge the texts the server
    sends.  Each function returns what is left of the input after the
    construct it recognises. *)

Module JSON.

Definition is_ws (c : N) : bool :=
  (c =? 32) || (c =? 9) || (c =? 10) || (c =? 13).

Fixpoint skip_ws (s : pystr) : pystr :=
  match s with
  | c :: r => if is_ws c then skip_ws r else s
  | [] => []
  end.

Definition is_digit (c : N) : bool := (48 <=? c) && (c <=? 57).

Definition is_hex (c : N) : bool :=
  is_digit c || ((97 <=? c) && (c <=? 102)) || ((65 <=? c) && (c <=? 70)).

Definition is_escape (c : N) : bool :=
  (c =? 34) || (c =? 92) || (c =? 47) || (c =? 98) || (c =? 102)
  || (c =? 110) || (c =? 114) || (c =? 116).

(** The characters of a string after its opening quote, up to and
    including the closing quote. *)
Fixpoint string_tail (s : pystr) : option pystr :=
  match s with
  | [] => None
  | c :: r =>
    if c =? 34 then Some r
    else if c =? 92 then
      match r with
      | e :: r1 =>
        if is_escape e then string_tail r1
        else if e =? 117 then
          match r1 with
          | h1 :: h2 :: h3 :: h4 :: r2 =>
            if is_hex h1 && is_hex h2 && is_hex h3 && is_hex h4
            then string_tail r2 else None
          | _ => None
          end
        else None
      | [] => None
      end
    else if c <? 32 then None
    else string_tail r
  end.

Fixpoint skip_digits (s : pystr) : pystr :=
  match s with
  | c :: r => if is_digit c then skip_digits r else s
  | [] => []
  end.

(** One digit at least, then any number of digits. *)
Definition digits1 (s : pystr) : option pystr :=
  match s with
  | c :: r => if is_digit c then Some (skip_digits r) else None
  | [] => None
  end.

Definition number (s : pystr) : option pystr :=
  let s1 := match s with 45 :: r => r | _ => s end in
  let after_int :=
    match s1 with
    | 48 :: r => Some r
    | _ => digits1 s1
    end in
  match after_int with
  | None => None
  | Some s2 =>
    let after_frac :=
      match s2 with
      | 46 :: r => digits1 r
      | _ => Some s2
      end in
    match after_frac with
    | None => None
    | Some s3 =>
      match s3 with
      | e :: r =>
        if (e =? 101) || (e =? 69) then
          match r with
          | sign :: r' =>
            if (sign =? 43) || (sign =? 45) then digits1 r' else digits1 r
          | [] => None
          end
        else Some s3
      | [] => Some s3
      end
    end
  end.

Definition literal (word s : pystr) : option pystr :=
  if startswith s word then Some (skipn (length word) s) else None.

(** [value], [members] (the inside of an object after its first member
    has been found to exist) and [elements] (likewise for an array). *)
Fixpoint value (fuel : nat) (s : pystr) : option pystr :=
  match fuel with
  | O => None
  | S k =>
    match skip_ws s with
    | [] => None
    | c :: r =>
      if c =? 123 then
        match skip_ws r with
        | 125 :: r' => Some r'
        | r' => members k r'
        end
      else if c =? 91 then
        match skip_ws r with
        | 93 :: r' => Some r'
        | r' => elements k r'
        end
      else if c =? 34 then string_tail r
      else if c =? 116 then literal (str "true") (c :: r)
      else if c =? 102 then literal (str "false") (c :: r)
      else if c =? 110 then literal (str "null") (c :: r)
      else number (c :: r)
    end
  end
with members (fuel : nat) (s : pystr) : option pystr :=
  match fuel with
  | O => None
  | S k =>
    match skip_ws s with
    | 34 :: r =>
      match string_tail r with
      | None => None
      | Some r1 =>
        match skip_ws r1 with
        | 58 :: r2 =>
          match value k r2 with
          | None => None
          | Some r3 =>
            match skip_ws r3 with
            | 44 :: r4 => members k r4
            | 125 :: r4 => Some r4
            | _ => None
            end
          end
        | _ => None
        end
      end
    | _ => None
    end
  end
with elements (fuel : nat) (s : pystr) : option pystr :=
  match fuel with
  | O => None
  | S k =>
    match value k s with
    | None => None
    | Some r =>
      match skip_ws r with
      | 44 :: r' => elements k r'
      | 93 :: r' => Some r'
      | _ => None
      end
    end
  end.

(** The whole text is one JSON value, white space around it allowed. *)
Definition wellformed (s : pystr) : bool :=
  match value (S (length s)) s with
  | Some rest => bool_decide (skip_ws rest = [])
  | None => false
  end.

End JSON.

(** ** The command codec and the request dispatcher *)

(** [line.split()]: the maximal runs of characters that are not white
    space. *)
Fixpoint tokens_from (cur : pystr) (s : pystr) : list pystr :=
  match s with
  | [] => match cur with [] => [] | _ => [rev cur] end
  | c :: r =>
    if is_whitespace c then
      match cur with
      | [] => tokens_from [] r
      | _ => rev cur :: tokens_from [] r
      end
    else tokens_from (c :: cur) r
  end.

Definition tokens (s : pystr) : list pystr := tokens_from [] s.

Definition json_escape_char (c : N) : pystr :=
  if (c =? 34) || (c =? 92) then [92; c]
  else if c =? 8 then str "\b"
  else if c =? 9 then str "\t"
  else if c =? 10 then str "\n"
  else if c =? 12 then str "\f"
  else if c =? 13 then str "\r"
  else if c <? 32 then str "\u00" ++ hex2 c
  else [c].

Definition json_string (s : pystr) : pystr :=
  quoted (flat_map json_escape_char s).

(** Modelled from the spec: the serialiser of the Command Codec
    ([file_protocol.py] is not among the sources).  It renders an
    envelope as one JSON text without insignificant white space. *)
Fixpoint json_dumps (v : pyval) : pystr :=
  match v with
  | PNone => str "null"
  | PStr s => json_string s
  | PList l =>
    str "["
    ++ (fix items (l : list pyval) : pystr :=
          match l with
          | [] => []
          | [x] => json_dumps x
          | x :: r => json_dumps x ++ str "," ++ items r
          end) l
    ++ str "]"
  | PDict kv =>
    str "{"
    ++ (fix items (l : list (pystr * pyval)) : pystr :=
          match l with
          | [] => []
          | [(k, x)] => json_string k ++ str ":" ++ json_dumps x
          | (k, x) :: r => json_string k ++ str ":" ++ json_dumps x
                           ++ str "," ++ items r
          end) kv
    ++ str "}"
  end.

(** Modelled from the spec: [FileProtocol.proses_string]
    ([file_protocol.py] is not among the sources).  The line is split on
    white space, the first token is the verb, matched exactly, the others
    are the arguments handed to the storage backend; an empty line and an
    unknown verb give an ERROR envelope, the latter naming the verb. *)
Definition proses_string (line : pystr) : M pystr :=
  match tokens line with
  | [] =>
    ret (json_dumps (PDict [(str "status", PStr (str "ERROR"));
                            (str "data", PStr (str "empty command"))]))
  | verb :: args =>
    if bool_decide (verb = str "LIST") then
      let* r := FileInterface_list args in ret (json_dumps r)
    else if bool_decide (verb = str "GET") then
      let* r := FileInterface_get args in ret (json_dumps r)
    else if bool_decide (verb = str "DELETE") then
      let* r := FileInterface_delete args in ret (json_dumps r)
    else if bool_decide (verb = str "UPLOAD") then
      let* r := FileInterface_upload args in ret (json_dumps r)
    else
      ret (json_dumps
             (PDict [(str "status", PStr (str "ERROR"));
                     (str "data", PStr (str "unknown command " ++ verb))]))
  end.

(** ** A small installation used in the examples

    The server was started in [/srv]; the storage directory [/srv/files]
    holds one text file, [/srv/secret.txt] lies next to it, and [/tmp] is
    the directory for temporary files.  The file system reports blocks of
    4096 bytes, and the disk takes every write. *)

Definition example_files : gmap path entry :=
  <[ [str "srv"] := Dir ]>
  (<[ [str "srv"; str "files"] := Dir ]>
  (<[ [str "srv"; str "files"; str "a.txt"] := File (bytes_of "A") ]>
  (<[ [str "srv"; str "secret.txt"] := File (bytes_of "S") ]>
  (<[ [str "tmp"] := Dir ]> ∅)))).

Definition example_world : world :=
  mkWorld example_files [str "srv"; str "files"]
          [str "k3v9x0qa"; str "p_2mmw8z"] [] 4096 [].

(** [text] followed by a newline, as bytes on the wire. *)
Definition line_bytes (text : string) : pybytes := bytes_of text ++ [x0a].

(** * Properties *)

Ltac unfold_st :=
  unfold guarded, try_finally, try_except, bind, ret, raise, lift,
    get_session, modify_session, note, emit in *.

(** ** The log of the handler *)

Lemma sent_app h e :
  sent (mkH (sess h) (env h) (hlog h ++ [e]))
  = sent h ++ match e with HSend p => [p] | _ => [] end.
Proof.
  unfold sent. simpl. rewrite omap_app. destruct e; simpl;
    rewrite ?app_nil_r; reflexivity.
Qed.

Lemma send_response_spec message h :
  _send_response message h
  = (Ok tt, mkH (sess h) (env h) (hlog h ++ [HSend (message ++ terminator)])).
Proof. reflexivity. Qed.

(** ** The reply to [UPLOAD] *)

Section UploadReply.

Variable TMP_DIR : pystr.
Variable proses : pystr -> M pystr.

Lemma handle_upload_frame h line :
  uploading (sess h) = false ->
  startswith line (str "UPLOAD") = true ->
  handle_line TMP_DIR proses line h
  = match NamedTemporaryFile TMP_DIR (env h) with
    | (Ok f, w') =>
      (Ok tt,
       mkH (mkSession (buffer (sess h)) true (Some f) (name f)) w'
           (hlog h ++ [HSend (str "READY TO RECEIVE FILE" ++ terminator)]))
    | (Raise e, w') =>
      (Raise e,
       mkH (mkSession (buffer (sess h)) true (temp_file (sess h))
                      (temp_path (sess h))) w' (hlog h))
    end.
Proof.
  intros Hmode Hpre. unfold handle_line. unfold_st.
  rewrite Hmode, Hpre. simpl.
  destruct (NamedTemporaryFile TMP_DIR (env h)) as [[f|e] w']; reflexivity.
Qed.

(** C3, as the code has it: in command mode a frame beginning with
    UPLOAD is answered, once the temporary file exists, with the plain
    text READY TO RECEIVE FILE followed by the terminator CR LF CR LF that
    closes every other response; the session switches to uploading and
    nothing is dispatched. *)
Theorem C3_ready_reply_is_terminated h line f w' :
  uploading (sess h) = false ->
  startswith line (str "UPLOAD") = true ->
  NamedTemporaryFile TMP_DIR (env h) = (Ok f, w') ->
  exists h',
    handle_line TMP_DIR proses line h = (Ok tt, h')
    /\ sent h' = sent h ++ [str "READY TO RECEIVE FILE" ++ [13; 10; 13; 10]]
    /\ uploading (sess h') = true
    /\ dispatched h' = dispatched h.
Proof.
  intros Hmode Hpre Htmp.
  rewrite (handle_upload_frame h line Hmode Hpre), Htmp.
  eexists; split; [reflexivity|]. simpl. repeat split.
  - unfold sent. simpl. rewrite omap_app. reflexivity.
  - unfold dispatched. simpl. rewrite omap_app. simpl.
    apply app_nil_r.
Qed.

End UploadReply.

Lemma C3_ready_reply_is_terminated_witness :
  exists h',
    handle_line (str "/tmp") proses_string (str "UPLOAD")
                (mkH initial_session example_world []) = (Ok tt, h')
    /\ sent h' = [str "READY TO RECEIVE FILE" ++ [13; 10; 13; 10]]
    /\ uploading (sess h') = true
    /\ dispatched h' = [].
Proof.
  eapply (C3_ready_reply_is_terminated (str "/tmp") proses_string
            (mkH initial_session example_world []) (str "UPLOAD")).
  - reflexivity.
  - reflexivity.
  - vm_compute. reflexivity.
Defined.

(** C3, as stated, fails: the client that sends UPLOAD and nothing else
    receives READY TO RECEIVE FILE with the terminator appended, not the
    bare text. *)
Lemma C3_counterexample :
  sent (snd (run (str "/tmp") proses_string [Data (line_bytes "UPLOAD")]
                 example_world))
  = [str "READY TO RECEIVE FILE" ++ terminator]
  /\ sent (snd (run (str "/tmp") proses_string [Data (line_bytes "UPLOAD")]
                    example_world))
     <> [str "READY TO RECEIVE FILE"].
Proof.
  split.
  - vm_compute. reflexivity.
  - vm_compute. intros H. discriminate H.
Qed.

(** ** The storage backend: [get] and [delete] *)

Definition ok_get (filename : pystr) (content : pybytes) : pyval :=
  PDict [(str "status", PStr (str "OK"));
         (str "data_namafile", PStr filename);
         (str "data_file", PStr (b64encode content))].

Definition ok_delete : pyval :=
  PDict [(str "status", PStr (str "OK"));
         (str "message", PStr (str "File deleted successfully"))].

(** [get] on a filename that is not empty is [open(filename, 'rb')] on
    that very string, its outcome wrapped into a dictionary. *)
Lemma get_nonempty filename rest w :
  filename <> [] ->
  FileInterface_get (filename :: rest) w
  = match open_read filename w with
    | (Ok content, w') => (Ok (ok_get filename content), w')
    | (Raise e, w') => (Ok (error_dict e), w')
    end.
Proof.
  intros Hne. unfold FileInterface_get, params_0. unfold_st.
  rewrite bool_decide_eq_false_2 by assumption.
  unfold open_read. unfold_st.
  destruct (resolve _ filename) as [p|e]; [|reflexivity].
  destruct (lookup_entry _ p) as [[c|]|]; reflexivity.
Qed.

Lemma delete_nonempty filename rest w :
  filename <> [] ->
  FileInterface_delete (filename :: rest) w
  = match os_remove filename w with
    | (Ok _, w') => (Ok ok_delete, w')
    | (Raise e, w') => (Ok (error_dict e), w')
    end.
Proof.
  intros Hne. unfold FileInterface_delete, params_0. unfold_st.
  rewrite bool_decide_eq_false_2 by assumption.
  unfold os_remove. unfold_st.
  destruct (resolve _ filename) as [p|e]; [|reflexivity].
  destruct (lookup_entry _ p) as [[c|]|]; reflexivity.
Qed.

Lemma open_read_trace filename w :
  trace (snd (open_read filename w))
  = trace w ++ [EvOpen filename (str "rb")]
  /\ files (snd (open_read filename w)) = files w.
Proof.
  unfold open_read. unfold_st.
  destruct (resolve _ filename) as [p|e]; [|split; reflexivity].
  destruct (lookup_entry _ p) as [[c|]|]; split; reflexivity.
Qed.

(** C8, as the code has it: [get] never raises and answers
    - a missing filename (no argument at all) with the ERROR envelope of
      the [IndexError], without any call to the file system;
    - an empty filename with [None], no envelope, also without any call to
      the file system;
    - a filename whose [open] fails with the ERROR envelope that carries
      the text of that failure, the file system left as it was. *)
Theorem C8_get_error_paths w :
  FileInterface_get [] w
  = (Ok (error_dict (IndexError (str "list index out of range"))), w)
  /\ (forall rest, FileInterface_get ([] :: rest) w = (Ok PNone, w))
  /\ (forall filename rest e w',
        filename <> [] ->
        open_read filename w = (Raise e, w') ->
        FileInterface_get (filename :: rest) w
        = (Ok (PDict [(str "status", PStr (str "ERROR"));
                      (str "data", PStr (str_exn e))]), w')
        /\ files w' = files w).
Proof.
  split; [reflexivity|]. split; [reflexivity|].
  intros filename rest e w' Hne Hopen.
  rewrite get_nonempty by assumption. rewrite Hopen. split; [reflexivity|].
  pose proof (open_read_trace filename w) as [_ Hfiles].
  rewrite Hopen in Hfiles. exact Hfiles.
Qed.

Lemma C8_get_error_paths_witness :
  FileInterface_get [str "missing.txt"] example_world
  = (Ok (PDict [(str "status", PStr (str "ERROR"));
                (str "data",
                 PStr (str "[Errno 2] No such file or directory: 'missing.txt'"))]),
     log (EvOpen (str "missing.txt") (str "rb")) example_world)
  /\ files (log (EvOpen (str "missing.txt") (str "rb")) example_world)
     = files example_world.
Proof.
  destruct (C8_get_error_paths example_world) as [_ [_ Habsent]].
  apply (Habsent (str "missing.txt") []
           (OSError 2 (str "No such file or directory")
                    (Some (str "missing.txt")))).
  - discriminate.
  - vm_compute. reflexivity.
Defined.

(** C8, as stated, fails: with an empty filename [get] returns [None],
    which is not an ERROR envelope. *)
Lemma C8_counterexample :
  fst (FileInterface_get [[]] example_world) = Ok PNone
  /\ forall msg,
       fst (FileInterface_get [[]] example_world)
       <> Ok (PDict [(str "status", PStr (str "ERROR"));
                     (str "data", PStr msg)]).
Proof.
  split; [reflexivity|]. intros msg H. discriminate H.
Qed.

Lemma os_remove_trace filename w :
  trace (snd (os_remove filename w)) = trace w ++ [EvRemove filename].
Proof.
  unfold os_remove. unfold_st.
  destruct (resolve _ filename) as [p|e]; [|reflexivity].
  destruct (lookup_entry _ p) as [[c|]|]; reflexivity.
Qed.

(** The small installation before the storage backend is created: the
    working directory is still [/srv], where the server was started. *)
Definition example_started : world := set_cwd [str "srv"] example_world.

(** C10, as the code has it: for a filename that is not empty, [get]
    opens, and [delete] removes, the filename exactly as it was
    supplied: the only call either makes is [open(filename, 'rb')],
    respectively [os.remove(filename)], on the unchanged string, which
    the operating system resolves against the working directory, and
    that is the directory [files/] the constructor has changed to.  On
    the small installation, started in [/srv], the filename
    [../secret.txt] makes [get] return the content of [/srv/secret.txt]
    and [delete] remove that file, which lies outside the storage
    directory [/srv/files]. *)
Theorem C10_paths_are_not_confined filename rest w :
  filename <> [] ->
  FileInterface_get (filename :: rest) w
  = match open_read filename w with
    | (Ok content, w') => (Ok (ok_get filename content), w')
    | (Raise e, w') => (Ok (error_dict e), w')
    end
  /\ FileInterface_delete (filename :: rest) w
     = match os_remove filename w with
       | (Ok _, w') => (Ok ok_delete, w')
       | (Raise e, w') => (Ok (error_dict e), w')
       end
  /\ trace (snd (FileInterface_get (filename :: rest) w))
     = trace w ++ [EvOpen filename (str "rb")]
  /\ trace (snd (FileInterface_delete (filename :: rest) w))
     = trace w ++ [EvRemove filename]
  /\ fst (FileInterface_init example_started) = Ok tt
  /\ cwd (snd (FileInterface_init example_started)) = [str "srv"; str "files"]
  /\ files example_started !! [str "srv"; str "secret.txt"]
     = Some (File (bytes_of "S"))
  /\ fst (FileInterface_get [str "../secret.txt"]
            (snd (FileInterface_init example_started)))
     = Ok (ok_get (str "../secret.txt") (bytes_of "S"))
  /\ fst (FileInterface_delete [str "../secret.txt"]
            (snd (FileInterface_init example_started)))
     = Ok ok_delete
  /\ files (snd (FileInterface_delete [str "../secret.txt"]
                   (snd (FileInterface_init example_started))))
     = delete [str "srv"; str "secret.txt"] (files example_started).
Proof.
  intros Hne.
  split; [apply get_nonempty; exact Hne|].
  split; [apply delete_nonempty; exact Hne|].
  split; [|split].
  - rewrite get_nonempty by exact Hne.
    pose proof (open_read_trace filename w) as [Htrace _].
    destruct (open_read filename w) as [[content|e] w']; exact Htrace.
  - rewrite delete_nonempty by exact Hne.
    pose proof (os_remove_trace filename w) as Htrace.
    destruct (os_remove filename w) as [[u|e] w']; exact Htrace.
  - repeat split; vm_compute; reflexivity.
Qed.

Lemma C10_paths_are_not_confined_witness :
  FileInterface_get [str "../secret.txt"]
                    (snd (FileInterface_init example_started))
  = match open_read (str "../secret.txt")
                    (snd (FileInterface_init example_started)) with
    | (Ok content, w') => (Ok (ok_get (str "../secret.txt") content), w')
    | (Raise e, w') => (Ok (error_dict e), w')
    end
  /\ FileInterface_delete [str "../secret.txt"]
                          (snd (FileInterface_init example_started))
     = match os_remove (str "../secret.txt")
                       (snd (FileInterface_init example_started)) with
       | (Ok _, w') => (Ok ok_delete, w')
       | (Raise e, w') => (Ok (error_dict e), w')
       end
  /\ trace (snd (FileInterface_get [str "../secret.txt"]
                   (snd (FileInterface_init example_started))))
     = trace (snd (FileInterface_init example_started))
       ++ [EvOpen (str "../secret.txt") (str "rb")]
  /\ trace (snd (FileInterface_delete [str "../secret.txt"]
                   (snd (FileInterface_init example_started))))
     = trace (snd (FileInterface_init example_started))
       ++ [EvRemove (str "../secret.txt")]
  /\ fst (FileInterface_init example_started) = Ok tt
  /\ cwd (snd (FileInterface_init example_started)) = [str "srv"; str "files"]
  /\ files example_started !! [str "srv"; str "secret.txt"]
     = Some (File (bytes_of "S"))
  /\ fst (FileInterface_get [str "../secret.txt"]
            (snd (FileInterface_init example_started)))
     = Ok (ok_get (str "../secret.txt") (bytes_of "S"))
  /\ fst (FileInterface_delete [str "../secret.txt"]
            (snd (FileInterface_init example_started)))
     = Ok ok_delete
  /\ files (snd (FileInterface_delete [str "../secret.txt"]
                   (snd (FileInterface_init example_started))))
     = delete [str "srv"; str "secret.txt"] (files example_started).
Proof.
  apply (C10_paths_are_not_confined (str "../secret.txt") []
           (snd (FileInterface_init example_started))).
  vm_compute. discriminate.
Defined.

(** C10, as stated, fails: the empty filename is not opened and not
    removed.  [get] and [delete] answer it with [None] and make no call
    at all, where [open('', 'rb')] and [os.remove('')] are calls, which
    the operating system refuses. *)
Lemma C10_counterexample :
  FileInterface_get [[]] example_world = (Ok PNone, example_world)
  /\ FileInterface_delete [[]] example_world = (Ok PNone, example_world)
  /\ trace (snd (open_read [] example_world))
     = trace example_world ++ [EvOpen [] (str "rb")]
  /\ trace (snd (os_remove [] example_world))
     = trace example_world ++ [EvRemove []]
  /\ fst (open_read [] example_world)
     = Raise (OSError 2 (str "No such file or directory") (Some []))
  /\ fst (os_remove [] example_world)
     = Raise (OSError 2 (str "No such file or directory") (Some [])).
Proof.
  repeat split.
Qed.

(** ** The error envelope of the [except] clause *)

(** C9 at a failing input.  The directory for temporary files is
    [/tmp/o'brien] and no longer exists when a client sends UPLOAD.
    [NamedTemporaryFile] raises [FileNotFoundError]; as the path holds an
    apostrophe, its text shows the path between double quotes.  The
    handler copies this text between the double quotes of the [data]
    member, and what it sends before the terminator is not a JSON text. *)
Theorem C9_error_envelope_not_json :
  sent (snd (run (str "/tmp/o'brien") proses_string
                 [Data (line_bytes "UPLOAD")] example_world))
  = [error_msg (OSError 2 (str "No such file or directory")
                        (Some (str "/tmp/o'brien/tmpk3v9x0qa")))
     ++ terminator]
  /\ str_exn (OSError 2 (str "No such file or directory")
                      (Some (str "/tmp/o'brien/tmpk3v9x0qa")))
     = str "[Errno 2] No such file or directory: "
       ++ quoted (str "/tmp/o'brien/tmpk3v9x0qa")
  /\ JSON.wellformed
       (error_msg (OSError 2 (str "No such file or directory")
                           (Some (str "/tmp/o'brien/tmpk3v9x0qa"))))
     = false.
Proof.
  repeat split; vm_compute; reflexivity.
Qed.

(** ** Stepping through the loops of [run] *)

(** The state [h] with another buffer. *)
Definition with_buffer (b : pystr) (h : hstate) : hstate :=
  mkH (set_buffer b (sess h)) (env h) (hlog h).

Section Loops.

Variable TMP_DIR : pystr.
Variable proses : pystr -> M pystr.

Lemma handle_command_frame h line :
  uploading (sess h) = false ->
  startswith line (str "UPLOAD") = false ->
  handle_line TMP_DIR proses line h
  = match proses line (env h) with
    | (Ok response, w') =>
      (Ok tt, mkH (sess h) w'
                  (hlog h ++ [HDispatch line; HSend (response ++ terminator)]))
    | (Raise e, w') =>
      (Raise e, mkH (sess h) w' (hlog h ++ [HDispatch line]))
    end.
Proof.
  intros Hmode Hpre. unfold handle_line, dispatch, _send_response. unfold_st.
  rewrite Hmode, Hpre. simpl.
  destruct (proses line (env h)) as [[response|e] w']; simpl.
  - rewrite <- app_assoc. reflexivity.
  - reflexivity.
Qed.

Lemma handle_chunk_frame h line f :
  uploading (sess h) = true ->
  temp_file (sess h) = Some f ->
  line <> str "ENDUPLOAD" ->
  handle_line TMP_DIR proses line h
  = match b64decode line with
    | Ok data =>
      match file_write f data (env h) with
      | (Ok _, f', w') =>
        (Ok tt, mkH (set_temp_file (Some f') (sess h)) w'
                    (hlog h ++ [HWrite data]))
      | (Raise e, f', w') =>
        (Raise e, mkH (set_temp_file (Some f') (sess h)) w' (hlog h))
      end
    | Raise e => (Raise e, h)
    end.
Proof.
  intros Hmode Hfile Hline.
  unfold handle_line, temp_file_write, on_temp_file. unfold_st.
  rewrite Hmode. rewrite bool_decide_eq_false_2 by assumption.
  destruct (b64decode line) as [data|e]; [|reflexivity].
  rewrite Hfile. cbn [env sess hlog].
  destruct (file_write f data (env h)) as [[[u|e] f'] w']; reflexivity.
Qed.

Lemma frames_loop_done n h :
  split_newline (buffer (sess h)) = None ->
  frames_loop TMP_DIR proses n h = (Ok tt, h).
Proof.
  intros Hnl. destruct n; [reflexivity|].
  simpl. unfold_st. rewrite Hnl. reflexivity.
Qed.

Lemma frames_loop_step n h line rest :
  split_newline (buffer (sess h)) = Some (line, rest) ->
  frames_loop TMP_DIR proses (S n) h
  = match handle_line TMP_DIR proses (strip line) (with_buffer rest h) with
    | (Ok _, h') => frames_loop TMP_DIR proses n h'
    | (Raise e, h') => (Raise e, h')
    end.
Proof.
  intros Hnl. simpl. unfold_st. rewrite Hnl. reflexivity.
Qed.

Lemma on_data_decoded data text h :
  bytes_decode data = Ok text ->
  on_data TMP_DIR proses data h
  = frames_loop TMP_DIR proses (length (buffer (sess h) ++ text))
                (with_buffer (buffer (sess h) ++ text) h).
Proof.
  intros Hdec. unfold on_data. unfold_st. rewrite Hdec. reflexivity.
Qed.

Lemma on_data_undecodable data e h :
  bytes_decode data = Raise e ->
  on_data TMP_DIR proses data h = (Raise e, h).
Proof.
  intros Hdec. unfold on_data. unfold_st. rewrite Hdec. reflexivity.
Qed.

Lemma recv_loop_data b data input h :
  recv_loop TMP_DIR proses (Data (b :: data) :: input) h
  = match on_data TMP_DIR proses (b :: data) h with
    | (Ok _, h') => recv_loop TMP_DIR proses input h'
    | (Raise e, h') => (Raise e, h')
    end.
Proof. reflexivity. Qed.

(** The [except] and [finally] clauses when no temporary file is left. *)
Lemma guarded_idle body r h h' :
  body h = (r, h') ->
  temp_file (sess h') = None ->
  temp_path (sess h') = [] ->
  guarded body h
  = (Ok tt,
     mkH (sess h') (env h')
         (hlog h'
          ++ match r with
             | Ok _ => []
             | Raise e => [HSend (error_msg e ++ terminator)]
             end
          ++ [HConnClose])).
Proof.
  intros Hbody Hfile Hpath. unfold guarded, cleanup, on_exception,
    _send_response. unfold_st. rewrite Hbody.
  destruct r as [[]|e]; simpl; rewrite Hfile, Hpath; simpl.
  - reflexivity.
  - rewrite <- app_assoc. reflexivity.
Qed.

End Loops.

Lemma dispatched_app h l :
  dispatched (mkH (sess h) (env h) (hlog h ++ l))
  = dispatched h
    ++ omap (fun e => match e with HDispatch x => Some x | _ => None end) l.
Proof. unfold dispatched. simpl. apply omap_app. Qed.

(** ** Delivery in pieces *)

(** One command line delivered by a single [recv], then end of stream. *)
Lemma recv_single_command TMP_DIR proses data line w :
  bytes_decode data = Ok (line ++ [10]) ->
  data <> [] ->
  split_newline (line ++ [10]) = Some (line, []) ->
  strip line = line ->
  startswith line (str "UPLOAD") = false ->
  dispatched (snd (run TMP_DIR proses [Data data] w)) = [line].
Proof.
  intros Hdec Hne Hsplit Hstrip Hpre. unfold run.
  set (h0 := mkH initial_session w []).
  assert (Hbody : exists r h',
             recv_loop TMP_DIR proses [Data data] h0 = (r, h')
             /\ temp_file (sess h') = None /\ temp_path (sess h') = []
             /\ dispatched h' = [line]).
  { destruct data as [|b data]; [congruence|].
    rewrite recv_loop_data, (on_data_decoded _ _ _ _ _ Hdec).
    simpl buffer. rewrite app_nil_l.
    replace (length (line ++ [10])) with (S (length line))
      by (rewrite length_app; simpl; lia).
    rewrite (frames_loop_step _ _ _ _ line []) by exact Hsplit.
    rewrite Hstrip, handle_command_frame by (reflexivity || assumption).
    simpl env.
    destruct (proses line w) as [[response|e] w'].
    - rewrite frames_loop_done by reflexivity. simpl.
      eexists _, _. split; [reflexivity|]. repeat split.
    - eexists _, _. split; [reflexivity|]. repeat split. }
  destruct Hbody as (r & h' & Hbody & Hfile & Hpath & Hdisp).
  rewrite (guarded_idle _ r h0 h' Hbody Hfile Hpath). simpl.
  rewrite dispatched_app, Hdisp. destruct r; reflexivity.
Qed.

(** C1 at a failing input.  The request [GET é.txt], whose [é] is the two
    bytes C3 A9, is dispatched when it arrives in one piece.  When the
    first [recv] ends between these two bytes, the piece is decoded on its
    own, the decoder raises, and the handler sends an error envelope and
    closes the connection: the frame is never dispatched. *)
Theorem C1_split_character_loses_frame TMP_DIR proses w :
  dispatched
    (snd (run TMP_DIR proses
              [Data (bytes_of "GET " ++ [xc3; xa9] ++ line_bytes ".txt")] w))
  = [str "GET " ++ [233] ++ str ".txt"]
  /\ dispatched
       (snd (run TMP_DIR proses
                 [Data (bytes_of "GET " ++ [xc3]);
                  Data ([xa9] ++ line_bytes ".txt")] w))
     = []
  /\ sent
       (snd (run TMP_DIR proses
                 [Data (bytes_of "GET " ++ [xc3]);
                  Data ([xa9] ++ line_bytes ".txt")] w))
     = [error_msg (UnicodeDecodeError xc3 4 5 (str "unexpected end of data"))
        ++ terminator].
Proof.
  split; [|split].
  - apply recv_single_command.
    + vm_compute. reflexivity.
    + discriminate.
    + vm_compute. reflexivity.
    + vm_compute. reflexivity.
    + vm_compute. reflexivity.
  - vm_compute. reflexivity.
  - vm_compute. reflexivity.
Qed.

(** ** Path resolution under changes of the file system *)

Lemma lookup_entry_insert_ne (fs : gmap path entry) p q e :
  p <> q -> lookup_entry (<[p := e]> fs) q = lookup_entry fs q.
Proof.
  intros Hne. destruct q; simpl; [reflexivity|].
  apply lookup_insert_ne. exact Hne.
Qed.

(** Creating an entry that did not exist does not disturb a resolution
    that succeeded. *)
Lemma walk_insert_fresh (fs : gmap path entry) p e comps :
  lookup_entry fs p = None ->
  forall cur q,
    walk fs cur comps = inl q -> walk (<[p := e]> fs) cur comps = inl q.
Proof.
  intros Hfresh. induction comps as [|c comps IH]; intros cur q Hwalk.
  - exact Hwalk.
  - simpl in *. destruct (lookup_entry fs cur) as [[content|]|] eqn:Hcur;
      try discriminate.
    rewrite lookup_entry_insert_ne by (intros ->; congruence).
    rewrite Hcur.
    destruct (NAME_MAX <? N.of_nat (length (str_encode c)));
      [discriminate|].
    apply IH. exact Hwalk.
Qed.

(** Changing the content of a regular file does not disturb any
    resolution. *)
Lemma walk_insert_file (fs : gmap path entry) p a b comps :
  fs !! p = Some (File a) ->
  forall cur, walk (<[p := File b]> fs) cur comps = walk fs cur comps.
Proof.
  intros Hfile. induction comps as [|c comps IH]; intros cur.
  - reflexivity.
  - simpl. destruct (decide (p = cur)) as [->|Hne].
    + destruct cur as [|x cur]; simpl.
      * rewrite IH. reflexivity.
      * rewrite lookup_insert_eq, Hfile. reflexivity.
    + rewrite lookup_entry_insert_ne by exact Hne.
      destruct (lookup_entry fs cur) as [[content|]|]; try reflexivity.
      destruct (NAME_MAX <? N.of_nat (length (str_encode c)));
        [reflexivity|].
      apply IH.
Qed.

Lemma resolve_insert_fresh w p e file q :
  lookup_entry (files w) p = None ->
  resolve w file = inl q ->
  resolve (set_files (<[p := e]> (files w)) w) file = inl q.
Proof.
  intros Hfresh. unfold resolve.
  destruct (existsb (N.eqb 0) file); [discriminate|].
  destruct file as [|c file]; [discriminate|].
  destruct (PATH_MAX <=? N.of_nat (length (str_encode (c :: file))));
    [discriminate|].
  simpl files. simpl cwd. apply walk_insert_fresh. exact Hfresh.
Qed.

Lemma resolve_insert_file w p a b file :
  files w !! p = Some (File a) ->
  resolve (set_files (<[p := File b]> (files w)) w) file = resolve w file.
Proof.
  intros Hfile. unfold resolve.
  destruct (existsb (N.eqb 0) file); [reflexivity|].
  destruct file as [|c file]; [reflexivity|].
  destruct (PATH_MAX <=? N.of_nat (length (str_encode (c :: file))));
    [reflexivity|].
  simpl files. simpl cwd. apply (walk_insert_file _ _ a). exact Hfile.
Qed.

Lemma resolve_nonempty w file p : resolve w file = inl p -> file <> [].
Proof. intros H ->. discriminate H. Qed.

Lemma resolve_ext w1 w2 file :
  files w1 = files w2 -> cwd w1 = cwd w2 -> resolve w1 file = resolve w2 file.
Proof. intros Hf Hc. unfold resolve. rewrite Hf, Hc. reflexivity. Qed.

(** ** Creation of the temporary file *)

Lemma mkstemp_inner_ok dir candidates w file w' :
  mkstemp_inner dir candidates w = (Ok file, w') ->
  exists p,
    resolve w file = inl p
    /\ lookup_entry (files w) p = None
    /\ files w' = <[p := File []]> (files w)
    /\ cwd w' = cwd w
    /\ disk w' = disk w.
Proof.
  induction candidates as [|r rest IH]; cbn [mkstemp_inner]; [discriminate|].
  destruct (resolve w (os_path_join dir (str "tmp" ++ r))) as [p|e] eqn:Hres;
    [|discriminate].
  destruct (lookup_entry (files w) p) as [x|] eqn:Hp.
  - exact IH.
  - intros [= <- <-]. exists p. repeat split; assumption.
Qed.

Lemma NamedTemporaryFile_ok dir w f w' :
  NamedTemporaryFile dir w = (Ok f, w') ->
  closed f = false
  /\ exists p,
       resolve w (name f) = inl p
       /\ lookup_entry (files w) p = None
       /\ files w' = <[p := File []]> (files w)
       /\ cwd w' = cwd w.
Proof.
  unfold NamedTemporaryFile. unfold_st.
  destruct (mkstemp_inner dir (rng (log (EvMkstemp dir) w))
                          (log (EvMkstemp dir) w))
    as [[file|e] w1] eqn:Hmk; [|discriminate].
  intros [= <- <-]. split; [reflexivity|].
  apply mkstemp_inner_ok in Hmk.
  destruct Hmk as (p & Hres & Hfresh & Hfiles & Hcwd & _).
  exists p. repeat split; assumption.
Qed.

(** The new file object has an empty buffer, and creating the file is
    no write to the disk. *)
Lemma NamedTemporaryFile_fresh dir w f w' :
  NamedTemporaryFile dir w = (Ok f, w') ->
  pending f = [] /\ disk w' = disk w.
Proof.
  unfold NamedTemporaryFile. unfold_st.
  destruct (mkstemp_inner dir (rng (log (EvMkstemp dir) w))
                          (log (EvMkstemp dir) w))
    as [[file|e] w1] eqn:Hmk; [|discriminate].
  intros [= <- <-]. split; [reflexivity|].
  apply mkstemp_inner_ok in Hmk.
  destruct Hmk as (p & _ & _ & _ & _ & Hdisk). exact Hdisk.
Qed.

(** ** Writing to the temporary file

    The name [tp] leads to the regular file at [p], which holds
    [content], and no write to the disk fails from here on. *)
Definition file_holds (tp : pystr) (p : path) (content : pybytes)
    (w : world) : Prop :=
  resolve w tp = inl p
  /\ files w !! p = Some (File content)
  /\ disk w = [].

(** The world [w'] is [w] but for the content of the file at [p]. *)
Definition rewritten (p : path) (content : pybytes) (w w' : world) : Prop :=
  files w' = <[p := File content]> (files w) /\ cwd w' = cwd w.

Lemma rewritten_same tp p content w :
  file_holds tp p content w -> rewritten p content w w.
Proof.
  intros (_ & Hp & _). split; [|reflexivity].
  symmetry. apply insert_id. exact Hp.
Qed.

Lemma rewritten_twice p a b w w1 w2 :
  rewritten p a w w1 -> rewritten p b w1 w2 -> rewritten p b w w2.
Proof.
  intros [Hf1 Hc1] [Hf2 Hc2]. split; [|congruence].
  rewrite Hf2, Hf1. apply insert_insert_eq.
Qed.

Lemma next_write_healthy w : disk w = [] -> next_write w = (WriteAll, w).
Proof. unfold next_write. intros ->. reflexivity. Qed.

Lemma append_to_file tp p content data w :
  file_holds tp p content w ->
  file_holds tp p (content ++ data) (append_to tp data w)
  /\ rewritten p (content ++ data) w (append_to tp data w).
Proof.
  intros (Hres & Hp & Hdisk). unfold append_to. rewrite Hres, Hp.
  split; [|split; reflexivity].
  split; [|split; [|exact Hdisk]].
  - rewrite <- Hres. apply (resolve_insert_file w p content). exact Hp.
  - simpl. apply lookup_insert_eq.
Qed.

Lemma raw_write_healthy tp p content data w :
  file_holds tp p content w ->
  exists w',
    raw_write tp data w = (length data, None, w')
    /\ file_holds tp p (content ++ data) w'
    /\ rewritten p (content ++ data) w w'.
Proof.
  intros Hw. unfold raw_write.
  rewrite next_write_healthy by (apply Hw).
  eexists. split; [reflexivity|].
  apply (append_to_file tp p content data (log (EvWrite tp data) w)).
  exact Hw.
Qed.

(** On a disk that takes every write, [flush] empties the buffer into
    the file. *)
Lemma file_flush_healthy p content f w :
  file_holds (name f) p content w ->
  exists w',
    file_flush f w = (Ok tt, mkTemp (name f) (closed f) [], w')
    /\ file_holds (name f) p (content ++ pending f) w'
    /\ rewritten p (content ++ pending f) w w'.
Proof.
  intros Hw. unfold file_flush. destruct f as [tp c [|b rest]].
  - cbn [pending name closed]. exists w. rewrite app_nil_r.
    split; [reflexivity|]. split; [exact Hw|].
    apply (rewritten_same tp). exact Hw.
  - cbn [pending name closed] in *.
    destruct (raw_write_healthy tp p content (b :: rest) w Hw)
      as (w' & Hraw & Hw' & Hre).
    rewrite Hraw. exists w'. repeat split; try apply Hw'; apply Hre.
Qed.

(** [write] never fails there, and the data stands at the end of what
    the file and the buffer hold together. *)
Lemma file_write_healthy p content f data w :
  closed f = false ->
  file_holds (name f) p content w ->
  exists f' w' content',
    file_write f data w = (Ok tt, f', w')
    /\ name f' = name f
    /\ closed f' = false
    /\ file_holds (name f) p content' w'
    /\ rewritten p content' w w'
    /\ content' ++ pending f' = (content ++ pending f) ++ data.
Proof.
  intros Hopen Hw. unfold file_write. rewrite Hopen.
  destruct (N.of_nat (length data)
            <=? blksize w - N.of_nat (length (pending f))).
  - exists (set_pending (pending f ++ data) f), w, content.
    split; [reflexivity|]. split; [reflexivity|].
    split; [exact Hopen|]. split; [exact Hw|].
    split; [apply (rewritten_same (name f)); exact Hw|].
    simpl. rewrite app_assoc. reflexivity.
  - destruct (file_flush_healthy p content f w Hw)
      as (w1 & Hflush & Hw1 & Hre1).
    rewrite Hflush, Hopen.
    destruct (blksize w <? N.of_nat (length data)).
    + destruct (raw_write_healthy (name f) p (content ++ pending f)
                  data w1 Hw1) as (w2 & Hraw & Hw2 & Hre2).
      rewrite Hraw.
      exists (mkTemp (name f) false []), w2,
        ((content ++ pending f) ++ data).
      split; [reflexivity|]. split; [reflexivity|].
      split; [reflexivity|]. split; [exact Hw2|].
      split; [exact (rewritten_twice _ _ _ _ _ _ Hre1 Hre2)|].
      simpl. apply app_nil_r.
    + exists (set_pending data (mkTemp (name f) false [])), w1,
        (content ++ pending f).
      split; [reflexivity|]. split; [reflexivity|].
      split; [reflexivity|]. split; [exact Hw1|].
      split; [exact Hre1|]. reflexivity.
Qed.

(** [close] never fails there, and the file then holds all the data. *)
Lemma file_close_healthy p content f w :
  closed f = false ->
  file_holds (name f) p content w ->
  exists w',
    file_close f w = (Ok tt, mkTemp (name f) true [], w')
    /\ file_holds (name f) p (content ++ pending f) w'
    /\ rewritten p (content ++ pending f) w w'.
Proof.
  intros Hopen Hw. unfold file_close. rewrite Hopen.
  destruct (file_flush_healthy p content f w Hw)
    as (w' & Hflush & Hw' & Hre).
  rewrite Hflush. exists w'. repeat split; try apply Hw'; apply Hre.
Qed.

(** ** An upload in progress

    [fs0] is the file system as it was when the UPLOAD frame arrived and
    [tp] the name of the temporary file.  The session is uploading, its
    temporary file is open, the file system is [fs0] plus that one
    file, and no write to the disk fails from here on.  What has been
    written stands in the file or waits in the buffer of the file
    object. *)
Definition upload_in_progress (fs0 : gmap path entry) (tp : pystr)
    (h : hstate) : Prop :=
  uploading (sess h) = true
  /\ temp_path (sess h) = tp
  /\ exists f p content,
       temp_file (sess h) = Some f
       /\ closed f = false
       /\ name f = temp_path (sess h)
       /\ resolve (env h) (temp_path (sess h)) = inl p
       /\ lookup_entry fs0 p = None
       /\ files (env h) = <[p := File content]> fs0
       /\ disk (env h) = [].

Lemma upload_in_progress_holds fs0 tp h :
  upload_in_progress fs0 tp h ->
  exists f p content,
    temp_file (sess h) = Some f
    /\ closed f = false
    /\ name f = tp
    /\ lookup_entry fs0 p = None
    /\ files (env h) = <[p := File content]> fs0
    /\ file_holds (name f) p content (env h).
Proof.
  intros (Hmode & Htp & f & p & content & Hfile & Hopen & Hname & Hres
          & Hfresh & Hfiles & Hdisk).
  exists f, p, content. rewrite Hname.
  repeat split; try assumption.
  rewrite Hfiles. apply lookup_insert_eq.
Qed.

Lemma upload_in_progress_buffer fs0 tp h b :
  upload_in_progress fs0 tp h -> upload_in_progress fs0 tp (with_buffer b h).
Proof. intros H. exact H. Qed.

Lemma upload_in_progress_log fs0 tp h l :
  upload_in_progress fs0 tp h ->
  upload_in_progress fs0 tp (mkH (sess h) (env h) l).
Proof. intros H. exact H. Qed.

(** ** The log only grows *)

Definition growing {A} (m : H A) : Prop :=
  forall h, exists l, hlog (snd (m h)) = hlog h ++ l.

Lemma growing_ret {A} (a : A) : growing (ret a).
Proof. intros h. exists []. simpl. rewrite app_nil_r. reflexivity. Qed.

Lemma growing_raise {A} e : growing (raise (A := A) e).
Proof. intros h. exists []. simpl. rewrite app_nil_r. reflexivity. Qed.

Lemma growing_pure {A} (r : res A) : growing (fun h => (r, h)).
Proof. intros h. exists []. simpl. rewrite app_nil_r. reflexivity. Qed.

Lemma growing_get_session : growing get_session.
Proof. intros h. exists []. simpl. rewrite app_nil_r. reflexivity. Qed.

Lemma growing_modify f : growing (modify_session f).
Proof. intros h. exists []. simpl. rewrite app_nil_r. reflexivity. Qed.

Lemma growing_note e : growing (note e).
Proof. intros h. exists [e]. reflexivity. Qed.

Lemma growing_lift {A} (m : M A) : growing (lift m).
Proof.
  intros h. exists []. unfold lift. destruct (m (env h)) as [r w]. simpl.
  rewrite app_nil_r. reflexivity.
Qed.

Lemma growing_bind {A B} (m : H A) (k : A -> H B) :
  growing m -> (forall a, growing (k a)) -> growing (bind m k).
Proof.
  intros Hm Hk h. unfold bind. destruct (Hm h) as [l Hl].
  destruct (m h) as [[a|e] h1]; simpl in *.
  - destruct (Hk a h1) as [l' Hl']. exists (l ++ l').
    rewrite Hl', Hl, app_assoc. reflexivity.
  - exists l. exact Hl.
Qed.

Lemma growing_try_except {A} (m : H A) (handler : exn -> H A) :
  growing m -> (forall e, growing (handler e)) ->
  growing (try_except m handler).
Proof.
  intros Hm Hk h. unfold try_except. destruct (Hm h) as [l Hl].
  destruct (m h) as [[a|e] h1]; simpl in *.
  - exists l. exact Hl.
  - destruct (Hk e h1) as [l' Hl']. exists (l ++ l').
    rewrite Hl', Hl, app_assoc. reflexivity.
Qed.

Lemma growing_try_finally {A} (m : H A) (f : H unit) :
  growing m -> growing f -> growing (try_finally m f).
Proof.
  intros Hm Hf h. unfold try_finally. destruct (Hm h) as [l Hl].
  destruct (m h) as [r h1]. simpl in *. destruct (Hf h1) as [l' Hl'].
  destruct (f h1) as [[u|e] h2]; simpl in *; exists (l ++ l');
    rewrite Hl', Hl, app_assoc; reflexivity.
Qed.

Lemma growing_on_temp_file method f : growing (on_temp_file method f).
Proof.
  intros h. exists []. unfold on_temp_file.
  destruct (method f (env h)) as [[r f'] w']. simpl.
  rewrite app_nil_r. reflexivity.
Qed.

Create HintDb growing.

#[local] Hint Resolve growing_ret growing_raise growing_pure
  growing_get_session growing_modify growing_note growing_lift
  growing_on_temp_file : growing.

Ltac growing_step :=
  repeat first
    [ solve [auto with growing]
    | apply growing_bind; [|intros ?]
    | apply growing_try_finally
    | apply growing_try_except; [|intros ?]
    | match goal with
      | |- growing (if ?b then _ else _) => destruct b
      | |- growing (match ?x with _ => _ end) => destruct x
      end ].

Section Growth.

Variable TMP_DIR : pystr.
Variable proses : pystr -> M pystr.

Lemma growing_send message : growing (_send_response message).
Proof. unfold _send_response. growing_step. Qed.

Lemma growing_close : growing temp_file_close.
Proof. unfold temp_file_close. growing_step. Qed.

Lemma growing_write data : growing (temp_file_write data).
Proof. unfold temp_file_write. growing_step. Qed.

Lemma growing_handle_line line : growing (handle_line TMP_DIR proses line).
Proof.
  pose proof growing_send. pose proof growing_close.
  pose proof growing_write.
  unfold handle_line, dispatch. growing_step.
Qed.

Lemma growing_frames_loop n : growing (frames_loop TMP_DIR proses n).
Proof.
  pose proof growing_handle_line.
  induction n as [|n IH]; cbn [frames_loop]; growing_step.
Qed.

Lemma growing_on_data data : growing (on_data TMP_DIR proses data).
Proof.
  pose proof growing_frames_loop. unfold on_data. growing_step.
Qed.

Lemma growing_recv_loop input : growing (recv_loop TMP_DIR proses input).
Proof.
  pose proof growing_on_data.
  induction input as [|[[|b data]|e] input IH]; cbn [recv_loop];
    growing_step.
Qed.

Lemma growing_cleanup : growing cleanup.
Proof. pose proof growing_close. unfold cleanup. growing_step. Qed.

Lemma growing_guarded body : growing body -> growing (guarded body).
Proof.
  intros Hbody. pose proof growing_cleanup. pose proof growing_send.
  unfold guarded, on_exception. growing_step.
Qed.

End Growth.

(** ** Interrupted uploads *)

(** Between [h] and [h'] a line was handed to the dispatcher. *)
Definition completed (h h' : hstate) : Prop :=
  exists l x l', hlog h' = hlog h ++ l ++ HDispatch x :: l'.

Lemma completed_dispatched h h' :
  completed h h' -> dispatched h' <> dispatched h.
Proof.
  intros (l & x & l' & Hlog) Heq. unfold dispatched in Heq.
  rewrite Hlog, !omap_app in Heq. simpl in Heq.
  apply (f_equal length) in Heq. rewrite !length_app in Heq. simpl in Heq.
  lia.
Qed.

Lemma completed_grows h h1 h2 :
  completed h h1 -> (exists l, hlog h2 = hlog h1 ++ l) -> completed h h2.
Proof.
  intros (l & x & l' & Hlog) [l2 Hl2]. exists l, x, (l' ++ l2).
  rewrite Hl2, Hlog, <- !app_assoc. reflexivity.
Qed.

Lemma grows_completed h h1 h2 :
  (exists l, hlog h1 = hlog h ++ l) -> completed h1 h2 -> completed h h2.
Proof.
  intros [l1 Hl1] (l & x & l' & Hlog). exists (l1 ++ l), x, l'.
  rewrite Hlog, Hl1, <- !app_assoc. reflexivity.
Qed.

Lemma lookup_entry_fresh (fs : gmap path entry) p :
  lookup_entry fs p = None -> fs !! p = None /\ p <> [].
Proof. destruct p; simpl; [discriminate|]. intros H. split; [exact H|discriminate]. Qed.

Lemma lookup_entry_insert_eq (fs : gmap path entry) p e :
  p <> [] -> lookup_entry (<[p := e]> fs) p = Some e.
Proof. destruct p; [congruence|]. intros _. simpl. apply lookup_insert_eq. Qed.

Section Interrupted.

Variable TMP_DIR : pystr.
Variable proses : pystr -> M pystr.

Lemma upload_established h line h' :
  uploading (sess h) = false ->
  startswith line (str "UPLOAD") = true ->
  disk (env h) = [] ->
  handle_line TMP_DIR proses line h = (Ok tt, h') ->
  upload_in_progress (files (env h)) (temp_path (sess h')) h'.
Proof.
  intros Hmode Hpre Hdisk. rewrite handle_upload_frame by assumption.
  destruct (NamedTemporaryFile TMP_DIR (env h)) as [[f|e] w'] eqn:Htmp;
    [|discriminate].
  intros [= <-].
  destruct (NamedTemporaryFile_fresh _ _ _ _ Htmp) as [_ Hdisk'].
  apply NamedTemporaryFile_ok in Htmp.
  destruct Htmp as (Hopen & p & Hres & Hfresh & Hfiles & Hcwd).
  split; [reflexivity|]. split; [reflexivity|].
  exists f, p, []. simpl. repeat split; try assumption; [|congruence].
  rewrite <- (resolve_insert_fresh (env h) p (File []) (name f) p Hfresh Hres).
  apply resolve_ext; simpl; assumption.
Qed.

Lemma chunk_step fs0 tp h line :
  upload_in_progress fs0 tp h ->
  line <> str "ENDUPLOAD" ->
  match b64decode line with
  | Raise e => handle_line TMP_DIR proses line h = (Raise e, h)
  | Ok data =>
    exists h1,
      handle_line TMP_DIR proses line h = (Ok tt, h1)
      /\ upload_in_progress fs0 tp h1
      /\ hlog h1 = hlog h ++ [HWrite data]
      /\ buffer (sess h1) = buffer (sess h)
  end.
Proof.
  intros Hin Hline.
  destruct (upload_in_progress_holds fs0 tp h Hin)
    as (f & p & content & Hfile & Hopen & Hname & Hfresh & Hfiles & Hw).
  destruct Hin as (Hmode & Htp & _).
  rewrite (handle_chunk_frame _ _ _ _ f Hmode Hfile Hline).
  destruct (b64decode line) as [data|e]; [|reflexivity].
  destruct (file_write_healthy p content f data (env h) Hopen Hw)
    as (f' & w' & content' & Hwrite & Hname' & Hopen' & Hw' & Hre & _).
  rewrite Hwrite. eexists. split; [reflexivity|].
  split; [|split; reflexivity].
  split; [exact Hmode|]. split; [exact Htp|].
  exists f', p, content'. cbn [sess env temp_file temp_path set_temp_file].
  destruct Hw' as (Hres' & _ & Hdisk'). destruct Hre as [Hfiles' _].
  rewrite Htp, <- Hname.
  repeat split; try assumption; try congruence.
  rewrite Hfiles', Hfiles. apply insert_insert_eq.
Qed.

(** The rest of the ENDUPLOAD branch once the dispatcher has answered. *)
Definition after_store (path response : pystr) : H unit :=
  let* _ := _send_response response in
  let* _ := lift (os_remove path) in
  let* _ := modify_session (set_uploading false) in
  let* _ := modify_session (set_temp_file None) in
  modify_session (set_temp_path []).

Lemma handle_endupload_frame h f :
  uploading (sess h) = true ->
  temp_file (sess h) = Some f ->
  handle_line TMP_DIR proses (str "ENDUPLOAD") h
  = match file_close f (env h) with
    | (Ok _, f', w1) =>
      match proses (str "UPLOAD " ++ temp_path (sess h)) w1 with
      | (Ok response, w') =>
        after_store (temp_path (sess h)) response
          (mkH (set_temp_file (Some f') (sess h)) w'
               (hlog h ++ [HDispatch (str "UPLOAD " ++ temp_path (sess h))]))
      | (Raise e, w') =>
        (Raise e,
         mkH (set_temp_file (Some f') (sess h)) w'
             (hlog h ++ [HDispatch (str "UPLOAD " ++ temp_path (sess h))]))
      end
    | (Raise e, f', w1) =>
      (Raise e, mkH (set_temp_file (Some f') (sess h)) w1 (hlog h))
    end.
Proof.
  intros Hmode Hfile.
  unfold handle_line, after_store, temp_file_close, on_temp_file, dispatch.
  unfold_st.
  rewrite Hmode. rewrite bool_decide_eq_true_2 by reflexivity.
  rewrite Hfile.
  destruct (file_close f (env h)) as [[[u|e] f'] w1]; [|reflexivity].
  cbn [sess env hlog temp_file temp_path uploading buffer set_temp_file].
  destruct (proses (str "UPLOAD " ++ temp_path (sess h)) w1)
    as [[response|e] w']; reflexivity.
Qed.

Lemma growing_after_store path response : growing (after_store path response).
Proof.
  pose proof growing_send. unfold after_store. growing_step.
Qed.

Lemma endupload_step fs0 tp h :
  upload_in_progress fs0 tp h ->
  completed h (snd (handle_line TMP_DIR proses (str "ENDUPLOAD") h)).
Proof.
  intros Hin.
  destruct (upload_in_progress_holds fs0 tp h Hin)
    as (f & p & content & Hfile & Hopen & Hname & Hfresh & Hfiles & Hw).
  destruct Hin as (Hmode & Htp & _).
  rewrite (handle_endupload_frame h f Hmode Hfile).
  destruct (file_close_healthy p content f (env h) Hopen Hw)
    as (w1 & Hclose & _).
  rewrite Hclose.
  destruct (proses (str "UPLOAD " ++ temp_path (sess h)) w1)
    as [[response|e] w'].
  - match goal with
    | |- completed _ (snd (after_store ?q ?r ?h1)) =>
      destruct (growing_after_store q r h1) as [l Hl]
    end.
    exists [], (str "UPLOAD " ++ temp_path (sess h)), l.
    rewrite Hl. simpl. rewrite <- app_assoc. reflexivity.
  - exists [], (str "UPLOAD " ++ temp_path (sess h)), []. reflexivity.
Qed.

Lemma frames_loop_in_progress fs0 tp n :
  forall h,
    upload_in_progress fs0 tp h ->
    upload_in_progress fs0 tp (snd (frames_loop TMP_DIR proses n h))
    \/ completed h (snd (frames_loop TMP_DIR proses n h)).
Proof.
  induction n as [|n IH]; intros h Hin; [left; exact Hin|].
  destruct (split_newline (buffer (sess h))) as [[line rest]|] eqn:Hnl.
  - rewrite (frames_loop_step _ _ _ _ line rest Hnl).
    pose proof (upload_in_progress_buffer fs0 tp h rest Hin) as Hin'.
    destruct (decide (strip line = str "ENDUPLOAD")) as [Hend|Hchunk].
    + right. rewrite Hend.
      pose proof (endupload_step fs0 tp _ Hin') as Hdone.
      destruct (handle_line TMP_DIR proses (str "ENDUPLOAD")
                            (with_buffer rest h)) as [[u|e] h1]; simpl in *.
      * apply (completed_grows _ h1); [exact Hdone|].
        apply (growing_frames_loop TMP_DIR proses n h1).
      * exact Hdone.
    + pose proof (chunk_step fs0 tp _ (strip line) Hin' Hchunk) as Hstep.
      destruct (b64decode (strip line)) as [data|e].
      * destruct Hstep as (h1 & Hrun & Hin1 & Hlog & _). rewrite Hrun.
        destruct (IH h1 Hin1) as [Hok|Hdone]; [left; exact Hok|].
        right. apply (grows_completed _ h1); [|exact Hdone].
        exists [HWrite data]. exact Hlog.
      * rewrite Hstep. left. exact Hin'.
  - rewrite frames_loop_done by exact Hnl. left. exact Hin.
Qed.

Lemma recv_loop_in_progress fs0 tp input :
  forall h,
    upload_in_progress fs0 tp h ->
    upload_in_progress fs0 tp (snd (recv_loop TMP_DIR proses input h))
    \/ completed h (snd (recv_loop TMP_DIR proses input h)).
Proof.
  induction input as [|[[|b data]|e] input IH]; intros h Hin;
    try (left; exact Hin).
  rewrite recv_loop_data.
  destruct (bytes_decode (b :: data)) as [text|e] eqn:Hdec.
  - rewrite (on_data_decoded _ _ _ text _ Hdec).
    set (h1 := with_buffer (buffer (sess h) ++ text) h).
    pose proof (frames_loop_in_progress fs0 tp
                  (length (buffer (sess h) ++ text))
                  h1 (upload_in_progress_buffer fs0 tp h _ Hin)) as Hframes.
    destruct (frames_loop TMP_DIR proses (length (buffer (sess h) ++ text)) h1)
      as [[u|e] h2] eqn:Hrun; simpl in Hframes.
    + destruct Hframes as [Hin2|Hdone].
      * destruct (IH h2 Hin2) as [Hok|Hdone]; [left; exact Hok|].
        right. apply (grows_completed _ h2); [|exact Hdone].
        pose proof (growing_frames_loop TMP_DIR proses
                      (length (buffer (sess h) ++ text)) h1) as Hg.
        rewrite Hrun in Hg. exact Hg.
      * right. apply (completed_grows _ h2); [exact Hdone|].
        apply (growing_recv_loop TMP_DIR proses input h2).
    + exact Hframes.
  - rewrite (on_data_undecodable _ _ _ e _ Hdec). left. exact Hin.
Qed.

(** The [finally] clause on an upload in progress: the file object is
    closed, the temporary file is removed, the socket is closed. *)
Lemma cleanup_in_progress fs0 tp h :
  upload_in_progress fs0 tp h ->
  exists h',
    cleanup h = (Ok tt, h')
    /\ files (env h') = fs0
    /\ temp_file (sess h') = Some (mkTemp tp true [])
    /\ temp_path (sess h') = tp
    /\ fst (os_path_exists tp (env h')) = Ok false
    /\ hlog h' = hlog h ++ [HConnClose].
Proof.
  intros Hin.
  destruct (upload_in_progress_holds fs0 tp h Hin)
    as (f & p & content & Hfile & Hopen & Hname & Hfresh & Hfiles & Hw).
  destruct Hin as (Hmode & Htp & _).
  destruct (lookup_entry_fresh _ _ Hfresh) as [Hnone Hp].
  destruct (file_close_healthy p content f (env h) Hopen Hw)
    as (w1 & Hclose & (Hres1 & _ & _) & [Hfiles1 Hcwd1]).
  rewrite Hfiles, insert_insert_eq in Hfiles1.
  rewrite Hname in Hres1, Hclose.
  unfold cleanup, temp_file_close, on_temp_file. unfold_st.
  rewrite Hfile, Hopen. cbn [sess env hlog]. rewrite Hfile, Hclose.
  cbn [sess env hlog temp_path set_temp_file fst snd].
  rewrite Htp.
  rewrite bool_decide_eq_false_2 by (eapply resolve_nonempty; exact Hres1).
  unfold os_path_exists, os_remove. unfold_st. cbn [fst snd env sess hlog].
  change (resolve (log (EvExists tp) w1) tp) with (resolve w1 tp).
  rewrite Hres1. cbn [files log]. rewrite Hfiles1.
  rewrite lookup_entry_insert_eq by exact Hp.
  rewrite bool_decide_eq_true_2 by (eexists; reflexivity).
  cbn [fst snd env sess hlog].
  change (resolve (log (EvRemove tp) (log (EvExists tp) w1)) tp)
    with (resolve w1 tp).
  rewrite Hres1. cbn [files log]. rewrite Hfiles1.
  rewrite lookup_entry_insert_eq by exact Hp.
  eexists. split; [reflexivity|].
  cbn [env sess hlog files set_files temp_file temp_path set_temp_file
       fst snd].
  rewrite delete_insert_id by exact Hnone.
  repeat split; try assumption.
  assert (Hres' : resolve
            (log (EvExists tp)
               (set_files fs0 (log (EvRemove tp) (log (EvExists tp) w1))))
            tp = resolve (set_files fs0 w1) tp)
    by reflexivity.
  rewrite Hres'. clear Hres'.
  destruct (resolve (set_files fs0 w1) tp) as [q|e] eqn:Hres0;
    [|reflexivity].
  cbn [files log set_files].
  assert (Hq : q = p).
  { pose proof (resolve_insert_fresh (set_files fs0 w1) p
                  (File (content ++ pending f)) tp q Hfresh Hres0) as Hins.
    rewrite (resolve_ext _ w1) in Hins;
      [congruence | symmetry; exact Hfiles1 | reflexivity]. }
  subst q. rewrite Hfresh. reflexivity.
Qed.

End Interrupted.

Section Termination.

Variable TMP_DIR : pystr.
Variable proses : pystr -> M pystr.

(** What is left of [run] at some point inside the loops: the rest of
    the inner loop, the rest of the outer loop, and the [except] and
    [finally] clauses around them. *)
Definition rest_of_run (n : nat) (input : list recv_result) : H unit :=
  guarded (let* _ := frames_loop TMP_DIR proses n in
           recv_loop TMP_DIR proses input).

Lemma body_in_progress fs0 tp n input h :
  upload_in_progress fs0 tp h ->
  upload_in_progress fs0 tp
    (snd ((let* _ := frames_loop TMP_DIR proses n in
           recv_loop TMP_DIR proses input) h))
  \/ completed h
       (snd ((let* _ := frames_loop TMP_DIR proses n in
              recv_loop TMP_DIR proses input) h)).
Proof.
  intros Hin. unfold bind.
  pose proof (frames_loop_in_progress TMP_DIR proses fs0 tp n h Hin)
    as Hframes.
  pose proof (growing_frames_loop TMP_DIR proses n h) as Hgrow.
  destruct (frames_loop TMP_DIR proses n h) as [[u|e] h1]; simpl in *.
  - destruct Hframes as [Hin1|Hdone].
    + destruct (recv_loop_in_progress TMP_DIR proses fs0 tp input h1 Hin1)
        as [Hok|Hdone]; [left; exact Hok|].
      right. apply (grows_completed _ h1); assumption.
    + right. apply (completed_grows _ h1); [exact Hdone|].
      apply (growing_recv_loop TMP_DIR proses input h1).
  - exact Hframes.
Qed.

Lemma guarded_grows body h :
  exists l, hlog (snd (guarded body h)) = hlog (snd (body h)) ++ l.
Proof.
  pose proof growing_cleanup as Hc. pose proof growing_send as Hs.
  unfold guarded, try_finally, try_except, on_exception.
  destruct (body h) as [[u|e] hb]; cbn [snd].
  - destruct (Hc hb) as [l Hl]. exists l.
    destruct (cleanup hb) as [[u'|e'] h2]; exact Hl.
  - rewrite send_response_spec.
    match goal with
    | |- context [cleanup ?h1] => destruct (Hc h1) as [l2 Hl2]
    end.
    exists ([HSend (error_msg e ++ terminator)] ++ l2).
    rewrite app_assoc.
    match goal with
    | |- context [cleanup ?h1] =>
      destruct (cleanup h1) as [[u'|e'] h2]; exact Hl2
    end.
Qed.

Lemma guarded_in_progress fs0 tp body h :
  upload_in_progress fs0 tp (snd (body h)) ->
  exists h',
    guarded body h = (Ok tt, h')
    /\ files (env h') = fs0
    /\ temp_file (sess h') = Some (mkTemp tp true [])
    /\ fst (os_path_exists tp (env h')) = Ok false
    /\ hlog h'
       = hlog (snd (body h))
         ++ match fst (body h) with
            | Ok _ => []
            | Raise e => [HSend (error_msg e ++ terminator)]
            end
         ++ [HConnClose].
Proof.
  intros Hin.
  unfold guarded, try_finally, try_except, on_exception.
  destruct (body h) as [[u|e] hb]; cbn [fst snd] in *.
  - destruct (cleanup_in_progress fs0 tp hb Hin)
      as (h' & Hclean & Hfiles & Hfile & _ & Hgone & Hlog).
    rewrite Hclean. exists h'. destruct u. repeat split; assumption.
  - rewrite send_response_spec.
    destruct (cleanup_in_progress fs0 tp
                (mkH (sess hb) (env hb)
                     (hlog hb ++ [HSend (error_msg e ++ terminator)]))
                (upload_in_progress_log fs0 tp hb _ Hin))
      as (h' & Hclean & Hfiles & Hfile & _ & Hgone & Hlog).
    rewrite Hclean. exists h'. repeat split; try assumption.
    rewrite Hlog. simpl. rewrite <- app_assoc. reflexivity.
Qed.

(** An upload that is interrupted on a disk that takes every write.
    A frame beginning with UPLOAD was handled in command mode and left
    the session [h]; the handler then went on with whatever was left in
    its buffer and whatever the socket delivered, up to the end of the
    stream, a failing [recv] or an exception, and no ENDUPLOAD was
    handled on the way (nothing was dispatched).  Then the file object is
    closed, the temporary file does not exist any more, the file system
    is what it was before the UPLOAD frame, so the storage has no new
    entry, and the last thing the handler did was to close the socket. *)
Theorem interrupted_upload_is_cleaned_up h0 line h n input r h' :
  uploading (sess h0) = false ->
  startswith line (str "UPLOAD") = true ->
  disk (env h0) = [] ->
  handle_line TMP_DIR proses line h0 = (Ok tt, h) ->
  rest_of_run n input h = (r, h') ->
  dispatched h' = dispatched h ->
  files (env h') = files (env h0)
  /\ temp_file (sess h') = Some (mkTemp (temp_path (sess h)) true [])
  /\ fst (os_path_exists (temp_path (sess h)) (env h')) = Ok false
  /\ last (hlog h') = Some HConnClose.
Proof.
  intros Hmode Hpre Hdisk Hupload Hrest Hdisp.
  pose proof (upload_established TMP_DIR proses h0 line h Hmode Hpre Hdisk
                Hupload) as Hin.
  unfold rest_of_run in Hrest.
  set (body := let* _ := frames_loop TMP_DIR proses n in
               recv_loop TMP_DIR proses input) in *.
  destruct (body_in_progress _ _ n input h Hin) as [Hin'|Hdone];
    fold body in Hin' || fold body in Hdone.
  - destruct (guarded_in_progress _ _ body h Hin')
      as (h2 & Hrun & Hfiles & Hfile & Hgone & Hlog).
    rewrite Hrun in Hrest. injection Hrest as Hr Hh. subst r h'.
    refine (conj Hfiles (conj Hfile (conj Hgone _))).
    rewrite Hlog, app_assoc. apply last_snoc.
  - exfalso. apply (completed_dispatched h h'); [|exact Hdisp].
    apply (completed_grows _ (snd (body h))); [exact Hdone|].
    pose proof (guarded_grows body h) as Hg. rewrite Hrest in Hg. exact Hg.
Qed.

End Termination.

(** The session right after the frame UPLOAD on a fresh connection. *)
Definition example_upload_state : hstate :=
  snd (handle_line (str "/tmp") proses_string (str "UPLOAD")
                   (mkH initial_session example_world [])).

Lemma interrupted_upload_is_cleaned_up_witness :
  files (env (snd (rest_of_run (str "/tmp") proses_string 0
                               [Data (line_bytes "aGk=")]
                               example_upload_state)))
  = files example_world
  /\ temp_file (sess (snd (rest_of_run (str "/tmp") proses_string 0
                                       [Data (line_bytes "aGk=")]
                                       example_upload_state)))
     = Some (mkTemp (temp_path (sess example_upload_state)) true [])
  /\ fst (os_path_exists (temp_path (sess example_upload_state))
            (env (snd (rest_of_run (str "/tmp") proses_string 0
                                   [Data (line_bytes "aGk=")]
                                   example_upload_state))))
     = Ok false
  /\ last (hlog (snd (rest_of_run (str "/tmp") proses_string 0
                                  [Data (line_bytes "aGk=")]
                                  example_upload_state)))
     = Some HConnClose.
Proof.
  apply (interrupted_upload_is_cleaned_up (str "/tmp") proses_string
           (mkH initial_session example_world []) (str "UPLOAD")
           example_upload_state 0 [Data (line_bytes "aGk=")]
           (fst (rest_of_run (str "/tmp") proses_string 0
                             [Data (line_bytes "aGk=")]
                             example_upload_state))).
  - reflexivity.
  - reflexivity.
  - reflexivity.
  - vm_compute. reflexivity.
  - apply surjective_pairing.
  - vm_compute. reflexivity.
Defined.

(** The disk of the small installation is full: the next write fails
    with errno 28 before it has taken a byte. *)
Definition example_full_disk : world :=
  set_disk [WriteFails 0 28 (str "No space left on device")] example_world.

(** C4 at a failing input.  The client sends UPLOAD and one chunk, the
    two bytes of [hi], and closes the connection, so the upload is never
    completed; the disk is full.  The chunk waits in the buffer of the
    file object, and the [finally] clause calls [close], whose flush
    fails.  [run] ends with that [OSError] and the rest of the clause is
    skipped: the file object is closed, but the temporary file is still
    on the disk, an entry the file system did not have before, and the
    socket is not closed.  On a disk with room the same input leaves the
    file system as it was and the socket closed. *)
Theorem C4_failed_flush_leaves_temporary_file :
  fst (run (str "/tmp") proses_string
           [Data (line_bytes "UPLOAD"); Data (line_bytes "aGk="); Data []]
           example_full_disk)
  = Raise (OSError 28 (str "No space left on device") None)
  /\ hlog (snd (run (str "/tmp") proses_string
                    [Data (line_bytes "UPLOAD"); Data (line_bytes "aGk=");
                     Data []] example_full_disk))
     = [HSend (str "READY TO RECEIVE FILE" ++ terminator);
        HWrite (bytes_of "hi")]
  /\ temp_file (sess (snd (run (str "/tmp") proses_string
                               [Data (line_bytes "UPLOAD");
                                Data (line_bytes "aGk="); Data []]
                               example_full_disk)))
     = Some (mkTemp (str "/tmp/tmpk3v9x0qa") true [])
  /\ fst (os_path_exists (str "/tmp/tmpk3v9x0qa")
            (env (snd (run (str "/tmp") proses_string
                           [Data (line_bytes "UPLOAD");
                            Data (line_bytes "aGk="); Data []]
                           example_full_disk))))
     = Ok true
  /\ files (env (snd (run (str "/tmp") proses_string
                          [Data (line_bytes "UPLOAD");
                           Data (line_bytes "aGk="); Data []]
                          example_full_disk)))
     = <[ [str "tmp"; str "tmpk3v9x0qa"] := File [] ]> example_files
  /\ files (env (snd (run (str "/tmp") proses_string
                          [Data (line_bytes "UPLOAD");
                           Data (line_bytes "aGk="); Data []]
                          example_world)))
     = example_files
  /\ last (hlog (snd (run (str "/tmp") proses_string
                          [Data (line_bytes "UPLOAD");
                           Data (line_bytes "aGk="); Data []]
                          example_world)))
     = Some HConnClose.
Proof.
  repeat split; vm_compute; reflexivity.
Qed.

(** ** Chunks that are not base64 *)




Section BadChunk.

Variable TMP_DIR : pystr.
Variable proses : pystr -> M pystr.


End BadChunk.




(** ** The two modes *)

Lemma written_app h l :
  written (mkH (sess h) (env h) (hlog h ++ l))
  = written h
    ++ omap (fun e => match e with HWrite d => Some d | _ => None end) l.
Proof. unfold written. simpl. apply omap_app. Qed.


(** What the file called [name f] holds once the buffer of the file
    object [f] has reached it: the content on the disk followed by the
    bytes that wait in the buffer. *)
Definition temp_content (f : tempfile) (w : world) : option pybytes :=
  match resolve w (name f) with
  | inl p =>
    match files w !! p with
    | Some (File old) => Some (old ++ pending f)
    | _ => None
    end
  | inr _ => None
  end.


Lemma holds_temp_content f p content w :
  file_holds (name f) p content w ->
  temp_content f w = Some (content ++ pending f).
Proof.
  intros (Hres & Hp & _). unfold temp_content. rewrite Hres, Hp.
  reflexivity.
Qed.

Section Modes.

Variable TMP_DIR : pystr.
Variable proses : pystr -> M pystr.





End Modes.

(** ** Canonical names *)

Definition is_lower_hex (c : N) : bool :=
  ((48 <=? c) && (c <=? 57)) || ((97 <=? c) && (c <=? 102)).

Lemma digit_char_hex d : d < 16 -> is_lower_hex (digit_char d) = true.
Proof.
  intros Hd. unfold is_lower_hex, digit_char.
  destruct (d <? 10) eqn:Hlt.
  - apply N.ltb_lt in Hlt. apply orb_true_iff. left.
    apply andb_true_iff. split; apply N.leb_le; lia.
  - apply N.ltb_ge in Hlt. apply orb_true_iff. right.
    apply andb_true_iff. split; apply N.leb_le; lia.
Qed.

Lemma hexdigest_hex data :
  Forall (fun c => is_lower_hex c = true) (MD5.hexdigest data).
Proof.
  unfold MD5.hexdigest. apply Forall_flat_map, Forall_forall.
  intros b _. unfold hex2. repeat constructor; apply digit_char_hex;
    apply N.mod_upper_bound; discriminate.
Qed.

Lemma hexdigest_length data : length (MD5.hexdigest data) = 32%nat.
Proof.
  unfold MD5.hexdigest, MD5.digest.
  set (st := MD5.blocks _ _ _). clearbody st. reflexivity.
Qed.

Definition known_extensions : list pystr :=
  [str ".png"; str ".jpeg"; str ".pdf"; str ".gif"; str ".zip"; str ".mpeg"].

Lemma detect_file_type_cases file_bytes :
  detect_file_type file_bytes = []
  \/ detect_file_type file_bytes ∈ known_extensions.
Proof.
  unfold detect_file_type, known_extensions.
  repeat match goal with
         | |- context [if ?b then _ else _] => destruct b
         end;
    first [left; reflexivity | right; set_solver].
Qed.

(** A name of one component that is neither empty nor a dot name, has
    no null character and fits in [NAME_MAX] bytes. *)
Definition plain_name (name : pystr) : Prop :=
  split_on 47 name = [name]
  /\ (exists c rest, name = c :: rest /\ c <> 47)
  /\ name <> str "." /\ name <> str ".."
  /\ existsb (N.eqb 0) name = false
  /\ N.of_nat (length (str_encode name)) <= NAME_MAX.

(** Text of ASCII characters other than the null character. *)
Definition ascii_text (s : pystr) : Prop :=
  Forall (fun c => 0 < c < 128) s.

Lemma ascii_text_no_null s : ascii_text s -> existsb (N.eqb 0) s = false.
Proof.
  induction 1 as [|c s Hc Hs IH]; [reflexivity|].
  cbn [existsb]. rewrite IH, orb_false_r. apply N.eqb_neq. lia.
Qed.

Lemma ascii_text_encoded s :
  ascii_text s -> length (str_encode s) = length s.
Proof.
  induction 1 as [|c s Hc Hs IH]; [reflexivity|].
  unfold str_encode in *. cbn [flat_map]. rewrite length_app, IH.
  unfold utf8_encode_char. rewrite (proj2 (N.ltb_lt c 128)) by lia.
  reflexivity.
Qed.

Lemma lower_hex_ascii s :
  Forall (fun c => is_lower_hex c = true) s -> ascii_text s.
Proof.
  intros Hs. eapply Forall_impl; [exact Hs|]. cbv beta. intros c Hc.
  unfold is_lower_hex in Hc.
  rewrite orb_true_iff, !andb_true_iff, !N.leb_le in Hc. lia.
Qed.

Lemma detect_file_type_ascii file_bytes :
  ascii_text (detect_file_type file_bytes)
  /\ (length (detect_file_type file_bytes) <= 5)%nat.
Proof.
  destruct (detect_file_type_cases file_bytes) as [->|Hin];
    [split; [constructor|simpl; lia]|].
  unfold known_extensions in Hin.
  repeat (apply elem_of_cons in Hin as [->|Hin]);
    [..|apply elem_of_nil in Hin; contradiction];
    (split; [repeat constructor; lia|simpl; lia]).
Qed.

Lemma split_on_absent sep s :
  Forall (fun c => c <> sep) s -> split_on sep s = [s].
Proof.
  induction 1 as [|c s Hc Hs IH]; [reflexivity|].
  simpl. rewrite (proj2 (N.eqb_neq c sep) Hc), IH. reflexivity.
Qed.

Lemma canonical_name_plain file_bytes :
  plain_name (MD5.hexdigest file_bytes ++ detect_file_type file_bytes).
Proof.
  pose proof (hexdigest_hex file_bytes) as Hhex.
  pose proof (hexdigest_length file_bytes) as Hlen.
  assert (Hascii : ascii_text (MD5.hexdigest file_bytes
                               ++ detect_file_type file_bytes)).
  { apply Forall_app. split; [apply lower_hex_ascii; exact Hhex|].
    apply detect_file_type_ascii. }
  pose proof (ascii_text_no_null _ Hascii) as Hnull.
  assert (Hfits : N.of_nat (length (str_encode
                    (MD5.hexdigest file_bytes
                     ++ detect_file_type file_bytes))) <= NAME_MAX).
  { rewrite (ascii_text_encoded _ Hascii), length_app, Hlen.
    pose proof (detect_file_type_ascii file_bytes) as [_ Hshort].
    unfold NAME_MAX. lia. }
  clear Hascii.
  assert (Hext : Forall (fun c => c <> 47) (detect_file_type file_bytes)).
  { destruct (detect_file_type_cases file_bytes) as [->|Hin];
      [constructor|].
    unfold known_extensions in Hin.
    repeat (apply elem_of_cons in Hin as [->|Hin]);
      [..|apply elem_of_nil in Hin; contradiction];
      repeat constructor; discriminate. }
  destruct (MD5.hexdigest file_bytes) as [|c0 [|c1 [|c2 digits]]];
    try discriminate.
  assert (Hc0 : is_lower_hex c0 = true) by (inversion Hhex; assumption).
  assert (Hne : forall c, is_lower_hex c = true -> c <> 47 /\ c <> 46).
  { intros c Hc. unfold is_lower_hex in Hc.
    rewrite orb_true_iff, !andb_true_iff, !N.leb_le in Hc. lia. }
  split; [|split; [|split; [|split; [|split]]]].
  - apply split_on_absent. apply Forall_app. split; [|exact Hext].
    eapply Forall_impl; [exact Hhex|]. intros c Hc. apply (Hne c Hc).
  - eexists _, _. split; [reflexivity|]. apply (Hne c0 Hc0).
  - discriminate.
  - discriminate.
  - exact Hnull.
  - exact Hfits.
Qed.

Lemma canonical_name_listed file_bytes :
  detect_file_type file_bytes <> [] ->
  matches_star_dot_star
    (MD5.hexdigest file_bytes ++ detect_file_type file_bytes) = true.
Proof.
  intros Hext. pose proof (hexdigest_hex file_bytes) as Hhex.
  pose proof (hexdigest_length file_bytes) as Hlen.
  unfold matches_star_dot_star. apply andb_true_iff. split.
  - destruct (MD5.hexdigest file_bytes) as [|c0 digits]; [discriminate|].
    inversion Hhex as [|? ? Hc0 _]; subst.
    change (str ".") with [46]. cbn [app startswith].
    destruct (c0 =? 46) eqn:Hdot; [|reflexivity].
    apply N.eqb_eq in Hdot. subst c0. discriminate Hc0.
  - rewrite existsb_app. apply orb_true_iff. right.
    destruct (detect_file_type_cases file_bytes) as [Hnone|Hin];
      [contradiction|].
    unfold known_extensions in Hin.
    repeat (apply elem_of_cons in Hin as [->|Hin]);
      [..|apply elem_of_nil in Hin; contradiction]; reflexivity.
Qed.

(** ** [b64decode] undoes [b64encode] *)

Definition all_bytes : pybytes :=
  map byte_of_N (map N.of_nat (seq 0 256)).

Lemma byte_of_to_N b : byte_of_N (Byte.to_N b) = b.
Proof.
  unfold byte_of_N. pose proof (Byte.to_N_bounded b) as Hb.
  rewrite N.mod_small by lia. rewrite Byte.of_to_N. reflexivity.
Qed.

Lemma all_bytes_complete b : In b all_bytes.
Proof.
  unfold all_bytes. apply in_map_iff. exists (Byte.to_N b).
  split; [apply byte_of_to_N|]. apply in_map_iff.
  exists (N.to_nat (Byte.to_N b)). split; [apply N2Nat.id|].
  apply in_seq. pose proof (Byte.to_N_bounded b). lia.
Qed.

Lemma byte_forall (P : byte -> bool) :
  forallb P all_bytes = true -> forall b, P b = true.
Proof.
  intros Hall b. rewrite forallb_forall in Hall. apply Hall.
  apply all_bytes_complete.
Qed.

Lemma byte_forall2 (P : byte -> byte -> bool) :
  forallb (fun a => forallb (P a) all_bytes) all_bytes = true ->
  forall a b, P a b = true.
Proof.
  intros Hall a b. apply byte_forall. apply (byte_forall _ Hall a).
Qed.

Lemma index_forall (P : N -> bool) :
  forallb P (map N.of_nat (seq 0 64)) = true ->
  forall i, i < 64 -> P i = true.
Proof.
  intros Hall i Hi. rewrite forallb_forall in Hall. apply Hall.
  apply in_map_iff. exists (N.to_nat i). split; [apply N2Nat.id|].
  apply in_seq. lia.
Qed.

(** The four indices into the alphabet for three bytes. *)
Definition index0 (x : byte) : N := N.shiftr (Byte.to_N x) 2.
Definition index1 (x y : byte) : N :=
  N.lor (N.shiftl (N.land (Byte.to_N x) 3) 4) (N.shiftr (Byte.to_N y) 4).
Definition index2 (y z : byte) : N :=
  N.lor (N.shiftl (N.land (Byte.to_N y) 15) 2) (N.shiftr (Byte.to_N z) 6).
Definition index3 (z : byte) : N := N.land (Byte.to_N z) 63.
Definition index1_last (x : byte) : N := N.shiftl (N.land (Byte.to_N x) 3) 4.
Definition index2_last (y : byte) : N := N.shiftl (N.land (Byte.to_N y) 15) 2.

Lemma b2a_base64_eq data :
  b2a_base64 data
  = match data with
    | [] => []
    | [x] =>
      [table_b2a_base64 (index0 x); table_b2a_base64 (index1_last x);
       BASE64_PAD; BASE64_PAD]
    | [x; y] =>
      [table_b2a_base64 (index0 x); table_b2a_base64 (index1 x y);
       table_b2a_base64 (index2_last y); BASE64_PAD]
    | x :: y :: z :: rest =>
      table_b2a_base64 (index0 x) :: table_b2a_base64 (index1 x y)
      :: table_b2a_base64 (index2 y z) :: table_b2a_base64 (index3 z)
      :: b2a_base64 rest
    end.
Proof. destruct data as [|x [|y [|z rest]]]; reflexivity. Qed.

Lemma alphabet_round_trip i :
  i < 64 ->
  table_a2b_base64 (table_b2a_base64 i) = Some i
  /\ (table_b2a_base64 i =? BASE64_PAD) = false.
Proof.
  intros Hi.
  assert (H : (bool_decide (table_a2b_base64 (table_b2a_base64 i) = Some i)
               && negb (table_b2a_base64 i =? BASE64_PAD)) = true).
  { revert i Hi. apply index_forall. vm_compute. reflexivity. }
  apply andb_true_iff in H as [H1 H2].
  apply bool_decide_eq_true in H1. apply negb_true_iff in H2. split; assumption.
Qed.

Lemma index_bounds x y :
  index0 x < 64 /\ index1 x y < 64 /\ index2 x y < 64 /\ index3 x < 64
  /\ index1_last x < 64 /\ index2_last x < 64.
Proof.
  assert (H : ((index0 x <? 64) && (index1 x y <? 64) && (index2 x y <? 64)
               && (index3 x <? 64) && (index1_last x <? 64)
               && (index2_last x <? 64)) = true).
  { revert x y. apply byte_forall2. vm_compute. reflexivity. }
  rewrite !andb_true_iff, !N.ltb_lt in H. tauto.
Qed.

Lemma decoded_bytes x y :
  byte_of_N (N.lor (N.shiftl (index0 x) 2) (N.shiftr (index1 x y) 4)) = x
  /\ byte_of_N (N.lor (N.shiftl (index0 x) 2) (N.shiftr (index1_last x) 4))
     = x
  /\ N.land (index1 x y) 15 = N.shiftr (Byte.to_N y) 4
  /\ N.shiftr (index2 x y) 2 = N.land (Byte.to_N x) 15
  /\ N.shiftr (index2_last x) 2 = N.land (Byte.to_N x) 15
  /\ N.land (index2 x y) 3 = N.shiftr (Byte.to_N y) 6
  /\ byte_of_N (N.lor (N.shiftl (N.shiftr (Byte.to_N x) 4) 4)
                      (N.land (Byte.to_N x) 15)) = x
  /\ byte_of_N (N.lor (N.shiftl (N.shiftr (Byte.to_N x) 6) 6) (index3 x)) = x.
Proof.
  assert (H :
    (Byte.eqb (byte_of_N (N.lor (N.shiftl (index0 x) 2)
                                (N.shiftr (index1 x y) 4))) x
     && Byte.eqb (byte_of_N (N.lor (N.shiftl (index0 x) 2)
                                   (N.shiftr (index1_last x) 4))) x
     && (N.land (index1 x y) 15 =? N.shiftr (Byte.to_N y) 4)
     && (N.shiftr (index2 x y) 2 =? N.land (Byte.to_N x) 15)
     && (N.shiftr (index2_last x) 2 =? N.land (Byte.to_N x) 15)
     && (N.land (index2 x y) 3 =? N.shiftr (Byte.to_N y) 6)
     && Byte.eqb (byte_of_N (N.lor (N.shiftl (N.shiftr (Byte.to_N x) 4) 4)
                                   (N.land (Byte.to_N x) 15))) x
     && Byte.eqb (byte_of_N (N.lor (N.shiftl (N.shiftr (Byte.to_N x) 6) 6)
                                   (index3 x))) x) = true).
  { revert x y. apply byte_forall2. vm_compute. reflexivity. }
  rewrite !andb_true_iff, !N.eqb_eq in H.
  destruct H as [[[[[[[H1 H2] H3] H4] H5] H6] H7] H8].
  repeat split; try assumption; apply Byte.byte_dec_bl; assumption.
Qed.

Section DecoderSteps.

Variables (i : N) (rest : list N) (leftchar pads : N) (out : pybytes).
Hypothesis index_small : i < 64.

Lemma a2b_step0 :
  a2b_base64_loop (table_b2a_base64 i :: rest) 0 leftchar pads out
  = a2b_base64_loop rest 1 i 0 out.
Proof.
  destruct (alphabet_round_trip i index_small) as [Htab Hpad].
  cbn [a2b_base64_loop]. rewrite Hpad, Htab. reflexivity.
Qed.

Lemma a2b_step1 :
  a2b_base64_loop (table_b2a_base64 i :: rest) 1 leftchar pads out
  = a2b_base64_loop rest 2 (N.land i 15) 0
      (byte_of_N (N.lor (N.shiftl leftchar 2) (N.shiftr i 4)) :: out).
Proof.
  destruct (alphabet_round_trip i index_small) as [Htab Hpad].
  cbn [a2b_base64_loop]. rewrite Hpad, Htab. reflexivity.
Qed.

Lemma a2b_step2 :
  a2b_base64_loop (table_b2a_base64 i :: rest) 2 leftchar pads out
  = a2b_base64_loop rest 3 (N.land i 3) 0
      (byte_of_N (N.lor (N.shiftl leftchar 4) (N.shiftr i 2)) :: out).
Proof.
  destruct (alphabet_round_trip i index_small) as [Htab Hpad].
  cbn [a2b_base64_loop]. rewrite Hpad, Htab. reflexivity.
Qed.

Lemma a2b_step3 :
  a2b_base64_loop (table_b2a_base64 i :: rest) 3 leftchar pads out
  = a2b_base64_loop rest 0 0 0
      (byte_of_N (N.lor (N.shiftl leftchar 6) i) :: out).
Proof.
  destruct (alphabet_round_trip i index_small) as [Htab Hpad].
  cbn [a2b_base64_loop]. rewrite Hpad, Htab. reflexivity.
Qed.

End DecoderSteps.

Lemma list_ind3 {A} (P : list A -> Prop) :
  P [] -> (forall a, P [a]) -> (forall a b, P [a; b]) ->
  (forall a b c l, P l -> P (a :: b :: c :: l)) ->
  forall l, P l.
Proof.
  intros H0 H1 H2 H3. fix IH 1. intros [|a [|b [|c l]]].
  - exact H0.
  - apply H1.
  - apply H2.
  - apply H3. apply IH.
Qed.

Lemma a2b_b2a_loop data :
  forall leftchar pads out,
    a2b_base64_loop (b2a_base64 data) 0 leftchar pads out
    = Ok (rev out ++ data).
Proof.
  induction data as [|x|x y|x y z data IH] using list_ind3;
    intros leftchar pads out; rewrite b2a_base64_eq.
  - cbn [a2b_base64_loop]. rewrite app_nil_r. reflexivity.
  - destruct (index_bounds x x) as (H0 & _ & _ & _ & H1 & _).
    destruct (decoded_bytes x x) as (_ & Hx & _).
    rewrite a2b_step0, a2b_step1 by assumption. rewrite Hx. reflexivity.
  - destruct (index_bounds x y) as (H0 & H1 & _).
    destruct (index_bounds y y) as (_ & _ & _ & _ & _ & H2).
    destruct (decoded_bytes x y) as (Hx & _ & Hl & _).
    destruct (decoded_bytes y y) as (_ & _ & _ & _ & Hr & _ & Hy & _).
    rewrite a2b_step0, a2b_step1, a2b_step2 by assumption.
    rewrite Hx, Hl, Hr, Hy.
    change (a2b_base64_loop [BASE64_PAD] 3 (N.land (index2_last y) 3) 0
                            (y :: x :: out))
      with (Ok (rev (y :: x :: out))).
    cbn [rev]. rewrite <- !app_assoc. reflexivity.
  - destruct (index_bounds x y) as (H0 & H1 & _).
    destruct (index_bounds y z) as (_ & _ & H2 & _).
    destruct (index_bounds z z) as (_ & _ & _ & H3 & _).
    destruct (decoded_bytes x y) as (Hx & _ & Hl & _).
    destruct (decoded_bytes y z) as (_ & _ & _ & Hr & _ & Hl' & Hy & _).
    destruct (decoded_bytes z z) as (_ & _ & _ & _ & _ & _ & _ & Hz).
    rewrite a2b_step0, a2b_step1, a2b_step2, a2b_step3 by assumption.
    rewrite Hx, Hl, Hr, Hy, Hl', Hz, IH. cbn [rev].
    rewrite <- !app_assoc. reflexivity.
Qed.

Lemma table_b2a_ascii i : i < 64 -> table_b2a_base64 i < 128.
Proof.
  intros Hi.
  assert (H : (table_b2a_base64 i <? 128) = true)
    by (revert i Hi; apply index_forall; vm_compute; reflexivity).
  apply N.ltb_lt. exact H.
Qed.

Lemma b2a_base64_ascii data :
  forallb (fun c => c <? 128) (b2a_base64 data) = true.
Proof.
  assert (Hchar : forall i, i < 64 -> (table_b2a_base64 i <? 128) = true)
    by (intros i Hi; apply N.ltb_lt, table_b2a_ascii, Hi).
  induction data as [|x|x y|x y z data IH] using list_ind3;
    rewrite b2a_base64_eq; [reflexivity|..].
  - destruct (index_bounds x x) as (H0 & _ & _ & _ & H1 & _).
    cbn [forallb]. rewrite (Hchar _ H0), (Hchar _ H1). reflexivity.
  - destruct (index_bounds x y) as (H0 & H1 & _).
    destruct (index_bounds y y) as (_ & _ & _ & _ & _ & H2).
    cbn [forallb]. rewrite (Hchar _ H0), (Hchar _ H1), (Hchar _ H2).
    reflexivity.
  - destruct (index_bounds x y) as (H0 & H1 & _).
    destruct (index_bounds y z) as (_ & _ & H2 & _).
    destruct (index_bounds z z) as (_ & _ & _ & H3 & _).
    cbn [forallb].
    rewrite (Hchar _ H0), (Hchar _ H1), (Hchar _ H2), (Hchar _ H3).
    exact IH.
Qed.

(** Decoding what [b64encode] produced gives the bytes back. *)
Lemma b64decode_b64encode data : b64decode (b64encode data) = Ok data.
Proof.
  unfold b64decode, b64encode, a2b_base64.
  rewrite b2a_base64_ascii. apply (a2b_b2a_loop data 0 0 []).
Qed.

(** ** The storage backend: [upload], [get] and [list] *)

(** The dictionary [upload] returns on success. *)
Definition upload_ok (file_path : pystr) : pyval :=
  PDict [(str "status", PStr (str "OK"));
         (str "message", PStr (str "File uploaded successfully"));
         (str "data", PDict [(str "file_path", PStr file_path)])].

(** The dictionary [list] returns. *)
Definition list_ok (filelist : list pystr) : pyval :=
  PDict [(str "status", PStr (str "OK"));
         (str "data", PList (map PStr filelist))].

(** The name under which [upload] stores a content. *)
Definition canonical_name (file_bytes : pybytes) : pystr :=
  MD5.hexdigest file_bytes ++ detect_file_type file_bytes.

(** How often a name stands in a list. *)
Definition occurrences (x : pystr) (l : list pystr) : nat :=
  length (filter (fun y => y = x) l).

Lemma open_read_world name w :
  snd (open_read name w) = log (EvOpen name (str "rb")) w.
Proof.
  unfold open_read. unfold_st.
  destruct (resolve _ name) as [p|e]; [|reflexivity].
  destruct (lookup_entry _ p) as [[c|]|]; reflexivity.
Qed.

Lemma resolve_plain w name :
  plain_name name ->
  resolve w name
  = match lookup_entry (files w) (cwd w) with
    | Some Dir => inl (cwd w ++ [name])
    | Some (File _) => inr ENOTDIR
    | None => inr ENOENT
    end.
Proof.
  intros (Hsplit & (c & rest & -> & Hc) & Hdot & Hdots & Hnull & Hfits).
  unfold resolve. rewrite Hnull.
  rewrite (proj2 (N.leb_gt PATH_MAX _))
    by (unfold NAME_MAX, PATH_MAX in *; lia).
  rewrite (proj2 (N.eqb_neq c 47) Hc), Hsplit.
  cbn [walk]. destruct (lookup_entry (files w) (cwd w)) as [[content|]|];
    try reflexivity.
  rewrite (proj2 (N.ltb_ge NAME_MAX _)) by exact Hfits.
  unfold step_component.
  rewrite !bool_decide_eq_false_2 by (assumption || discriminate).
  reflexivity.
Qed.

Lemma error_dict_not_upload_ok {W} e n (w w' : W) :
  (Ok (error_dict e), w) <> (Ok (upload_ok n), w').
Proof.
  intros H. assert (Hstatus : str "ERROR" = str "OK")
    by (unfold error_dict, upload_ok in H; congruence).
  vm_compute in Hstatus. discriminate Hstatus.
Qed.

Lemma next_write_keeps w :
  files (snd (next_write w)) = files w
  /\ cwd (snd (next_write w)) = cwd w
  /\ trace (snd (next_write w)) = trace w.
Proof.
  unfold next_write. destruct (disk w); repeat split.
Qed.

Lemma upload_result temp rest w file_bytes :
  fst (open_read temp w) = Ok file_bytes ->
  FileInterface_upload (temp :: rest) w
  = let name := canonical_name file_bytes in
    let w' := log (EvOpen name (str "wb")) (log (EvOpen temp (str "rb")) w) in
    match lookup_entry (files w) (cwd w) with
    | Some Dir =>
      match lookup_entry (files w) (cwd w ++ [name]) with
      | Some Dir => (Ok (error_dict (os_error EISDIR name)), w')
      | _ =>
        match file_bytes with
        | [] =>
          (Ok (upload_ok name),
           set_files (<[cwd w ++ [name] := File []]> (files w)) w')
        | _ =>
          match next_write w' with
          | (WriteAll, w'') =>
            (Ok (upload_ok name),
             set_files (<[cwd w ++ [name] := File file_bytes]> (files w''))
                       w'')
          | (WriteFails k errno strerror, w'') =>
            (Ok (error_dict (OSError errno strerror None)),
             set_files
               (<[cwd w ++ [name] := File (firstn k file_bytes)]> (files w''))
               w'')
          end
        end
      end
    | Some (File _) => (Ok (error_dict (os_error ENOTDIR name)), w')
    | None => (Ok (error_dict (os_error ENOENT name)), w')
    end.
Proof.
  intros Hread. pose proof (open_read_world temp w) as Hworld.
  destruct (open_read temp w) as [r w1] eqn:Hopen. simpl in Hread, Hworld.
  subst r w1.
  unfold FileInterface_upload, params_0. unfold try_except, bind at 1, ret at 1.
  unfold bind at 1. rewrite Hopen.
  fold (canonical_name file_bytes).
  pose proof (canonical_name_plain file_bytes) as Hplain.
  fold (canonical_name file_bytes) in Hplain.
  set (name := canonical_name file_bytes) in *.
  unfold open_write. unfold_st. cbn zeta.
  change (resolve (log (EvOpen name (str "wb"))
                       (log (EvOpen temp (str "rb")) w)) name)
    with (resolve w name).
  rewrite (resolve_plain w name Hplain). cbn [files log cwd].
  destruct (lookup_entry (files w) (cwd w)) as [[content|]|]; try reflexivity.
  destruct (lookup_entry (files w) (cwd w ++ [name])) as [[old|]|];
    try reflexivity;
    (destruct file_bytes as [|b file_bytes']; [reflexivity|]);
    destruct (next_write _) as [[|k errno strerror] w'']; reflexivity.
Qed.

(** After a successful [upload] the content stands under its canonical
    name in the working directory. *)
Lemma upload_stored temp rest w file_bytes n w1 :
  fst (open_read temp w) = Ok file_bytes ->
  FileInterface_upload (temp :: rest) w = (Ok (upload_ok n), w1) ->
  n = canonical_name file_bytes
  /\ cwd w1 = cwd w
  /\ lookup_entry (files w1) (cwd w1) = Some Dir
  /\ files w1 = <[cwd w ++ [n] := File file_bytes]> (files w).
Proof.
  intros Hread Hup. rewrite (upload_result _ _ _ _ Hread) in Hup.
  cbn zeta in Hup.
  destruct (lookup_entry (files w) (cwd w)) as [[content|]|] eqn:Hdir;
    try (apply error_dict_not_upload_ok in Hup; contradiction).
  set (w' := log (EvOpen (canonical_name file_bytes) (str "wb"))
                 (log (EvOpen temp (str "rb")) w)) in *.
  assert (Hstore : exists w2,
             files w2 = files w /\ cwd w2 = cwd w
             /\ (Ok (upload_ok (canonical_name file_bytes)),
                 set_files
                   (<[cwd w ++ [canonical_name file_bytes]
                      := File file_bytes]> (files w2)) w2)
                = (Ok (upload_ok n), w1)).
  { pose proof (next_write_keeps w') as (Hkf & Hkc & _).
    destruct (lookup_entry (files w) (cwd w ++ [canonical_name file_bytes]))
      as [[old|]|];
      try (apply error_dict_not_upload_ok in Hup; contradiction);
      (destruct file_bytes as [|b file_bytes'];
       [exists w'; repeat split; exact Hup|]);
      (destruct (next_write w') as [[|k errno strerror] w''];
       [exists w''; split; [exact Hkf|split; [exact Hkc|exact Hup]]
       |apply error_dict_not_upload_ok in Hup; contradiction]). }
  destruct Hstore as (w2 & Hf2 & Hc2 & Hstore).
  injection Hstore as Hn Hw. subst n w1. cbn [cwd files set_files log].
  rewrite Hf2, Hc2.
  repeat split.
  rewrite lookup_entry_insert_ne; [exact Hdir|].
  intros Heq. apply (f_equal length) in Heq. rewrite length_app in Heq.
  simpl in Heq. lia.
Qed.

(** C6: the temporary file holds the bytes [B] and [upload] answers OK
    with a file path.  Then [get] on that path answers OK with a payload,
    and [b64decode] of the payload is [B]. *)
Theorem C6_upload_then_get_round_trip temp rest w B n w1 :
  fst (open_read temp w) = Ok B ->
  FileInterface_upload (temp :: rest) w = (Ok (upload_ok n), w1) ->
  exists payload w2,
    FileInterface_get [n] w1
    = (Ok (PDict [(str "status", PStr (str "OK"));
                  (str "data_namafile", PStr n);
                  (str "data_file", PStr payload)]), w2)
    /\ b64decode payload = Ok B.
Proof.
  intros Hread Hup.
  destruct (upload_stored _ _ _ _ _ _ Hread Hup)
    as (Hn & Hcwd & Hdir & Hfiles).
  pose proof (canonical_name_plain B) as Hplain.
  fold (canonical_name B) in Hplain. rewrite <- Hn in Hplain.
  assert (Hne : n <> [])
    by (destruct Hplain as (_ & (c & r & -> & _) & _); discriminate).
  exists (b64encode B), (log (EvOpen n (str "rb")) w1).
  split; [|apply b64decode_b64encode].
  rewrite get_nonempty by exact Hne.
  unfold open_read. unfold_st.
  change (resolve (log (EvOpen n (str "rb")) w1) n) with (resolve w1 n).
  rewrite (resolve_plain w1 n Hplain), Hdir. cbn [files log].
  rewrite Hfiles, Hcwd, lookup_entry_insert_eq; [reflexivity|].
  intros Heq. apply (f_equal length) in Heq. rewrite length_app in Heq.
  simpl in Heq. lia.
Qed.

(** Two temporary files that hold [hi] and two that hold the first bytes of
    a PDF document, next to the example installation. *)
Definition example_uploads : world :=
  set_files
    (<[ [str "tmp"; str "u1"] := File (bytes_of "hi") ]>
     (<[ [str "tmp"; str "u2"] := File (bytes_of "hi") ]>
      (<[ [str "tmp"; str "p1"] := File (bytes_of "%PDF-1.4") ]>
       (<[ [str "tmp"; str "p2"] := File (bytes_of "%PDF-1.4") ]>
        example_files))))
    example_world.

Lemma C6_upload_then_get_round_trip_witness :
  exists payload w2,
    FileInterface_get [str "49f68a5c8493ec2c0bf489821c21fc3b"]
      (snd (FileInterface_upload [str "/tmp/u1"] example_uploads))
    = (Ok (PDict [(str "status", PStr (str "OK"));
                  (str "data_namafile",
                   PStr (str "49f68a5c8493ec2c0bf489821c21fc3b"));
                  (str "data_file", PStr payload)]), w2)
    /\ b64decode payload = Ok (bytes_of "hi").
Proof.
  apply (C6_upload_then_get_round_trip (str "/tmp/u1") [] example_uploads).
  - vm_compute. reflexivity.
  - vm_compute. reflexivity.
Defined.

(** ** Listing the storage directory *)

Lemma NoDup_omap_inj {A B} (f : A -> option B) (l : list A) :
  NoDup l ->
  (forall x y b, x ∈ l -> y ∈ l -> f x = Some b -> f y = Some b -> x = y) ->
  NoDup (omap f l).
Proof.
  induction 1 as [|x l Hx Hl IH]; intros Hinj; [constructor|].
  cbn [omap list_omap]. destruct (f x) as [b|] eqn:Hfx.
  - constructor.
    + intros Hb. apply list_elem_of_omap in Hb as (y & Hy & Hfy).
      assert (x = y)
        by (apply (Hinj x y b); [left | right; exact Hy | exact Hfx
                                 | exact Hfy]).
      subst y. contradiction.
    + apply IH. intros y z c Hy Hz. apply Hinj; right; assumption.
  - apply IH. intros y z c Hy Hz. apply Hinj; right; assumption.
Qed.

Lemma child_name_Some dir item name :
  child_name dir item = Some name -> fst item = dir ++ [name].
Proof.
  unfold child_name. destruct (last (fst item)) as [x|] eqn:Hlast;
    [|discriminate].
  case_bool_decide as Hdir; [|discriminate]. intros [= ->].
  apply last_Some in Hlast as [l' Hl']. rewrite Hl' in Hdir |- *.
  rewrite removelast_last in Hdir. subst l'. reflexivity.
Qed.

Lemma listdir_cwd_NoDup w : NoDup (listdir_cwd w).
Proof.
  unfold listdir_cwd.
  destruct (lookup_entry _ _) as [[c|]|]; try constructor.
  apply NoDup_omap_inj; [apply NoDup_map_to_list|].
  intros [p1 e1] [p2 e2] name H1 H2 Hc1 Hc2.
  apply child_name_Some in Hc1, Hc2. simpl in Hc1, Hc2. subst p1 p2.
  f_equal. exact (map_to_list_unique (files w) _ _ _ H1 H2).
Qed.

Lemma listdir_cwd_elem w name e :
  lookup_entry (files w) (cwd w) = Some Dir ->
  files w !! (cwd w ++ [name]) = Some e ->
  name ∈ listdir_cwd w.
Proof.
  intros Hdir Hname. unfold listdir_cwd. rewrite Hdir.
  apply list_elem_of_omap. exists (cwd w ++ [name], e). split.
  - apply elem_of_map_to_list. exact Hname.
  - unfold child_name. cbn [fst]. rewrite last_snoc, removelast_last.
    rewrite bool_decide_eq_true_2 by reflexivity. reflexivity.
Qed.

Lemma occurrences_once (x : pystr) l :
  NoDup l -> x ∈ l -> occurrences x l = 1%nat.
Proof.
  unfold occurrences. induction 1 as [|y l Hy Hl IH]; intros Hin.
  - apply elem_of_nil in Hin. contradiction.
  - rewrite filter_cons. destruct (decide (y = x)) as [->|Hne].
    + cbn [length]. f_equal.
      assert (Hnone : filter (fun y => y = x) l = []);
        [|rewrite Hnone; reflexivity].
      destruct (filter (fun y => y = x) l) as [|z t] eqn:Hf; [reflexivity|].
      assert (Hz : z ∈ filter (fun y => y = x) l) by (rewrite Hf; left).
      apply list_elem_of_filter in Hz as [-> Hz]. contradiction.
    + apply IH. apply elem_of_cons in Hin as [->|Hin]; [congruence|exact Hin].
Qed.

Lemma list_result params w :
  FileInterface_list params w
  = (Ok (list_ok (filter (fun n => matches_star_dot_star n = true)
                         (listdir_cwd w))),
     log (EvGlob (str "*.*")) w).
Proof. reflexivity. Qed.

(** C7, as the code has it: the same bytes [B] are uploaded twice, both
    times with the answer OK.  Then both answers carry the same file
    path; and when [B] begins with one of the signatures that
    [detect_file_type] knows, so that the name has an extension, the file
    list of a following [list] holds that name exactly once. *)
Theorem C7_same_name_listed_once
    temp1 rest1 temp2 rest2 params w B n1 w1 n2 w2 :
  fst (open_read temp1 w) = Ok B ->
  FileInterface_upload (temp1 :: rest1) w = (Ok (upload_ok n1), w1) ->
  fst (open_read temp2 w1) = Ok B ->
  FileInterface_upload (temp2 :: rest2) w1 = (Ok (upload_ok n2), w2) ->
  n1 = n2
  /\ (detect_file_type B <> [] ->
      exists filelist w3,
        FileInterface_list params w2 = (Ok (list_ok filelist), w3)
        /\ occurrences n1 filelist = 1%nat).
Proof.
  intros Hread1 Hup1 Hread2 Hup2.
  destruct (upload_stored _ _ _ _ _ _ Hread1 Hup1) as (Hn1 & _).
  destruct (upload_stored _ _ _ _ _ _ Hread2 Hup2)
    as (Hn2 & Hcwd & Hdir & Hfiles).
  split; [congruence|]. intros Hext.
  rewrite list_result. eexists _, _. split; [reflexivity|].
  apply occurrences_once.
  - apply NoDup_filter, listdir_cwd_NoDup.
  - apply list_elem_of_filter. split.
    + rewrite Hn1. exact (canonical_name_listed B Hext).
    + apply (listdir_cwd_elem w2 n1 (File B) Hdir).
      rewrite Hfiles, Hcwd, Hn1, <- Hn2. apply lookup_insert_eq.
Qed.

Lemma C7_same_name_listed_once_witness :
  str "914240125319291c7cb7e712e419b254.pdf"
  = str "914240125319291c7cb7e712e419b254.pdf"
  /\ (detect_file_type (bytes_of "%PDF-1.4") <> [] ->
      exists filelist w3,
        FileInterface_list []
          (snd (FileInterface_upload [str "/tmp/p2"]
                  (snd (FileInterface_upload [str "/tmp/p1"]
                                             example_uploads))))
        = (Ok (list_ok filelist), w3)
        /\ occurrences (str "914240125319291c7cb7e712e419b254.pdf") filelist
           = 1%nat).
Proof.
  apply (C7_same_name_listed_once (str "/tmp/p1") [] (str "/tmp/p2") [] []
           example_uploads (bytes_of "%PDF-1.4")
           (str "914240125319291c7cb7e712e419b254.pdf")
           (snd (FileInterface_upload [str "/tmp/p1"] example_uploads))
           (str "914240125319291c7cb7e712e419b254.pdf")
           (snd (FileInterface_upload [str "/tmp/p2"]
                   (snd (FileInterface_upload [str "/tmp/p1"]
                                              example_uploads))))).
  - vm_compute. reflexivity.
  - vm_compute. reflexivity.
  - vm_compute. reflexivity.
  - vm_compute. reflexivity.
Defined.

(** C7, as stated, fails: [hi] has no known signature, so it is stored
    under a name without a dot; both uploads return that name, and the
    pattern [*.*] of [list] does not match it: the file list holds it
    zero times. *)
Lemma C7_counterexample :
  fst (FileInterface_upload [str "/tmp/u1"] example_uploads)
  = Ok (upload_ok (str "49f68a5c8493ec2c0bf489821c21fc3b"))
  /\ fst (FileInterface_upload [str "/tmp/u2"]
            (snd (FileInterface_upload [str "/tmp/u1"] example_uploads)))
     = Ok (upload_ok (str "49f68a5c8493ec2c0bf489821c21fc3b"))
  /\ fst (FileInterface_list []
            (snd (FileInterface_upload [str "/tmp/u2"]
                    (snd (FileInterface_upload [str "/tmp/u1"]
                                               example_uploads)))))
     = Ok (list_ok [str "a.txt"])
  /\ occurrences (str "49f68a5c8493ec2c0bf489821c21fc3b") [str "a.txt"]
     = 0%nat.
Proof.
  repeat split; vm_compute; reflexivity.
Qed.

(** * Further properties of the storage backend *)

Lemma walk_delete_file (fs : gmap path entry) p content comps :
  fs !! p = Some (File content) ->
  forall cur q,
    walk fs cur comps = inl q -> walk (delete p fs) cur comps = inl q.
Proof.
  intros Hfile. induction comps as [|c comps IH]; intros cur q Hwalk.
  - exact Hwalk.
  - cbn [walk] in *.
    destruct (lookup_entry fs cur) as [[old|]|] eqn:Hcur; try discriminate.
    assert (Hcur' : lookup_entry (delete p fs) cur = Some Dir).
    { destruct cur as [|x cur]; [reflexivity|]. simpl in *.
      rewrite lookup_delete_ne by congruence. exact Hcur. }
    rewrite Hcur'.
    destruct (NAME_MAX <? N.of_nat (length (str_encode c)));
      [discriminate|].
    apply IH. exact Hwalk.
Qed.

Lemma os_remove_world name w :
  cwd (snd (os_remove name w)) = cwd w
  /\ trace (snd (os_remove name w)) = trace w ++ [EvRemove name].
Proof.
  unfold os_remove. unfold_st.
  destruct (resolve _ name) as [p|e]; [|split; reflexivity].
  destruct (lookup_entry _ p) as [[c|]|]; split; reflexivity.
Qed.

(** What [os.remove] does to the file system. *)
Lemma os_remove_effect name w :
  match fst (os_remove name w) with
  | Ok _ =>
    exists p content,
      resolve w name = inl p
      /\ p <> []
      /\ files w !! p = Some (File content)
      /\ files (snd (os_remove name w)) = delete p (files w)
  | Raise _ => files (snd (os_remove name w)) = files w
  end.
Proof.
  unfold os_remove. unfold_st.
  change (resolve (log (EvRemove name) w) name) with (resolve w name).
  destruct (resolve w name) as [p|e] eqn:Hres; [|reflexivity].
  cbn [files log].
  destruct (lookup_entry (files w) p) as [[c|]|] eqn:Hp; try reflexivity.
  cbn [fst snd]. exists p, c. split; [reflexivity|].
  destruct p; [discriminate|]. split; [discriminate|].
  split; [exact Hp|reflexivity].
Qed.

(** [delete] never raises.  Either it answers with its OK dictionary, and
    then exactly one entry, a regular file, has been removed; or it answers
    with something else (an ERROR envelope, or [None] for an empty
    filename) and the file system is as before. *)
Theorem delete_removes_one_file_or_nothing params w :
  exists answer,
    fst (FileInterface_delete params w) = Ok answer
    /\ ((answer = ok_delete
         /\ exists filename rest p content,
              params = filename :: rest
              /\ resolve w filename = inl p
              /\ files w !! p = Some (File content)
              /\ files (snd (FileInterface_delete params w))
                 = delete p (files w))
        \/ (answer <> ok_delete
            /\ files (snd (FileInterface_delete params w)) = files w)).
Proof.
  destruct params as [|filename rest].
  - eexists. split; [reflexivity|]. right. split; [|reflexivity].
    intros H. injection H as H. vm_compute in H. discriminate H.
  - destruct (decide (filename = [])) as [->|Hne].
    + eexists. split; [reflexivity|]. right. split; [discriminate|reflexivity].
    + rewrite delete_nonempty by exact Hne.
      pose proof (os_remove_effect filename w) as Heff.
      destruct (os_remove filename w) as [[u|e] w'] eqn:Hrm; cbn [fst snd] in *.
      * eexists. split; [reflexivity|]. left. split; [reflexivity|].
        destruct Heff as (p & content & Hres & _ & Hp & Hfiles).
        exists filename, rest, p, content. repeat split; assumption.
      * eexists. split; [reflexivity|]. right. split; [|exact Heff].
        intros H. injection H as H. vm_compute in H. discriminate H.
Qed.

(** After a [delete] that answered OK, [get] on the same filename
    answers with the ERROR envelope of a file that does not exist. *)
Theorem delete_then_get_not_found filename rest rest' w :
  fst (FileInterface_delete (filename :: rest) w) = Ok ok_delete ->
  fst (FileInterface_get (filename :: rest')
         (snd (FileInterface_delete (filename :: rest) w)))
  = Ok (error_dict (os_error ENOENT filename)).
Proof.
  intros Hdel.
  assert (Hne : filename <> []).
  { intros ->. cbn in Hdel. discriminate Hdel. }
  rewrite delete_nonempty in Hdel |- * by exact Hne.
  pose proof (os_remove_effect filename w) as Heff.
  pose proof (os_remove_world filename w) as [Hcwd _].
  destruct (os_remove filename w) as [[u|e] w'] eqn:Hrm; cbn [fst snd] in *.
  - destruct Heff as (p & content & Hres & Hp & Hfile & Hfiles).
    rewrite get_nonempty by exact Hne.
    unfold open_read. unfold_st.
    change (resolve (log (EvOpen filename (str "rb")) w') filename)
      with (resolve w' filename).
    assert (Hres' : resolve w' filename = inl p).
    { unfold resolve in Hres |- *.
      destruct (existsb (N.eqb 0) filename); [discriminate|].
      destruct filename as [|c name]; [discriminate|].
      destruct (PATH_MAX <=? N.of_nat (length (str_encode (c :: name))));
        [discriminate|].
      rewrite Hfiles, Hcwd.
      apply (walk_delete_file _ _ content); assumption. }
    rewrite Hres'. cbn [files log].
    assert (Hgone : lookup_entry (files w') p = None).
    { destruct p; [congruence|]. simpl. rewrite Hfiles.
      apply lookup_delete_eq. }
    rewrite Hgone. reflexivity.
  - exfalso. injection Hdel as Hdel. vm_compute in Hdel. discriminate Hdel.
Qed.

(** [get] and [list] read only: whatever their arguments and their
    answer, the file system and the working directory are as before. *)
Theorem get_and_list_change_nothing params w :
  files (snd (FileInterface_get params w)) = files w
  /\ cwd (snd (FileInterface_get params w)) = cwd w
  /\ files (snd (FileInterface_list params w)) = files w
  /\ cwd (snd (FileInterface_list params w)) = cwd w.
Proof.
  split; [|split; [|split; reflexivity]].
  - destruct params as [|filename rest]; [reflexivity|].
    destruct (decide (filename = [])) as [->|Hne]; [reflexivity|].
    rewrite get_nonempty by exact Hne.
    pose proof (open_read_trace filename w) as [_ Hfiles].
    destruct (open_read filename w) as [[c|e] w']; exact Hfiles.
  - destruct params as [|filename rest]; [reflexivity|].
    destruct (decide (filename = [])) as [->|Hne]; [reflexivity|].
    rewrite get_nonempty by exact Hne.
    pose proof (open_read_world filename w) as Hworld.
    destruct (open_read filename w) as [[c|e] w']; cbn [snd] in *;
      subst w'; reflexivity.
Qed.

(** The payload of [get] for a regular file decodes to the content of that
    file. *)
Theorem get_payload_decodes_to_content filename rest w p content :
  resolve w filename = inl p ->
  lookup_entry (files w) p = Some (File content) ->
  exists payload,
    fst (FileInterface_get (filename :: rest) w)
    = Ok (PDict [(str "status", PStr (str "OK"));
                 (str "data_namafile", PStr filename);
                 (str "data_file", PStr payload)])
    /\ b64decode payload = Ok content.
Proof.
  intros Hres Hfile.
  rewrite get_nonempty by (eapply resolve_nonempty; exact Hres).
  unfold open_read. unfold_st.
  change (resolve (log (EvOpen filename (str "rb")) w) filename)
    with (resolve w filename).
  rewrite Hres. cbn [files log]. rewrite Hfile.
  exists (b64encode content). split; [reflexivity|].
  apply b64decode_b64encode.
Qed.

(** ** The listing *)

Lemma listdir_cwd_inv w name :
  name ∈ listdir_cwd w ->
  lookup_entry (files w) (cwd w) = Some Dir
  /\ is_Some (files w !! (cwd w ++ [name])).
Proof.
  unfold listdir_cwd.
  destruct (lookup_entry (files w) (cwd w)) as [[c|]|] eqn:Hdir;
    try (intros Hin; apply elem_of_nil in Hin; contradiction).
  intros Hin. split; [reflexivity|].
  apply list_elem_of_omap in Hin as ([p e] & Hitem & Hchild).
  apply child_name_Some in Hchild. cbn [fst] in Hchild. subst p.
  apply elem_of_map_to_list in Hitem. eexists. exact Hitem.
Qed.

(** [list] never raises and answers OK with a list without repetitions
    that holds exactly the names of the entries of the working directory
    that contain a dot and do not begin with one. *)
Theorem list_names_with_a_dot params w :
  exists filelist,
    fst (FileInterface_list params w) = Ok (list_ok filelist)
    /\ NoDup filelist
    /\ forall name,
         name ∈ filelist
         <-> (lookup_entry (files w) (cwd w) = Some Dir
              /\ is_Some (files w !! (cwd w ++ [name]))
              /\ existsb (N.eqb 46) name = true
              /\ startswith name (str ".") = false).
Proof.
  rewrite list_result. eexists. split; [reflexivity|]. split.
  - apply NoDup_filter, listdir_cwd_NoDup.
  - intros name. rewrite list_elem_of_filter. unfold matches_star_dot_star.
    rewrite andb_true_iff, negb_true_iff. split.
    + intros [[Hhidden Hdot] Hin]. apply listdir_cwd_inv in Hin as [Hdir Hsome].
      repeat split; assumption.
    + intros (Hdir & [e He] & Hdot & Hhidden). split; [split; assumption|].
      apply (listdir_cwd_elem w name e); assumption.
Qed.

(** ** Storing *)

(** Uploading the same bytes a second time changes nothing in the file
    system. *)
Theorem upload_twice_same_store temp1 rest1 temp2 rest2 w B n1 w1 n2 w2 :
  fst (open_read temp1 w) = Ok B ->
  FileInterface_upload (temp1 :: rest1) w = (Ok (upload_ok n1), w1) ->
  fst (open_read temp2 w1) = Ok B ->
  FileInterface_upload (temp2 :: rest2) w1 = (Ok (upload_ok n2), w2) ->
  files w2 = files w1.
Proof.
  intros Hread1 Hup1 Hread2 Hup2.
  destruct (upload_stored _ _ _ _ _ _ Hread1 Hup1)
    as (Hn1 & Hcwd1 & _ & Hfiles1).
  destruct (upload_stored _ _ _ _ _ _ Hread2 Hup2)
    as (Hn2 & _ & _ & Hfiles2).
  rewrite Hfiles2. apply insert_id.
  rewrite Hfiles1, Hcwd1, Hn2, <- Hn1. apply lookup_insert_eq.
Qed.

(** An [upload] that answers OK has written one entry, directly in the
    working directory, under a name of 32 lower-case hexadecimal digits
    followed by one of the six known extensions or by nothing; every other
    entry, the temporary file included, is as before. *)
Theorem upload_writes_one_entry temp rest w B n w1 :
  fst (open_read temp w) = Ok B ->
  FileInterface_upload (temp :: rest) w = (Ok (upload_ok n), w1) ->
  (exists digits extension,
     n = digits ++ extension
     /\ length digits = 32%nat
     /\ Forall (fun c => is_lower_hex c = true) digits
     /\ (extension = [] \/ extension ∈ known_extensions))
  /\ files w1 !! (cwd w ++ [n]) = Some (File B)
  /\ (forall q, q <> cwd w ++ [n] -> files w1 !! q = files w !! q)
  /\ cwd w1 = cwd w.
Proof.
  intros Hread Hup.
  destruct (upload_stored _ _ _ _ _ _ Hread Hup) as (Hn & Hcwd & _ & Hfiles).
  split; [|split; [|split]].
  - exists (MD5.hexdigest B), (detect_file_type B).
    split; [exact Hn|]. split; [apply hexdigest_length|].
    split; [apply hexdigest_hex|apply detect_file_type_cases].
  - rewrite Hfiles. apply lookup_insert_eq.
  - intros q Hq. rewrite Hfiles. apply lookup_insert_ne. congruence.
  - exact Hcwd.
Qed.

(** [upload] never raises.  When it answers something else than OK, the
    file system is as it was, unless the write to the disk failed: the
    entry under the canonical name had been created, or cut to nothing,
    when the file was opened, and it now holds what the disk took, a
    prefix of the content; every other entry is as it was.  On a disk
    that takes every write an answer other than OK leaves the file
    system as it was. *)
Theorem upload_failure_stores_at_most_a_prefix params w :
  exists answer,
    fst (FileInterface_upload params w) = Ok answer
    /\ ((forall n, answer <> upload_ok n) ->
        files (snd (FileInterface_upload params w)) = files w
        \/ exists temp rest B k errno strerror later,
             params = temp :: rest
             /\ fst (open_read temp w) = Ok B
             /\ B <> []
             /\ disk w = WriteFails k errno strerror :: later
             /\ answer = error_dict (OSError errno strerror None)
             /\ files (snd (FileInterface_upload params w))
                = <[cwd w ++ [canonical_name B] := File (firstn k B)]>
                    (files w))
    /\ (disk w = [] ->
        (forall n, answer <> upload_ok n) ->
        files (snd (FileInterface_upload params w)) = files w).
Proof.
  destruct params as [|temp rest].
  - eexists. split; [reflexivity|]. split; [left; reflexivity|reflexivity].
  - pose proof (open_read_world temp w) as Hworld.
    destruct (open_read temp w) as [[B|e] w0] eqn:Hread; cbn [snd] in Hworld.
    + assert (Hfst : fst (open_read temp w) = Ok B)
        by (rewrite Hread; reflexivity).
      rewrite (upload_result temp rest w B Hfst). cbn zeta.
      destruct (lookup_entry (files w) (cwd w)) as [[c|]|];
        try (eexists; split; [reflexivity|];
             split; [left; reflexivity|reflexivity]).
      assert (Hstore :
        let w' := log (EvOpen (canonical_name B) (str "wb"))
                      (log (EvOpen temp (str "rb")) w) in
        let out :=
          match B with
          | [] =>
            (Ok (upload_ok (canonical_name B)),
             set_files (<[cwd w ++ [canonical_name B] := File []]> (files w))
                       w')
          | _ =>
            match next_write w' with
            | (WriteAll, w'') =>
              (Ok (upload_ok (canonical_name B)),
               set_files
                 (<[cwd w ++ [canonical_name B] := File B]> (files w'')) w'')
            | (WriteFails k errno strerror, w'') =>
              (Ok (error_dict (OSError errno strerror None)),
               set_files
                 (<[cwd w ++ [canonical_name B] := File (firstn k B)]>
                    (files w'')) w'')
            end
          end in
        exists answer,
          fst out = Ok answer
          /\ ((forall n, answer <> upload_ok n) ->
              files (snd out) = files w
              \/ exists temp0 rest0 B0 k errno strerror later,
                   temp :: rest = temp0 :: rest0
                   /\ fst (open_read temp0 w) = Ok B0
                   /\ B0 <> []
                   /\ disk w = WriteFails k errno strerror :: later
                   /\ answer = error_dict (OSError errno strerror None)
                   /\ files (snd out)
                      = <[cwd w ++ [canonical_name B0] := File (firstn k B0)]>
                          (files w))
          /\ (disk w = [] ->
              (forall n, answer <> upload_ok n) ->
              files (snd out) = files w)).
      { cbn zeta. destruct B as [|b B'].
        - eexists. split; [reflexivity|].
          split; [intros Hno|intros _ Hno];
            exfalso; eapply Hno; reflexivity.
        - unfold next_write. cbn [disk log].
          destruct (disk w) as [|[|k errno strerror] later] eqn:Hdisk.
          + eexists. split; [reflexivity|].
            split; [intros Hno|intros _ Hno];
              exfalso; eapply Hno; reflexivity.
          + eexists. split; [reflexivity|].
            split; [intros Hno|intros _ Hno];
              exfalso; eapply Hno; reflexivity.
          + eexists. split; [reflexivity|].
            split; [|discriminate].
            intros _. right.
            exists temp, rest, (b :: B'), k, errno, strerror, later.
            repeat split; try assumption. discriminate. }
      cbn zeta in Hstore.
      destruct (lookup_entry (files w) (cwd w ++ [canonical_name B]))
        as [[c|]|]; try exact Hstore.
      eexists. split; [reflexivity|].
      split; [left; reflexivity|reflexivity].
    + unfold FileInterface_upload, params_0. unfold_st. rewrite Hread.
      eexists. split; [reflexivity|]. cbn [snd]. subst w0.
      split; [left; reflexivity|reflexivity].
Qed.

(** The small installation with a full disk: [upload] of the two
    bytes of [hi] answers with the ERROR envelope of the failed write
    and leaves an empty entry under the canonical name. *)
Lemma upload_on_full_disk :
  fst (FileInterface_upload [str "/tmp/u1"]
         (set_disk [WriteFails 0 28 (str "No space left on device")]
                   example_uploads))
  = Ok (PDict [(str "status", PStr (str "ERROR"));
               (str "data", PStr (str "[Errno 28] No space left on device"))])
  /\ files (snd (FileInterface_upload [str "/tmp/u1"]
                   (set_disk [WriteFails 0 28 (str "No space left on device")]
                             example_uploads)))
     = <[ [str "srv"; str "files"; str "49f68a5c8493ec2c0bf489821c21fc3b"]
          := File [] ]> (files example_uploads).
Proof.
  split; vm_compute; reflexivity.
Qed.

(** ** Type detection *)

Lemma bytes_startswith_firstn n data pre :
  (length pre <= n)%nat ->
  bytes_startswith (firstn n data) pre = bytes_startswith data pre.
Proof.
  revert n data. induction pre as [|p pre IH]; intros n data Hlen;
    [destruct n, data; reflexivity|].
  destruct n as [|n]; [simpl in Hlen; lia|].
  destruct data as [|b data]; [reflexivity|].
  cbn [firstn bytes_startswith]. rewrite IH by (simpl in Hlen; lia).
  reflexivity.
Qed.

Lemma detect_file_type_header file_bytes :
  detect_file_type file_bytes = detect_file_type (firstn 8 file_bytes).
Proof.
  unfold detect_file_type.
  assert (Htake : firstn 16 (firstn 8 file_bytes) = firstn 8 file_bytes)
    by (rewrite firstn_firstn; reflexivity).
  rewrite Htake.
  assert (Htwo : forall n, (2 <= n)%nat ->
                           firstn 2 (firstn n file_bytes) = firstn 2 file_bytes).
  { intros n Hn. rewrite firstn_firstn. f_equal. lia. }
  rewrite !Htwo by lia.
  rewrite !(bytes_startswith_firstn 16) by (vm_compute; lia).
  rewrite !(bytes_startswith_firstn 8) by (vm_compute; lia). reflexivity.
Qed.

(** The extension depends on the first eight bytes only: two contents
    that agree there get the same extension. *)
Theorem detect_file_type_reads_eight_bytes a b :
  firstn 8 a = firstn 8 b -> detect_file_type a = detect_file_type b.
Proof.
  intros Hhead.
  rewrite (detect_file_type_header a), (detect_file_type_header b), Hhead.
  reflexivity.
Qed.

(** * Further properties of the connection handler *)

(** ** What the handler adds to its log *)

(** The computation only appends to the log, and what it appends
    satisfies [P]. *)
Definition appends (P : hevent -> Prop) {A} (m : H A) : Prop :=
  forall h, exists l, hlog (snd (m h)) = hlog h ++ l /\ Forall P l.

Section Appends.

Variable P : hevent -> Prop.

Lemma appends_nothing {A} (m : H A) :
  (forall h, hlog (snd (m h)) = hlog h) -> appends P m.
Proof.
  intros Hm h. exists []. rewrite Hm, app_nil_r. split; [reflexivity|].
  constructor.
Qed.

Lemma appends_ret {A} (a : A) : appends P (ret a).
Proof. apply appends_nothing. reflexivity. Qed.

Lemma appends_raise {A} e : appends P (raise (A := A) e).
Proof. apply appends_nothing. reflexivity. Qed.

Lemma appends_pure {A} (r : res A) : appends P (fun h => (r, h)).
Proof. apply appends_nothing. reflexivity. Qed.

Lemma appends_get_session : appends P get_session.
Proof. apply appends_nothing. reflexivity. Qed.

Lemma appends_modify f : appends P (modify_session f).
Proof. apply appends_nothing. reflexivity. Qed.

Lemma appends_lift {A} (m : M A) : appends P (lift m).
Proof.
  apply appends_nothing. intros h. unfold lift.
  destruct (m (env h)) as [r w]. reflexivity.
Qed.

Lemma appends_on_temp_file method f : appends P (on_temp_file method f).
Proof.
  apply appends_nothing. intros h. unfold on_temp_file.
  destruct (method f (env h)) as [[r f'] w']. reflexivity.
Qed.

Lemma appends_note e : P e -> appends P (note e).
Proof.
  intros He h. exists [e]. split; [reflexivity|]. repeat constructor.
  exact He.
Qed.

Lemma appends_bind {A B} (m : H A) (k : A -> H B) :
  appends P m -> (forall a, appends P (k a)) -> appends P (bind m k).
Proof.
  intros Hm Hk h. unfold bind. destruct (Hm h) as (l & Hl & HP).
  destruct (m h) as [[a|e] h1]; cbn [snd] in *.
  - destruct (Hk a h1) as (l' & Hl' & HP'). exists (l ++ l').
    rewrite Hl', Hl, app_assoc. split; [reflexivity|].
    apply Forall_app. split; assumption.
  - exists l. split; assumption.
Qed.

Lemma appends_try_except {A} (m : H A) (handler : exn -> H A) :
  appends P m -> (forall e, appends P (handler e)) ->
  appends P (try_except m handler).
Proof.
  intros Hm Hk h. unfold try_except. destruct (Hm h) as (l & Hl & HP).
  destruct (m h) as [[a|e] h1]; cbn [snd] in *.
  - exists l. split; assumption.
  - destruct (Hk e h1) as (l' & Hl' & HP'). exists (l ++ l').
    rewrite Hl', Hl, app_assoc. split; [reflexivity|].
    apply Forall_app. split; assumption.
Qed.

Lemma appends_try_finally {A} (m : H A) (f : H unit) :
  appends P m -> appends P f -> appends P (try_finally m f).
Proof.
  intros Hm Hf h. unfold try_finally. destruct (Hm h) as (l & Hl & HP).
  destruct (m h) as [r h1]. cbn [snd] in *.
  destruct (Hf h1) as (l' & Hl' & HP').
  destruct (f h1) as [[u|e] h2]; cbn [snd] in *; exists (l ++ l');
    rewrite Hl', Hl, app_assoc; (split; [reflexivity|]);
    apply Forall_app; split; assumption.
Qed.

End Appends.

Ltac appends_step :=
  repeat first
    [ assumption
    | apply appends_ret | apply appends_raise | apply appends_pure
    | apply appends_get_session | apply appends_modify | apply appends_lift
    | apply appends_on_temp_file
    | match goal with
      | H : forall x, appends _ (?f x) |- appends _ (?f _) => apply H
      | H : forall x y, appends _ (?f x y) |- appends _ (?f _ _) => apply H
      end
    | apply appends_bind; [|intros ?]
    | apply appends_try_finally
    | apply appends_try_except; [|intros ?]
    | match goal with
      | |- appends _ (if ?b then _ else _) => destruct b
      | |- appends _ (match ?x with _ => _ end) => destruct x
      end ].

(** An event of the loops: a payload that ends with the terminator, a
    dispatch or a write, but not the closing of the socket. *)
Definition loop_event (e : hevent) : Prop :=
  match e with
  | HSend payload => exists message, payload = message ++ terminator
  | HConnClose => False
  | _ => True
  end.

Section LoopEvents.

Variable TMP_DIR : pystr.
Variable proses : pystr -> M pystr.

Lemma appends_send message : appends loop_event (_send_response message).
Proof.
  unfold _send_response. apply appends_note. exists message. reflexivity.
Qed.

Lemma appends_close : appends loop_event temp_file_close.
Proof. unfold temp_file_close. appends_step. Qed.

Lemma appends_write data : appends loop_event (temp_file_write data).
Proof.
  unfold temp_file_write. appends_step. apply appends_note. exact I.
Qed.

Lemma appends_dispatch line : appends loop_event (dispatch proses line).
Proof.
  unfold dispatch. appends_step. apply appends_note. exact I.
Qed.

Lemma appends_handle_line line :
  appends loop_event (handle_line TMP_DIR proses line).
Proof.
  pose proof appends_send. pose proof appends_close.
  pose proof appends_write. pose proof appends_dispatch.
  unfold handle_line. appends_step.
Qed.

Lemma appends_frames_loop n :
  appends loop_event (frames_loop TMP_DIR proses n).
Proof.
  pose proof appends_handle_line.
  induction n as [|n IH]; cbn [frames_loop]; appends_step.
Qed.

Lemma appends_recv_loop input :
  appends loop_event (recv_loop TMP_DIR proses input).
Proof.
  pose proof appends_frames_loop.
  induction input as [|[[|b data]|e] input IH]; cbn [recv_loop];
    unfold on_data; appends_step.
Qed.

End LoopEvents.

Lemma appends_weaken (P Q : hevent -> Prop) {A} (m : H A) :
  (forall e, P e -> Q e) -> appends P m -> appends Q m.
Proof.
  intros HPQ Hm h. destruct (Hm h) as (l & Hl & HP). exists l.
  split; [exact Hl|]. eapply Forall_impl; [exact HP|exact HPQ].
Qed.

Lemma bind_silent {A B} (m : H A) (k : A -> H B) h :
  appends (fun _ => False) m ->
  exists r h1,
    hlog h1 = hlog h
    /\ bind m k h = match r with
                    | Ok a => k a h1
                    | Raise e => (Raise e, h1)
                    end.
Proof.
  intros Hm. destruct (Hm h) as (l & Hl & HF). unfold bind.
  destruct (m h) as [r h1]. cbn [snd] in Hl. exists r, h1.
  destruct l as [|e l]; [|inversion HF; contradiction].
  rewrite app_nil_r in Hl. split; [exact Hl|]. destruct r; reflexivity.
Qed.

(** The [finally] clause writes nothing to the log but the closing of the
    socket, and that only when it gets that far. *)
Lemma cleanup_log h :
  hlog (snd (cleanup h))
  = hlog h ++ match fst (cleanup h) with
              | Ok _ => [HConnClose]
              | Raise _ => []
              end.
Proof.
  assert (Hc : exists r h',
             cleanup h = (r, h')
             /\ hlog h' = hlog h ++ match r with
                                    | Ok _ => [HConnClose]
                                    | Raise _ => []
                                    end).
  { unfold cleanup. unfold bind at 1, get_session at 1.
    match goal with
    | |- context [bind ?m ?k h] =>
      destruct (bind_silent m k h) as (r1 & h1 & Hl1 & ->)
    end.
    { unfold temp_file_close. appends_step. }
    destruct r1 as [u1|e1].
    - match goal with
      | |- context [bind ?m ?k h1] =>
        destruct (bind_silent m k h1) as (r2 & h2 & Hl2 & ->)
      end.
      { appends_step. }
      destruct r2 as [u2|e2]; eexists _, _; (split; [reflexivity|]);
        cbn [hlog]; rewrite Hl2, Hl1, ?app_nil_r; reflexivity.
    - eexists _, _. split; [reflexivity|]. rewrite Hl1, app_nil_r.
      reflexivity. }
  destruct Hc as (r & h' & -> & Hlog). exact Hlog.
Qed.

Section RunLog.

Variable TMP_DIR : pystr.
Variable proses : pystr -> M pystr.

(** The log of a whole [run]: what the loops and the [except] clause
    did, in which the socket is never closed and every payload ends with
    the terminator, followed by the closing of the socket when the
    [finally] clause came to its end. *)
Lemma run_log input w :
  exists l,
    Forall loop_event l
    /\ hlog (snd (run TMP_DIR proses input w))
       = l ++ match fst (run TMP_DIR proses input w) with
              | Ok _ => [HConnClose]
              | Raise _ => []
              end.
Proof.
  unfold run, guarded.
  set (h0 := mkH initial_session w []).
  assert (Hbody : appends loop_event
                    (try_except (recv_loop TMP_DIR proses input)
                                on_exception)).
  { apply appends_try_except; [apply appends_recv_loop|].
    intros e. apply appends_send. }
  destruct (Hbody h0) as (l & Hl & HP). exists l. split; [exact HP|].
  assert (Hr : exists h1,
             try_except (recv_loop TMP_DIR proses input) on_exception h0
             = (Ok tt, h1)).
  { unfold try_except.
    destruct (recv_loop TMP_DIR proses input h0) as [[[]|e] hb];
      eexists; reflexivity. }
  destruct Hr as [h1 Hr]. unfold try_finally. rewrite Hr in Hl |- *.
  cbn [snd] in Hl. pose proof (cleanup_log h1) as Hclean.
  destruct (cleanup h1) as [[u|e] h2]; cbn [fst snd] in *;
    rewrite Hclean, Hl; reflexivity.
Qed.

(** Every payload the handler passes to [sendall] ends with the
    terminator CR LF CR LF, the acknowledgment of UPLOAD and the error
    envelope included. *)
Theorem every_payload_is_terminated input w :
  Forall (fun payload => exists message, payload = message ++ terminator)
         (sent (snd (run TMP_DIR proses input w))).
Proof.
  destruct (run_log input w) as (l & HP & Hlog). unfold sent.
  rewrite Hlog, omap_app.
  apply Forall_app. split.
  - apply Forall_forall. intros payload Hin.
    apply list_elem_of_omap in Hin as (e & He & Hsend).
    rewrite Forall_forall in HP. apply HP in He.
    destruct e; try discriminate. injection Hsend as <-. exact He.
  - destruct (fst (run TMP_DIR proses input w)); constructor.
Qed.

(** When [run] returns normally, closing the socket is the last thing it
    did, and it did it once. *)
Theorem socket_closed_once_and_last input w :
  fst (run TMP_DIR proses input w) = Ok tt ->
  exists l,
    hlog (snd (run TMP_DIR proses input w)) = l ++ [HConnClose]
    /\ Forall (fun e => e <> HConnClose) l.
Proof.
  intros Hok. destruct (run_log input w) as (l & HP & Hlog).
  rewrite Hok in Hlog. exists l. split; [exact Hlog|].
  eapply Forall_impl; [exact HP|]. intros e He ->. exact He.
Qed.

End RunLog.

(** ** Delivery in pieces, for ASCII streams *)

Section Chunking.

Variable TMP_DIR : pystr.
Variable proses : pystr -> M pystr.

(** The body of the loop neither reads nor changes the buffer. *)
Lemma handle_line_buffer line b h :
  handle_line TMP_DIR proses line (with_buffer b h)
  = (fst (handle_line TMP_DIR proses line h),
     with_buffer b (snd (handle_line TMP_DIR proses line h))).
Proof.
  destruct (uploading (sess h)) eqn:Hmode.
  - destruct (decide (line = str "ENDUPLOAD")) as [->|Hline].
    + destruct (temp_file (sess h)) as [f|] eqn:Hfile.
      * rewrite (handle_endupload_frame TMP_DIR proses h f Hmode Hfile).
        rewrite (handle_endupload_frame TMP_DIR proses (with_buffer b h) f
                   Hmode Hfile).
        cbn [with_buffer sess env hlog temp_path set_buffer].
        destruct (file_close f (env h)) as [[[u|e] f'] w1]; [|reflexivity].
        destruct (proses _ w1) as [[response|e] w']; [|reflexivity].
        unfold after_store, _send_response. unfold_st.
        cbn [sess env hlog].
        destruct (os_remove (temp_path (sess h)) w') as [[u'|e] w2];
          reflexivity.
      * unfold handle_line, temp_file_close, with_buffer. unfold_st.
        cbn [sess env hlog uploading temp_file set_buffer].
        rewrite Hmode. rewrite bool_decide_eq_true_2 by reflexivity.
        cbn [sess env hlog uploading temp_file set_buffer].
        rewrite Hfile. reflexivity.
    + unfold handle_line, temp_file_write, on_temp_file, with_buffer.
      unfold_st.
      cbn [sess env hlog uploading temp_file set_buffer].
      rewrite Hmode. rewrite bool_decide_eq_false_2 by assumption.
      destruct (b64decode line) as [data|e]; [|reflexivity].
      cbn [sess env hlog uploading temp_file set_buffer].
      destruct (temp_file (sess h)) as [f|]; [|reflexivity].
      cbn [sess env hlog uploading temp_file set_buffer].
      destruct (file_write f data (env h)) as [[[u|e] f'] w']; reflexivity.
  - destruct (startswith line (str "UPLOAD")) eqn:Hpre.
    + rewrite !handle_upload_frame by assumption.
      cbn [with_buffer sess env hlog].
      destruct (NamedTemporaryFile TMP_DIR (env h)) as [[f|e] w'];
        reflexivity.
    + rewrite !handle_command_frame by assumption.
      cbn [with_buffer sess env hlog].
      destruct (proses line (env h)) as [[response|e] w']; reflexivity.
Qed.

End Chunking.

(** The complete lines of a text, in order, and what follows its last
    newline. *)
Fixpoint split_lines (s : pystr) : list pystr * pystr :=
  match s with
  | [] => ([], [])
  | c :: r =>
    let '(ls, rest) := split_lines r in
    if c =? 10 then ([] :: ls, rest)
    else match ls with
         | [] => ([], c :: rest)
         | l :: ls' => ((c :: l) :: ls', rest)
         end
  end.

Lemma split_lines_no_newline s :
  split_newline s = None -> split_lines s = ([], s).
Proof.
  induction s as [|c s IH]; [reflexivity|]. cbn [split_newline split_lines].
  destruct (c =? 10); [discriminate|].
  destruct (split_newline s) as [[l r]|]; [discriminate|].
  intros _. rewrite IH by reflexivity. reflexivity.
Qed.

Lemma split_lines_first s line rest :
  split_newline s = Some (line, rest) ->
  split_lines s = (line :: fst (split_lines rest), snd (split_lines rest))
  /\ (length rest < length s)%nat.
Proof.
  revert line rest. induction s as [|c s IH]; intros line rest;
    [discriminate|].
  cbn [split_newline split_lines]. destruct (c =? 10).
  - intros [= <- <-]. destruct (split_lines s) as [ls r]. split;
      [reflexivity|simpl; lia].
  - destruct (split_newline s) as [[l r]|] eqn:Hs; [|discriminate].
    intros [= <- <-]. destruct (IH l r eq_refl) as [Hlines Hlen].
    rewrite Hlines. split; [reflexivity|simpl; lia].
Qed.

Lemma split_lines_rest s : split_newline (snd (split_lines s)) = None.
Proof.
  induction s as [|c s IH]; [reflexivity|]. cbn [split_lines].
  destruct (split_lines s) as [ls rest]. cbn [snd] in IH.
  destruct (c =? 10) eqn:Hc; [exact IH|].
  destruct ls as [|l ls]; [|exact IH].
  cbn [snd split_newline]. rewrite Hc, IH. reflexivity.
Qed.

Lemma split_lines_app a b :
  split_lines (a ++ b)
  = (fst (split_lines a) ++ fst (split_lines (snd (split_lines a) ++ b)),
     snd (split_lines (snd (split_lines a) ++ b))).
Proof.
  induction a as [|c a IH].
  - cbn [app split_lines fst snd]. destruct (split_lines b); reflexivity.
  - cbn [app split_lines]. rewrite IH.
    destruct (split_lines a) as [la ra]. cbn [fst snd].
    destruct (c =? 10) eqn:Hc; [reflexivity|].
    destruct la as [|l la]; cbn [fst snd app split_lines].
    + destruct (split_lines (ra ++ b)) as [lb rb]. rewrite Hc.
      cbn [fst snd]. destruct lb; reflexivity.
    + reflexivity.
Qed.

Section Lines.

Variable TMP_DIR : pystr.
Variable proses : pystr -> M pystr.

(** The lines handled one after the other, up to the first exception. *)
Fixpoint handle_lines (lines : list pystr) : H unit :=
  match lines with
  | [] => ret tt
  | line :: lines' =>
    let* _ := handle_line TMP_DIR proses (strip line) in
    handle_lines lines'
  end.

Lemma handle_lines_app l1 l2 h :
  handle_lines (l1 ++ l2) h
  = (let* _ := handle_lines l1 in handle_lines l2) h.
Proof.
  revert h. induction l1 as [|l l1 IH]; intros h; [reflexivity|].
  cbn [app handle_lines]. unfold bind.
  destruct (handle_line TMP_DIR proses (strip l) h) as [[u|e] h1];
    [|reflexivity].
  rewrite IH. reflexivity.
Qed.

(** The inner loop with enough fuel handles the complete lines of the
    buffer in order; when no exception stops it, what follows the last
    newline is left in the buffer. *)
Lemma frames_loop_lines n :
  forall x h,
    (length x <= n)%nat ->
    exists b',
      frames_loop TMP_DIR proses n (with_buffer x h)
      = (fst (handle_lines (fst (split_lines x)) h),
         with_buffer b' (snd (handle_lines (fst (split_lines x)) h)))
      /\ (is_ok (fst (handle_lines (fst (split_lines x)) h)) = true ->
          b' = snd (split_lines x)).
Proof.
  induction n as [|n IH]; intros x h Hlen.
  - destruct x; [|simpl in Hlen; lia]. exists []. split; reflexivity.
  - destruct (split_newline x) as [[line rest]|] eqn:Hnl.
    + destruct (split_lines_first x line rest Hnl) as [Hlines Hshort].
      rewrite (frames_loop_step TMP_DIR proses n (with_buffer x h) line rest)
        by exact Hnl.
      change (with_buffer rest (with_buffer x h)) with (with_buffer rest h).
      rewrite handle_line_buffer, Hlines. cbn [fst snd handle_lines].
      unfold bind.
      destruct (handle_line TMP_DIR proses (strip line) h) as [[u|e] h1];
        cbn [fst snd].
      * destruct (IH rest h1 ltac:(lia)) as (b' & Hrun & Hrest).
        exists b'. split; assumption.
      * exists rest. split; [reflexivity|discriminate].
    + rewrite frames_loop_done by exact Hnl.
      rewrite split_lines_no_newline by exact Hnl. cbn [fst snd handle_lines].
      exists x. split; reflexivity.
Qed.

(** The lines of a text and what follows its last newline make up the
    text, and no line holds a newline. *)
Lemma split_lines_join s :
  s = flat_map (fun l => l ++ [10]) (fst (split_lines s))
      ++ snd (split_lines s)
  /\ Forall (fun l => has_newline l = false) (fst (split_lines s)).
Proof.
  induction s as [|c s [IHjoin IHlines]]; [split; [reflexivity|constructor]|].
  cbn [split_lines]. destruct (split_lines s) as [ls rest].
  cbn [fst snd] in *. destruct (c =? 10) eqn:Hc.
  - apply N.eqb_eq in Hc. subst c. cbn [fst snd flat_map app]. split.
    + f_equal. exact IHjoin.
    + constructor; [reflexivity|exact IHlines].
  - destruct ls as [|l ls]; cbn [fst snd flat_map app] in *.
    + split; [f_equal; exact IHjoin|constructor].
    + split; [f_equal; exact IHjoin|].
      inversion IHlines as [|? ? Hl Hls]; subst. constructor; [|exact Hls].
      cbn [has_newline existsb]. rewrite (N.eqb_sym 10 c), Hc. exact Hl.
Qed.

Lemma split_newline_none s :
  split_newline s = None -> has_newline s = false.
Proof.
  induction s as [|c s IH]; [reflexivity|].
  cbn [split_newline has_newline existsb].
  rewrite (N.eqb_sym 10 c). destruct (c =? 10); [discriminate|].
  destruct (split_newline s) as [[l r]|]; [discriminate|].
  intros _. apply IH. reflexivity.
Qed.

(** After a [recv] whose data was handled without an exception, no
    complete frame is left unhandled.  The old buffer extended by the
    new text is a sequence of lines, each followed by a newline, and a
    rest without newline; the handler has handled these lines, stripped,
    one after the other and in this order, each without an exception,
    and the buffer now holds the rest and nothing else. *)
Theorem no_complete_frame_is_left data text h h' :
  bytes_decode data = Ok text ->
  on_data TMP_DIR proses data h = (Ok tt, h') ->
  exists lines rest hl,
    buffer (sess h) ++ text = flat_map (fun l => l ++ [10]) lines ++ rest
    /\ Forall (fun l => has_newline l = false) lines
    /\ has_newline rest = false
    /\ handle_lines lines h = (Ok tt, hl)
    /\ h' = with_buffer rest hl
    /\ buffer (sess h') = rest.
Proof.
  intros Hdec Hrun. rewrite (on_data_decoded _ _ _ text _ Hdec) in Hrun.
  destruct (frames_loop_lines (length (buffer (sess h) ++ text))
              (buffer (sess h) ++ text) h (le_n _)) as (b' & Hloop & Hrest).
  rewrite Hloop in Hrun. injection Hrun as Hok Hh'. subst h'.
  rewrite Hok in Hrest. specialize (Hrest eq_refl). subst b'.
  destruct (split_lines_join (buffer (sess h) ++ text)) as [Hjoin Hlines].
  exists (fst (split_lines (buffer (sess h) ++ text))),
    (snd (split_lines (buffer (sess h) ++ text))),
    (snd (handle_lines (fst (split_lines (buffer (sess h) ++ text))) h)).
  split; [exact Hjoin|]. split; [exact Hlines|].
  split; [apply split_newline_none, split_lines_rest|].
  split; [|split; reflexivity].
  rewrite <- Hok. apply surjective_pairing.
Qed.

End Lines.

(** Bytes below 128 decode to themselves. *)
Definition ascii_bytes (data : pybytes) : bool :=
  forallb (fun b => Byte.to_N b <? 128) data.

Lemma utf8_decode_ascii data :
  ascii_bytes data = true ->
  forall pos, utf8_decode_from pos data = Ok (map Byte.to_N data).
Proof.
  induction data as [|b data IH]; intros Hascii pos; [reflexivity|].
  apply andb_prop in Hascii as [Hb Hdata].
  cbn [utf8_decode_from map].
  change (Byte.to_N b <? 128) with (Byte.to_N b <? 128) in Hb.
  replace (Byte.to_N b <? 128) with true by (symmetry; exact Hb).
  rewrite (IH Hdata). reflexivity.
Qed.

Lemma bytes_decode_ascii data :
  ascii_bytes data = true -> bytes_decode data = Ok (map Byte.to_N data).
Proof. intros Hascii. apply utf8_decode_ascii. exact Hascii. Qed.

Lemma res_map_app_cons c t (r : res pystr) :
  res_map (cons c) (res_map (app t) r) = res_map (app (c :: t)) r.
Proof. destruct r; reflexivity. Qed.

Ltac decode_cases :=
  repeat match goal with
  | H : decode_error _ _ _ _ = Ok _ |- _ => discriminate H
  | H : context [if ?c then _ else _] |- _ => destruct c eqn:?
  | H : context [match ?l with [] => _ | _ :: _ => _ end] |- _ =>
    is_var l; destruct l; cbn [app length] in *
  end.

(** Bytes that decode on their own decode to the same text in front of
    any other bytes, at any offset. *)
Lemma utf8_decode_app n :
  forall a pos pos' ta b,
    (length a <= n)%nat ->
    utf8_decode_from pos a = Ok ta ->
    utf8_decode_from pos' (a ++ b)
    = res_map (app ta) (utf8_decode_from (pos' + length a) b).
Proof.
  induction n as [|n IH]; intros a pos pos' ta b Hlen Hdec.
  - destruct a; [|simpl in Hlen; lia]. injection Hdec as <-.
    cbn [app length]. rewrite Nat.add_0_r.
    destruct (utf8_decode_from pos' b); reflexivity.
  - destruct a as [|b0 a].
    { injection Hdec as <-. cbn [app length]. rewrite Nat.add_0_r.
      destruct (utf8_decode_from pos' b); reflexivity. }
    cbn [app length] in *. cbn [utf8_decode_from] in Hdec |- *.
    decode_cases;
      match type of Hdec with
      | res_map _ (utf8_decode_from ?p ?r) = Ok _ =>
        destruct (utf8_decode_from p r) as [t|] eqn:Hrec; [|discriminate];
        injection Hdec as <-;
        rewrite (IH r p _ t b ltac:(lia) Hrec), res_map_app_cons;
        f_equal; f_equal; lia
      end.
Qed.

Lemma bytes_decode_app a ta b tb :
  bytes_decode a = Ok ta -> bytes_decode b = Ok tb ->
  bytes_decode (a ++ b) = Ok (ta ++ tb).
Proof.
  intros Ha Hb. unfold bytes_decode in *.
  rewrite (utf8_decode_app (length a) a 0%nat 0%nat ta b (le_n _) Ha).
  rewrite <- (app_nil_r b).
  rewrite (utf8_decode_app (length b) b 0%nat _ tb [] (le_n _) Hb).
  cbn [utf8_decode_from res_map res_bind]. rewrite app_nil_r. reflexivity.
Qed.

Section Chunks.

Variable TMP_DIR : pystr.
Variable proses : pystr -> M pystr.

(** The [except] and [finally] clauses after a body that ended with
    result [r] in state [h]. *)
Definition finish (r : res unit) (h : hstate) : res unit * hstate :=
  guarded (fun _ => (r, h)) h.

Lemma guarded_finish body r h h' :
  body h = (r, h') -> guarded body h = finish r h'.
Proof.
  intros Hbody. unfold finish, guarded, try_finally, try_except.
  rewrite Hbody. reflexivity.
Qed.

Lemma cleanup_buffer b h :
  cleanup (with_buffer b h)
  = (fst (cleanup h), with_buffer b (snd (cleanup h))).
Proof.
  unfold cleanup, temp_file_close, on_temp_file, with_buffer. unfold_st.
  cbn [sess env hlog temp_file temp_path set_buffer].
  destruct (temp_file (sess h)) as [f|] eqn:Hfile;
    [destruct (closed f)|];
    cbn [sess env hlog temp_file temp_path set_buffer];
    rewrite ?Hfile;
    cbn [sess env hlog temp_file temp_path set_buffer set_temp_file];
    try (destruct (file_close f (env h)) as [[[v|e0] f'] w0];
         [|reflexivity]);
    cbn [sess env hlog temp_file temp_path set_buffer set_temp_file];
    destruct (bool_decide (temp_path (sess h) = [])); try reflexivity;
    cbn [sess env hlog temp_file temp_path set_buffer];
    destruct (os_path_exists (temp_path (sess h)) _)
      as [[[|]|e] w']; try reflexivity;
    cbn [sess env hlog temp_file temp_path set_buffer];
    destruct (os_remove (temp_path (sess h)) w') as [[u|e'] w2];
    reflexivity.
Qed.

Lemma finish_buffer r b h :
  finish r (with_buffer b h)
  = (fst (finish r h), with_buffer b (snd (finish r h))).
Proof.
  unfold finish, guarded, try_finally, try_except.
  destruct r as [u|e].
  - rewrite cleanup_buffer. destruct (cleanup h) as [[v|e] h1]; reflexivity.
  - unfold on_exception, _send_response, note.
    change (mkH (sess (with_buffer b h)) (env (with_buffer b h))
                (hlog (with_buffer b h) ++ [HSend (error_msg e ++ terminator)]))
      with (with_buffer b
              (mkH (sess h) (env h)
                   (hlog h ++ [HSend (error_msg e ++ terminator)]))).
    rewrite cleanup_buffer.
    destruct (cleanup _) as [[v|e'] h1]; reflexivity.
Qed.

(** Chunks that are not empty and hold whole characters, with their
    texts. *)
Definition decoded (chunk : pybytes) (text : pystr) : Prop :=
  chunk <> [] /\ bytes_decode chunk = Ok text.

(** The outer loop over such chunks handles the complete lines of the
    received text in order; what the chunks were does not matter. *)
Lemma recv_loop_lines chunks texts :
  Forall2 decoded chunks texts ->
  forall x h tail,
    split_newline x = None ->
    match fst (handle_lines TMP_DIR proses
                 (fst (split_lines (x ++ concat texts))) h) with
    | Ok _ =>
      recv_loop TMP_DIR proses (map Data chunks ++ tail) (with_buffer x h)
      = recv_loop TMP_DIR proses tail
          (with_buffer (snd (split_lines (x ++ concat texts)))
             (snd (handle_lines TMP_DIR proses
                     (fst (split_lines (x ++ concat texts))) h)))
    | Raise e =>
      exists b',
        recv_loop TMP_DIR proses (map Data chunks ++ tail) (with_buffer x h)
        = (Raise e,
           with_buffer b'
             (snd (handle_lines TMP_DIR proses
                     (fst (split_lines (x ++ concat texts))) h)))
    end.
Proof.
  induction 1 as [|chunk text chunks texts [Hne Hdec] Hrest IH];
    intros x h tail Hx.
  - cbn [concat map app]. rewrite app_nil_r.
    rewrite split_lines_no_newline by exact Hx. reflexivity.
  - cbn [concat map app]. rewrite app_assoc, split_lines_app.
    cbn [fst snd]. rewrite handle_lines_app. unfold bind.
    destruct chunk as [|c chunk]; [contradiction|].
    rewrite recv_loop_data, (on_data_decoded _ _ _ text _ Hdec).
    change (buffer (sess (with_buffer x h))) with x.
    change (with_buffer (x ++ text) (with_buffer x h))
      with (with_buffer (x ++ text) h).
    destruct (frames_loop_lines TMP_DIR proses (length (x ++ text))
                (x ++ text) h (le_n _)) as (b' & Hloop & Hb').
    rewrite Hloop.
    destruct (handle_lines TMP_DIR proses (fst (split_lines (x ++ text))) h)
      as [[u|e] h1]; cbn [fst snd] in *.
    + rewrite (Hb' eq_refl).
      exact (IH (snd (split_lines (x ++ text))) h1 tail
                (split_lines_rest (x ++ text))).
    + exists b'. reflexivity.
Qed.

Lemma run_depends_on_text chunks1 texts1 chunks2 texts2 tail w :
  Forall2 decoded chunks1 texts1 ->
  Forall2 decoded chunks2 texts2 ->
  concat texts1 = concat texts2 ->
  fst (run TMP_DIR proses (map Data chunks1 ++ tail) w)
  = fst (run TMP_DIR proses (map Data chunks2 ++ tail) w)
  /\ exists b,
       snd (run TMP_DIR proses (map Data chunks1 ++ tail) w)
       = with_buffer b (snd (run TMP_DIR proses (map Data chunks2 ++ tail) w)).
Proof.
  intros H1 H2 Htext. unfold run.
  set (h0 := mkH initial_session w []).
  pose proof (recv_loop_lines chunks1 texts1 H1 [] h0 tail eq_refl) as R1.
  pose proof (recv_loop_lines chunks2 texts2 H2 [] h0 tail eq_refl) as R2.
  change (with_buffer [] h0) with h0 in R1, R2.
  rewrite <- Htext in R2.
  destruct (handle_lines TMP_DIR proses
              (fst (split_lines ([] ++ concat texts1))) h0) as [[u|e] h1];
    cbn [fst snd] in R1, R2.
  - unfold guarded, try_finally, try_except. rewrite R1, R2.
    split; [reflexivity|].
    match goal with
    | |- exists b, snd ?t = _ => destruct t as [r h2]
    end.
    exists (buffer (sess h2)). destruct h2 as [[? ? ? ?] ? ?]. reflexivity.
  - destruct R1 as (b1 & R1), R2 as (b2 & R2).
    rewrite (guarded_finish _ _ _ _ R1), (guarded_finish _ _ _ _ R2).
    rewrite !finish_buffer. cbn [fst snd]. split; [reflexivity|].
    exists b1. destruct (snd (finish (Raise e) h1)) as [[? ? ? ?] ? ?].
    reflexivity.
Qed.

(** A piece of the byte stream that is not empty and holds whole
    characters. *)
Definition whole_chunk (chunk : pybytes) : Prop :=
  chunk <> [] /\ is_ok (bytes_decode chunk) = true.

Lemma whole_chunks_decoded chunks :
  Forall whole_chunk chunks ->
  exists texts,
    Forall2 decoded chunks texts
    /\ bytes_decode (concat chunks) = Ok (concat texts).
Proof.
  induction 1 as [|chunk chunks [Hne Hok] Hrest (texts & Hall & Hdec)].
  - exists []. split; [constructor|reflexivity].
  - destruct (bytes_decode chunk) as [text|e] eqn:Hchunk; [|discriminate].
    exists (text :: texts). split.
    + constructor; [split; assumption|exact Hall].
    + cbn [concat]. apply bytes_decode_app; assumption.
Qed.

(** The handler's view of a connection depends on the bytes received and
    not on how [recv] cut them into pieces: two deliveries of the same
    byte stream, each in non-empty pieces that hold whole characters,
    followed by the same end of the connection, give the same result,
    the same record of sends, dispatches and writes, the same process
    environment and the same session except for the buffer. *)
Theorem chunking_does_not_matter chunks1 chunks2 tail w :
  Forall whole_chunk chunks1 ->
  Forall whole_chunk chunks2 ->
  concat chunks1 = concat chunks2 ->
  fst (run TMP_DIR proses (map Data chunks1 ++ tail) w)
  = fst (run TMP_DIR proses (map Data chunks2 ++ tail) w)
  /\ exists b,
       snd (run TMP_DIR proses (map Data chunks1 ++ tail) w)
       = with_buffer b (snd (run TMP_DIR proses (map Data chunks2 ++ tail) w)).
Proof.
  intros H1 H2 Hstream.
  destruct (whole_chunks_decoded chunks1 H1) as (texts1 & Hall1 & Hdec1).
  destruct (whole_chunks_decoded chunks2 H2) as (texts2 & Hall2 & Hdec2).
  apply (run_depends_on_text chunks1 texts1 chunks2 texts2); try assumption.
  rewrite Hstream, Hdec2 in Hdec1. injection Hdec1 as ->. reflexivity.
Qed.

End Chunks.

(** ** What an upload writes

    As [upload_in_progress], with the data written so far: the temporary
    file [tp] and the buffer of its file object hold [content] between
    them, the file the beginning and the buffer the end. *)
Definition upload_holds (fs0 : gmap path entry) (tp : pystr)
    (content : pybytes) (h : hstate) : Prop :=
  uploading (sess h) = true
  /\ temp_path (sess h) = tp
  /\ exists f p on_disk,
       temp_file (sess h) = Some f
       /\ closed f = false
       /\ name f = tp
       /\ resolve (env h) tp = inl p
       /\ lookup_entry fs0 p = None
       /\ files (env h) = <[p := File on_disk]> fs0
       /\ disk (env h) = []
       /\ content = on_disk ++ pending f.

Lemma file_holds_read tp p content w :
  file_holds tp p content w ->
  p <> [] ->
  fst (open_read tp w) = Ok content.
Proof.
  intros (Hres & Hp & _) Hne.
  unfold open_read. unfold_st.
  change (resolve (log (EvOpen tp (str "rb")) w) tp) with (resolve w tp).
  rewrite Hres. cbn [files log].
  destruct p as [|c p]; [congruence|]. cbn [lookup_entry].
  rewrite Hp. reflexivity.
Qed.

(** Closing the file object of such an upload succeeds, and the file
    then holds all the data. *)
Lemma upload_holds_close fs0 tp content h :
  upload_holds fs0 tp content h ->
  exists f w1,
    temp_file (sess h) = Some f
    /\ closed f = false
    /\ temp_content f (env h) = Some content
    /\ file_close f (env h) = (Ok tt, mkTemp tp true [], w1)
    /\ fst (open_read tp w1) = Ok content.
Proof.
  intros (_ & _ & f & p & on_disk & Hfile & Hopen & Hname & Hres & Hfresh
          & Hfiles & Hdisk & ->).
  assert (Hw : file_holds (name f) p on_disk (env h)).
  { rewrite Hname. split; [exact Hres|]. split; [|exact Hdisk].
    rewrite Hfiles. apply lookup_insert_eq. }
  destruct (file_close_healthy p on_disk f (env h) Hopen Hw)
    as (w1 & Hclose & Hw1 & _).
  exists f, w1. rewrite <- Hname.
  split; [exact Hfile|]. split; [exact Hopen|].
  split; [apply (holds_temp_content f p); exact Hw|].
  split; [exact Hclose|].
  apply (file_holds_read (name f) p); [exact Hw1|].
  apply lookup_entry_fresh in Hfresh. apply Hfresh.
Qed.

Section Accumulate.

Variable TMP_DIR : pystr.
Variable proses : pystr -> M pystr.

Lemma upload_started h line f w' :
  uploading (sess h) = false ->
  startswith line (str "UPLOAD") = true ->
  disk (env h) = [] ->
  NamedTemporaryFile TMP_DIR (env h) = (Ok f, w') ->
  exists h1,
    handle_line TMP_DIR proses line h = (Ok tt, h1)
    /\ upload_holds (files (env h)) (name f) [] h1
    /\ hlog h1
       = hlog h ++ [HSend (str "READY TO RECEIVE FILE" ++ terminator)].
Proof.
  intros Hmode Hpre Hdisk Htmp. rewrite handle_upload_frame by assumption.
  rewrite Htmp. eexists. split; [reflexivity|]. split; [|reflexivity].
  destruct (NamedTemporaryFile_fresh _ _ _ _ Htmp) as [Hpending Hdisk'].
  apply NamedTemporaryFile_ok in Htmp.
  destruct Htmp as (Hopen & p & Hres & Hfresh & Hfiles & Hcwd).
  split; [reflexivity|]. split; [reflexivity|].
  exists f, p, []. cbn [sess env temp_file].
  repeat split; try assumption; [|congruence|rewrite Hpending; reflexivity].
  rewrite <- (resolve_insert_fresh (env h) p (File []) (name f) p Hfresh Hres).
  apply resolve_ext; simpl; assumption.
Qed.

Lemma chunk_holds fs0 tp content h line data :
  upload_holds fs0 tp content h ->
  line <> str "ENDUPLOAD" ->
  b64decode line = Ok data ->
  exists h1,
    handle_line TMP_DIR proses line h = (Ok tt, h1)
    /\ upload_holds fs0 tp (content ++ data) h1
    /\ hlog h1 = hlog h ++ [HWrite data].
Proof.
  intros (Hmode & Htp & f & p & on_disk & Hfile & Hopen & Hname & Hres
          & Hfresh & Hfiles & Hdisk & ->) Hline Hdec.
  rewrite (handle_chunk_frame _ _ _ _ f Hmode Hfile Hline), Hdec.
  assert (Hw : file_holds (name f) p on_disk (env h)).
  { rewrite Hname. split; [exact Hres|]. split; [|exact Hdisk].
    rewrite Hfiles. apply lookup_insert_eq. }
  destruct (file_write_healthy p on_disk f data (env h) Hopen Hw)
    as (f' & w' & on_disk' & Hwrite & Hname' & Hopen' & Hw' & Hre & Hall).
  rewrite Hwrite. eexists. split; [reflexivity|]. split; [|reflexivity].
  split; [exact Hmode|]. split; [exact Htp|].
  exists f', p, on_disk'.
  cbn [sess env temp_file temp_path set_temp_file].
  destruct Hw' as (Hres' & _ & Hdisk'). destruct Hre as [Hfiles' _].
  rewrite Hname in Hres'.
  repeat split; try assumption; try congruence.
  rewrite Hfiles', Hfiles. apply insert_insert_eq.
Qed.

(** A data line of an upload: not the end marker, and accepted by
    [b64decode]. *)
Definition data_line (line : pystr) (data : pybytes) : Prop :=
  strip line <> str "ENDUPLOAD" /\ b64decode (strip line) = Ok data.

Lemma chunk_lines_hold lines pieces :
  Forall2 data_line lines pieces ->
  forall fs0 tp content h,
    upload_holds fs0 tp content h ->
    exists h1,
      handle_lines TMP_DIR proses lines h = (Ok tt, h1)
      /\ upload_holds fs0 tp (content ++ concat pieces) h1
      /\ hlog h1 = hlog h ++ map HWrite pieces.
Proof.
  induction 1 as [|line data lines pieces [Hline Hdec] Hrest IH];
    intros fs0 tp content h Hh.
  - exists h. cbn [concat map]. rewrite !app_nil_r.
    split; [reflexivity|]. split; [exact Hh|reflexivity].
  - destruct (chunk_holds fs0 tp content h (strip line) data Hh Hline Hdec)
      as (h1 & Hrun & Hh1 & Hlog1).
    destruct (IH fs0 tp (content ++ data) h1 Hh1) as (h2 & Hrun2 & Hh2 & Hlog2).
    exists h2. cbn [handle_lines concat map]. unfold bind. rewrite Hrun.
    split; [exact Hrun2|]. split.
    + rewrite app_assoc. exact Hh2.
    + rewrite Hlog2, Hlog1, <- app_assoc. reflexivity.
Qed.

(** During an upload, on a disk that takes every write, the data lines
    are decoded one by one and written to the temporary file in the
    order of arrival.  The file and the buffer of its file object held
    [content] between them; after the lines they hold [content]
    followed by the decoded pieces, the handler has made exactly these
    writes, and closing the file object, which is what happens to it
    next, succeeds and leaves all of it in the file. *)
Theorem data_lines_accumulate_in_order lines pieces fs0 tp content h :
  upload_holds fs0 tp content h ->
  Forall2 data_line lines pieces ->
  exists h1 f1 w1,
    handle_lines TMP_DIR proses lines h = (Ok tt, h1)
    /\ hlog h1 = hlog h ++ map HWrite pieces
    /\ uploading (sess h1) = true
    /\ temp_path (sess h1) = tp
    /\ temp_file (sess h1) = Some f1
    /\ closed f1 = false
    /\ temp_content f1 (env h1) = Some (content ++ concat pieces)
    /\ file_close f1 (env h1) = (Ok tt, mkTemp tp true [], w1)
    /\ fst (open_read tp w1) = Ok (content ++ concat pieces).
Proof.
  intros Hh Hlines.
  destruct (chunk_lines_hold lines pieces Hlines fs0 tp content h Hh)
    as (h1 & Hrun & Hh1 & Hlog).
  destruct (upload_holds_close _ _ _ _ Hh1)
    as (f1 & w1 & Hfile & Hopen & Hcontent & Hclose & Hread).
  exists h1, f1, w1. destruct Hh1 as (Hmode & Htp & _).
  repeat split; assumption.
Qed.

End Accumulate.

(** ** The upload as the client sends it *)

(** [BUFFER_SIZE = 1_048_576] *)
Definition BUFFER_SIZE : N := 1048576.

(** [range(0, stop, step)] for a positive [step]. *)
Definition range_from_zero (stop step : nat) : list nat :=
  map (fun k => (k * step)%nat) (seq 0 ((stop + step - 1) / step)).

(** [s[i:j]] for [0 <= i <= j]. *)
Definition slice {A} (s : list A) (i j : nat) : list A :=
  firstn (j - i) (skipn i s).

(** The chunks of the loop of [remote_upload]:
    [for i in range(0, len(encoded_data), size):
       chunk = encoded_data[i:i + size]]. *)
Definition upload_chunks (size : nat) (encoded_data : pystr) : list pystr :=
  map (fun i => slice encoded_data i (i + size))
      (range_from_zero (length encoded_data) size).

(** The payloads [remote_upload] passes to [sendall] for a file that
    holds [file_bytes], when no step fails: the command, the chunks of
    the encoded data and the end marker, each followed by a newline. *)
Definition remote_upload_sends (file_bytes : pybytes) : list pybytes :=
  str_encode (str "UPLOAD" ++ [10])
  :: map (fun chunk => str_encode (chunk ++ [10]))
         (upload_chunks (N.to_nat BUFFER_SIZE) (b64encode file_bytes))
  ++ [str_encode (str "ENDUPLOAD" ++ [10])].

Lemma range_count stop step :
  (0 < stop)%nat -> (0 < step)%nat ->
  ((stop + step - 1) / step = S ((stop - step + step - 1) / step))%nat.
Proof.
  intros Hstop Hstep.
  destruct (Nat.le_gt_cases stop step) as [Hle|Hgt].
  - replace (stop - step)%nat with 0%nat by lia.
    rewrite (Nat.div_small (0 + step - 1)) by lia.
    symmetry. apply (Nat.div_unique _ _ 1 (stop - 1)); lia.
  - replace (stop + step - 1)%nat with ((stop - step + step - 1) + 1 * step)%nat
      by lia.
    rewrite Nat.div_add by lia. lia.
Qed.

Lemma upload_chunks_nil size : upload_chunks size [] = [].
Proof.
  unfold upload_chunks, range_from_zero. cbn [length].
  destruct size as [|size]; [reflexivity|].
  rewrite Nat.div_small by lia. reflexivity.
Qed.

Lemma upload_chunks_cons size c s :
  (0 < size)%nat ->
  upload_chunks size (c :: s)
  = firstn size (c :: s) :: upload_chunks size (skipn size (c :: s)).
Proof.
  intros Hsize. unfold upload_chunks, range_from_zero.
  rewrite range_count by (simpl; lia).
  rewrite length_skipn. cbn [seq map]. f_equal.
  - unfold slice. cbn [skipn Nat.mul]. f_equal. lia.
  - rewrite <- seq_shift, !map_map. apply map_ext. intros k.
    unfold slice. rewrite skipn_skipn. f_equal; [lia|].
    f_equal. lia.
Qed.

Lemma length_b2a_base64 data :
  length (b2a_base64 data) = (4 * ((length data + 2) / 3))%nat.
Proof.
  induction data as [|x|x y|x y z data IH] using list_ind3; try reflexivity.
  cbn [b2a_base64 length]. rewrite IH.
  replace (S (S (S (length data))) + 2)%nat
    with ((length data + 2) + 1 * 3)%nat by lia.
  rewrite Nat.div_add by lia. lia.
Qed.

Lemma b2a_base64_app a :
  forall k b,
    length a = (3 * k)%nat ->
    b2a_base64 (a ++ b) = b2a_base64 a ++ b2a_base64 b.
Proof.
  induction a as [|x|x y|x y z a IH] using list_ind3; intros k b Hlen;
    cbn [length] in Hlen; try lia; [reflexivity|].
  cbn [app b2a_base64]. do 4 f_equal. apply (IH (k - 1)%nat). lia.
Qed.

Lemma b2a_base64_cut m data :
  firstn (4 * m) (b2a_base64 data) = b2a_base64 (firstn (3 * m) data)
  /\ skipn (4 * m) (b2a_base64 data) = b2a_base64 (skipn (3 * m) data).
Proof.
  destruct (Nat.le_gt_cases (3 * m) (length data)) as [Hle|Hgt].
  - rewrite <- (firstn_skipn (3 * m) data) at 1 3.
    assert (Hlen : length (firstn (3 * m) data) = (3 * m)%nat)
      by (rewrite length_firstn; lia).
    rewrite (b2a_base64_app _ m _ Hlen).
    assert (Hlen4 : length (b2a_base64 (firstn (3 * m) data)) = (4 * m)%nat).
    { rewrite length_b2a_base64, Hlen.
      replace (3 * m + 2)%nat with (2 + m * 3)%nat by lia.
      rewrite Nat.div_add by lia. reflexivity. }
    split.
    + rewrite <- Hlen4 at 1. rewrite firstn_app, Nat.sub_diag, firstn_all.
      cbn [firstn]. apply app_nil_r.
    + rewrite <- Hlen4 at 1. rewrite skipn_app, Nat.sub_diag, skipn_all.
      reflexivity.
  - assert (Hshort : (length (b2a_base64 data) <= 4 * m)%nat).
    { rewrite length_b2a_base64.
      assert ((length data + 2) / 3 <= m)%nat; [|lia].
      apply Nat.lt_succ_r, Nat.Div0.div_lt_upper_bound. lia. }
    rewrite !firstn_all2, !skipn_all2 by lia. split; reflexivity.
Qed.

(** The chunks of the encoded data, cut every [4 * m] characters, are
    the encodings of the pieces of the data, cut every [3 * m] bytes. *)
Lemma upload_chunks_pieces m n :
  (0 < m)%nat ->
  forall data,
    (length data <= n)%nat ->
    exists pieces,
      upload_chunks (4 * m) (b2a_base64 data) = map b2a_base64 pieces
      /\ concat pieces = data
      /\ Forall (fun piece => piece <> []) pieces.
Proof.
  intros Hm. induction n as [|n IH]; intros data Hlen.
  - destruct data; [|simpl in Hlen; lia]. exists [].
    split; [apply upload_chunks_nil|]. split; [reflexivity|constructor].
  - destruct data as [|x data].
    { exists []. split; [apply upload_chunks_nil|].
      split; [reflexivity|constructor]. }
    destruct (b2a_base64 (x :: data)) as [|c s] eqn:Henc.
    { apply (f_equal length) in Henc. rewrite length_b2a_base64 in Henc.
      cbn [length] in Henc.
      assert (1 <= (S (length data) + 2) / 3)%nat; [|lia].
      apply Nat.div_le_lower_bound; lia. }
    rewrite upload_chunks_cons by lia. rewrite <- Henc.
    destruct (b2a_base64_cut m (x :: data)) as [-> ->].
    destruct (IH (skipn (3 * m) (x :: data))) as (pieces & Hchunks & Hcat & Hne).
    { rewrite length_skipn. cbn [length] in *. lia. }
    exists (firstn (3 * m) (x :: data) :: pieces). split; [|split].
    + cbn [map]. rewrite Hchunks. reflexivity.
    + cbn [concat]. rewrite Hcat. apply firstn_skipn.
    + constructor; [|exact Hne].
      destruct m as [|m]; [lia|]. replace (3 * S m)%nat with (S (2 + 3 * m)) by lia.
      discriminate.
Qed.

(** Characters between [+] and [z]: the base64 alphabet, the padding
    character and the letters of the commands lie in this range, which
    holds no white space and no newline. *)
Definition plain_text (s : pystr) : bool :=
  forallb (fun c => (43 <=? c) && (c <=? 122)) s.

Lemma plain_text_cons c s :
  plain_text (c :: s) = true <-> (43 <= c <= 122) /\ plain_text s = true.
Proof.
  unfold plain_text. cbn [forallb].
  rewrite andb_true_iff, andb_true_iff, N.leb_le, N.leb_le. reflexivity.
Qed.

Lemma plain_text_app a b :
  plain_text a = true -> plain_text b = true -> plain_text (a ++ b) = true.
Proof.
  intros Ha Hb. unfold plain_text in *. rewrite forallb_app, Ha, Hb.
  reflexivity.
Qed.

Lemma table_b2a_plain i : 43 <= table_b2a_base64 i <= 122.
Proof.
  unfold table_b2a_base64.
  destruct (N.ltb_spec i 26); [lia|].
  destruct (N.ltb_spec i 52); [lia|].
  destruct (N.ltb_spec i 62); [lia|].
  destruct (i =? 62); lia.
Qed.

Lemma b2a_base64_plain data : plain_text (b2a_base64 data) = true.
Proof.
  assert (Hpad : 43 <= BASE64_PAD <= 122) by (unfold BASE64_PAD; lia).
  induction data as [|x|x y|x y z data IH] using list_ind3;
    [reflexivity|..]; cbn [b2a_base64];
    repeat (apply plain_text_cons; split;
            [first [apply table_b2a_plain | exact Hpad]|]);
    first [reflexivity | exact IH].
Qed.

Lemma is_whitespace_plain c : 43 <= c <= 122 -> is_whitespace c = false.
Proof.
  intros Hc. unfold is_whitespace.
  replace (c <=? 13) with false by (symmetry; apply N.leb_gt; lia).
  replace (c <=? 32) with false by (symmetry; apply N.leb_gt; lia).
  replace (8192 <=? c) with false by (symmetry; apply N.leb_gt; lia).
  repeat match goal with
  | |- context [c =? ?k] =>
    replace (c =? k) with false by (symmetry; apply N.eqb_neq; lia)
  end.
  rewrite !andb_false_r. reflexivity.
Qed.

Lemma lstrip_plain s : plain_text s = true -> lstrip s = s.
Proof.
  destruct s as [|c s]; [reflexivity|]. intros [Hc _]%plain_text_cons.
  cbn [lstrip]. rewrite (is_whitespace_plain c Hc). reflexivity.
Qed.

Lemma strip_plain s : plain_text s = true -> strip s = s.
Proof.
  intros Hs. unfold strip, rstrip. rewrite (lstrip_plain s Hs).
  rewrite lstrip_plain; [apply rev_involutive|].
  unfold plain_text in *. rewrite forallb_forall in *.
  intros c Hc. apply Hs. apply in_rev. exact Hc.
Qed.

Lemma to_N_byte_of_N c : c < 256 -> Byte.to_N (byte_of_N c) = c.
Proof.
  intros Hc. unfold byte_of_N. rewrite N.mod_small by exact Hc.
  destruct (Byte.of_N c) as [b|] eqn:Hb.
  - apply Byte.to_of_N. exact Hb.
  - apply Byte.of_N_None_iff in Hb. lia.
Qed.

Lemma utf8_decode_encode_plain s :
  plain_text s = true ->
  forall pos rest,
    utf8_decode_from pos (str_encode s ++ rest)
    = res_map (app s) (utf8_decode_from (pos + length s) rest).
Proof.
  induction s as [|c s IH]; intros Hs pos rest.
  - cbn [str_encode flat_map app length]. rewrite Nat.add_0_r.
    destruct (utf8_decode_from pos rest); reflexivity.
  - apply plain_text_cons in Hs as [Hc Hs].
    unfold str_encode in *. cbn [flat_map]. unfold utf8_encode_char at 1.
    replace (c <? 128) with true by (symmetry; apply N.ltb_lt; lia).
    cbn [app utf8_decode_from]. rewrite to_N_byte_of_N by lia.
    replace (c <? 128) with true by (symmetry; apply N.ltb_lt; lia).
    rewrite (IH Hs), res_map_app_cons. cbn [length].
    replace (1 + pos + length s)%nat with (pos + S (length s))%nat by lia.
    reflexivity.
Qed.

(** A line of plain text and its newline, as sent and as received. *)
Lemma send_line_decoded line :
  plain_text line = true ->
  decoded (str_encode (line ++ [10])) (line ++ [10]).
Proof.
  intros Hline. unfold decoded, bytes_decode, str_encode.
  rewrite flat_map_app. split.
  - cbn [flat_map utf8_encode_char]. intros Hnil.
    apply app_eq_nil in Hnil as [_ Hnil]. discriminate.
  - fold (str_encode line). rewrite (utf8_decode_encode_plain line Hline).
    reflexivity.
Qed.

Lemma split_lines_plain_line line rest :
  plain_text line = true ->
  split_lines (line ++ 10 :: rest)
  = (line :: fst (split_lines rest), snd (split_lines rest)).
Proof.
  induction line as [|c line IH]; intros Hline.
  - cbn [app split_lines]. destruct (split_lines rest). reflexivity.
  - apply plain_text_cons in Hline as [Hc Hline].
    cbn [app split_lines]. rewrite (IH Hline).
    replace (c =? 10) with false by (symmetry; apply N.eqb_neq; lia).
    reflexivity.
Qed.

Lemma sends_decoded lines :
  Forall (fun line => plain_text line = true) lines ->
  Forall2 decoded (map (fun line => str_encode (line ++ [10])) lines)
                  (map (fun line => line ++ [10]) lines)
  /\ split_lines (concat (map (fun line => line ++ [10]) lines)) = (lines, []).
Proof.
  induction 1 as [|line lines Hline Hlines [IH1 IH2]].
  - split; [constructor|reflexivity].
  - split.
    + cbn [map]. constructor; [apply send_line_decoded; exact Hline|exact IH1].
    + cbn [map concat]. rewrite <- app_assoc. cbn [app].
      rewrite (split_lines_plain_line _ _ Hline), IH2. reflexivity.
Qed.

Lemma buffer_size_quads :
  N.to_nat BUFFER_SIZE = (4 * N.to_nat 262144)%nat
  /\ (0 < N.to_nat 262144)%nat.
Proof.
  split.
  - unfold BUFFER_SIZE. change 1048576 with (4 * 262144).
    rewrite N2Nat.inj_mul. reflexivity.
  - change 262144 with (N.succ 262143). rewrite N2Nat.inj_succ.
    apply Nat.lt_0_succ.
Qed.

Lemma remote_upload_pieces file_bytes :
  exists pieces,
    upload_chunks (N.to_nat BUFFER_SIZE) (b64encode file_bytes)
    = map b2a_base64 pieces
    /\ concat pieces = file_bytes.
Proof.
  destruct buffer_size_quads as [-> Hpos].
  destruct (upload_chunks_pieces _ (length file_bytes) Hpos file_bytes
              (le_n _)) as (pieces & Hchunks & Hcat & _).
  exists pieces. split; assumption.
Qed.

Lemma encoded_piece_is_data_line piece :
  plain_text (b2a_base64 piece) = true
  /\ data_line (b2a_base64 piece) piece.
Proof.
  pose proof (b2a_base64_plain piece) as Hplain.
  split; [exact Hplain|]. unfold data_line.
  rewrite (strip_plain _ Hplain). split.
  - intros Heq. apply (f_equal length) in Heq.
    rewrite length_b2a_base64 in Heq.
    change (length (str "ENDUPLOAD")) with 9%nat in Heq. lia.
  - apply b64decode_b64encode.
Qed.

(** Each chunk that [remote_upload] sends is decoded by the server's
    [b64decode] on its own, and the decoded pieces, put together in the
    order of sending, are the bytes of the file: the chunk size is a
    multiple of four, so no group of four characters is cut. *)
Theorem remote_upload_chunks_decode file_bytes :
  exists pieces,
    Forall2 (fun chunk piece => b64decode chunk = Ok piece)
            (upload_chunks (N.to_nat BUFFER_SIZE) (b64encode file_bytes))
            pieces
    /\ concat pieces = file_bytes.
Proof.
  destruct (remote_upload_pieces file_bytes) as (pieces & -> & Hcat).
  exists pieces. split; [|exact Hcat].
  clear Hcat. induction pieces as [|piece pieces IH]; cbn [map];
    constructor; [apply b64decode_b64encode|exact IH].
Qed.

(** ASCII text is sent as it is, one byte for each character. *)
Lemma str_encode_ascii s :
  forallb (fun c => c <? 128) s = true ->
  ascii_bytes (str_encode s) = true /\ map Byte.to_N (str_encode s) = s.
Proof.
  induction s as [|c s IH]; [split; reflexivity|].
  cbn [forallb]. intros [Hc Hs]%andb_prop. destruct (IH Hs) as [IH1 IH2].
  unfold str_encode in *. cbn [flat_map]. unfold utf8_encode_char at 1 3.
  rewrite Hc. cbn [app ascii_bytes forallb map].
  apply N.ltb_lt in Hc. rewrite to_N_byte_of_N by lia.
  split.
  - apply andb_true_intro. split; [apply N.ltb_lt; exact Hc|exact IH1].
  - f_equal. exact IH2.
Qed.

Lemma str_encode_concat texts :
  str_encode (concat texts) = concat (map str_encode texts).
Proof.
  induction texts as [|t texts IH]; [reflexivity|].
  cbn [concat map]. unfold str_encode in *. rewrite flat_map_app, IH.
  reflexivity.
Qed.

(** However a stream of ASCII bytes is cut into pieces that are not
    empty, every piece decodes on its own, and the texts put together
    are the text of the stream. *)
Lemma ascii_chunks_decoded chunks :
  Forall (fun chunk => chunk <> []) chunks ->
  ascii_bytes (concat chunks) = true ->
  Forall2 decoded chunks (map (map Byte.to_N) chunks)
  /\ concat (map (map Byte.to_N) chunks) = map Byte.to_N (concat chunks).
Proof.
  induction 1 as [|chunk chunks Hne Hrest IH]; intros Hascii.
  - split; [constructor|reflexivity].
  - cbn [concat] in Hascii. unfold ascii_bytes in Hascii.
    rewrite forallb_app in Hascii. apply andb_prop in Hascii as [Hc Hcs].
    destruct (IH Hcs) as [IH1 IH2]. cbn [map concat]. split.
    + constructor; [|exact IH1].
      split; [exact Hne|apply bytes_decode_ascii; exact Hc].
    + rewrite map_app, IH2. reflexivity.
Qed.

Lemma plain_text_ascii s :
  plain_text s = true -> forallb (fun c => c <? 128) s = true.
Proof.
  unfold plain_text. rewrite !forallb_forall. intros Hs c Hc.
  specialize (Hs c Hc). apply andb_prop in Hs as [_ Hs].
  apply N.leb_le in Hs. apply N.ltb_lt. lia.
Qed.

Lemma plain_lines_ascii lines :
  Forall (fun line => plain_text line = true) lines ->
  forallb (fun c => c <? 128)
          (concat (map (fun line => line ++ [10]) lines)) = true.
Proof.
  induction 1 as [|line lines Hline Hlines IH]; [reflexivity|].
  cbn [map concat]. rewrite !forallb_app, IH, (plain_text_ascii _ Hline).
  reflexivity.
Qed.

Section ClientUpload.

Variable TMP_DIR : pystr.
Variable proses : pystr -> M pystr.

Lemma handle_last_line line h :
  handle_lines TMP_DIR proses [line] h
  = handle_line TMP_DIR proses (strip line) h.
Proof.
  cbn [handle_lines]. unfold bind, ret.
  destruct (handle_line TMP_DIR proses (strip line) h) as [[[]|e] h1];
    reflexivity.
Qed.

(** The server receives what [remote_upload] sends for a file, cut
    into pieces in whatever way the connection delivers it, no piece
    empty, on a connection in command mode with an empty buffer; the
    temporary file can be created and the disk takes every write.  Then
    the handler comes to the end marker with all the data written; it
    closes the file object, the temporary file then holds exactly the
    bytes of the client's file, and in that state the dispatcher is
    called with the name of the temporary file.  What the outer loop
    returns is what handling the end marker gives. *)
Theorem remote_upload_is_received file_bytes chunks h f w' :
  buffer (sess h) = [] ->
  uploading (sess h) = false ->
  disk (env h) = [] ->
  NamedTemporaryFile TMP_DIR (env h) = (Ok f, w') ->
  Forall (fun chunk => chunk <> []) chunks ->
  concat chunks = concat (remote_upload_sends file_bytes) ->
  exists h1 f1 w1 b,
    uploading (sess h1) = true
    /\ temp_path (sess h1) = name f
    /\ temp_file (sess h1) = Some f1
    /\ file_close f1 (env h1) = (Ok tt, mkTemp (name f) true [], w1)
    /\ fst (open_read (name f) w1) = Ok file_bytes
    /\ handle_line TMP_DIR proses (str "ENDUPLOAD") h1
       = match proses (str "UPLOAD " ++ name f) w1 with
         | (Ok response, w2) =>
           after_store (name f) response
             (mkH (set_temp_file (Some (mkTemp (name f) true [])) (sess h1))
                  w2 (hlog h1 ++ [HDispatch (str "UPLOAD " ++ name f)]))
         | (Raise e, w2) =>
           (Raise e,
            mkH (set_temp_file (Some (mkTemp (name f) true [])) (sess h1))
                w2 (hlog h1 ++ [HDispatch (str "UPLOAD " ++ name f)]))
         end
    /\ recv_loop TMP_DIR proses (map Data chunks) h
       = (fst (handle_line TMP_DIR proses (str "ENDUPLOAD") h1),
          with_buffer b
            (snd (handle_line TMP_DIR proses (str "ENDUPLOAD") h1))).
Proof.
  intros Hbuf Hmode Hdisk Htmp Hchunks_ne Hstream.
  destruct (remote_upload_pieces file_bytes) as (pieces & Hchunks & Hcat).
  set (lines := str "UPLOAD" :: map b2a_base64 pieces ++ [str "ENDUPLOAD"]).
  assert (Hsends : remote_upload_sends file_bytes
                   = map (fun line => str_encode (line ++ [10])) lines).
  { unfold remote_upload_sends, lines. rewrite Hchunks.
    cbn [map]. rewrite map_app. reflexivity. }
  assert (Hplain : Forall (fun line => plain_text line = true) lines).
  { unfold lines. constructor; [vm_compute; reflexivity|].
    apply Forall_app. split.
    - apply Forall_forall. intros line [piece [-> _]]%list_elem_of_fmap.
      apply b2a_base64_plain.
    - constructor; [vm_compute; reflexivity|constructor]. }
  destruct (sends_decoded lines Hplain) as [_ Hsplit].
  (* the pieces as they arrive *)
  set (text := concat (map (fun line => line ++ [10]) lines)) in *.
  assert (Hbytes : concat chunks = str_encode text).
  { rewrite Hstream, Hsends. unfold text.
    rewrite str_encode_concat, map_map. reflexivity. }
  destruct (str_encode_ascii text (plain_lines_ascii lines Hplain))
    as [Hascii Htext].
  rewrite <- Hbytes in Hascii, Htext.
  destruct (ascii_chunks_decoded chunks Hchunks_ne Hascii)
    as [Hdecoded Htexts].
  rewrite Htext in Htexts.
  (* the command line *)
  destruct (upload_started TMP_DIR proses h (str "UPLOAD") f w' Hmode
              ltac:(vm_compute; reflexivity) Hdisk Htmp)
    as (h0 & Hrun0 & Hh0 & _).
  (* the data lines *)
  assert (Hdata : Forall2 data_line (map b2a_base64 pieces) pieces).
  { clear. induction pieces as [|piece pieces IH]; cbn [map]; constructor;
      [apply encoded_piece_is_data_line|exact IH]. }
  destruct (chunk_lines_hold TMP_DIR proses _ _ Hdata _ _ _ _ Hh0)
    as (h1 & Hrun1 & Hh1 & _).
  cbn [app] in Hh1. rewrite Hcat in Hh1.
  assert (Hrun : handle_lines TMP_DIR proses lines h
                 = handle_line TMP_DIR proses (str "ENDUPLOAD") h1).
  { unfold lines. cbn [handle_lines]. unfold bind at 1.
    rewrite (strip_plain (str "UPLOAD")) by (vm_compute; reflexivity).
    rewrite Hrun0, handle_lines_app. unfold bind at 1. rewrite Hrun1.
    rewrite handle_last_line.
    rewrite (strip_plain (str "ENDUPLOAD")) by (vm_compute; reflexivity).
    reflexivity. }
  assert (Hh : h = with_buffer [] h).
  { destruct h as [[? ? ? ?] ? ?]. cbn in Hbuf. subst. reflexivity. }
  pose proof (recv_loop_lines TMP_DIR proses _ _ Hdecoded [] h [] eq_refl)
    as Hrecv.
  rewrite app_nil_l, app_nil_r, Htexts, Hsplit, <- Hh in Hrecv.
  cbn [fst snd] in Hrecv. rewrite Hrun in Hrecv.
  destruct (upload_holds_close _ _ _ _ Hh1)
    as (f1 & w1 & Hfile & Hopen & _ & Hclose & Hread).
  destruct Hh1 as (Hmode1 & Hpath1 & _).
  exists h1, f1, w1.
  assert (Hend : handle_line TMP_DIR proses (str "ENDUPLOAD") h1
       = match proses (str "UPLOAD " ++ name f) w1 with
         | (Ok response, w2) =>
           after_store (name f) response
             (mkH (set_temp_file (Some (mkTemp (name f) true [])) (sess h1))
                  w2 (hlog h1 ++ [HDispatch (str "UPLOAD " ++ name f)]))
         | (Raise e, w2) =>
           (Raise e,
            mkH (set_temp_file (Some (mkTemp (name f) true [])) (sess h1))
                w2 (hlog h1 ++ [HDispatch (str "UPLOAD " ++ name f)]))
         end).
  { rewrite (handle_endupload_frame TMP_DIR proses h1 f1 Hmode1 Hfile).
    rewrite Hclose, Hpath1. reflexivity. }
  destruct (handle_line TMP_DIR proses (str "ENDUPLOAD") h1)
    as [[[]|e] h2] eqn:Hline; cbn [fst snd] in *.
  - exists []. rewrite Hrecv. repeat split; assumption.
  - destruct Hrecv as (b & Hrecv). exists b. rewrite Hrecv.
    repeat split; assumption.
Qed.

End ClientUpload.

(** ** When the error envelope is a JSON text *)

(** Characters that may stand in a JSON string as they are. *)
Definition json_safe (s : pystr) : bool :=
  forallb (fun c => (32 <=? c) && negb (c =? 34) && negb (c =? 92)) s.

Lemma json_safe_app a b :
  json_safe (a ++ b) = json_safe a && json_safe b.
Proof. apply forallb_app. Qed.

Lemma string_tail_safe s rest :
  json_safe s = true -> JSON.string_tail (s ++ 34 :: rest) = Some rest.
Proof.
  induction s as [|c s IH]; intros Hs; [reflexivity|].
  cbn [json_safe forallb] in Hs.
  apply andb_prop in Hs as [Hc Hs]. apply andb_prop in Hc as [Hc H92].
  apply andb_prop in Hc as [H32 H34].
  cbn [app JSON.string_tail].
  apply negb_true_iff in H34, H92. rewrite H34, H92.
  replace (c <? 32) with false
    by (symmetry; apply N.ltb_ge, N.leb_le; exact H32).
  apply IH. exact Hs.
Qed.

Lemma object_of_two_strings n k1 v1 k2 v2 :
  json_safe k1 = true -> json_safe v1 = true ->
  json_safe k2 = true -> json_safe v2 = true ->
  JSON.value (4 + n)
    (123 :: 34 :: k1 ++ 34 :: 58 :: 34 :: v1 ++ 34 :: 44
         :: 34 :: k2 ++ 34 :: 58 :: 34 :: v2 ++ 34 :: [125])
  = Some [].
Proof.
  intros Hk1 Hv1 Hk2 Hv2. cbn. rewrite (string_tail_safe k1 _ Hk1).
  cbn. rewrite (string_tail_safe v1 _ Hv1).
  cbn. rewrite (string_tail_safe k2 _ Hk2).
  cbn. rewrite (string_tail_safe v2 _ Hv2).
  reflexivity.
Qed.

Lemma error_msg_shape e :
  error_msg e
  = 123 :: 34 :: str "status" ++ 34 :: 58 :: 34 :: str "ERROR" ++ 34 :: 44
        :: 34 :: str "data" ++ 34 :: 58 :: 34 :: str_exn e ++ 34 :: [125].
Proof.
  unfold error_msg, quoted.
  change (str "{") with [123]. change (str ":") with [58].
  change (str ",") with [44]. change (str "}") with [125].
  cbn [app]. rewrite <- !app_assoc. cbn [app]. reflexivity.
Qed.

(** The envelope of the [except] clause is a JSON text whenever the text
    of the exception holds no double quote, no backslash and no control
    character. *)
Lemma error_msg_wellformed e :
  json_safe (str_exn e) = true -> JSON.wellformed (error_msg e) = true.
Proof.
  intros Hsafe. unfold JSON.wellformed. rewrite error_msg_shape.
  match goal with
  | |- context [JSON.value (S (length ?s)) _] =>
    assert (Hfuel : exists n, S (length s) = (4 + n)%nat)
  end.
  { match goal with
    | |- exists n, S (length ?s) = _ => exists (length s - 3)%nat
    end.
    cbn [length].
    rewrite length_app. change (length (str "status")) with 6%nat. lia. }
  destruct Hfuel as [n ->].
  rewrite object_of_two_strings; try exact Hsafe; reflexivity.
Qed.

Lemma json_safe_cons c s :
  32 <= c -> c <> 34 -> c <> 92 -> json_safe s = true ->
  json_safe (c :: s) = true.
Proof.
  intros H32 H34 H92 Hs. unfold json_safe in *. cbn [forallb]. rewrite Hs.
  apply N.leb_le in H32. apply N.eqb_neq in H34, H92.
  rewrite H32, H34, H92. reflexivity.
Qed.

Lemma digit_char_range d :
  d < 16 -> 48 <= digit_char d <= 57 \/ 97 <= digit_char d <= 102.
Proof.
  intros Hd. unfold digit_char. destruct (N.ltb_spec d 10); lia.
Qed.

Lemma json_safe_digit d s :
  d < 16 -> json_safe s = true -> json_safe (digit_char d :: s) = true.
Proof.
  intros Hd Hs. pose proof (digit_char_range d Hd).
  apply json_safe_cons; [lia..|exact Hs].
Qed.

Lemma json_safe_dec_digits fuel :
  forall n acc,
    json_safe acc = true -> json_safe (dec_digits fuel n acc) = true.
Proof.
  induction fuel as [|fuel IH]; intros n acc Hacc; [exact Hacc|].
  cbn [dec_digits].
  assert (Hstep : json_safe (digit_char (n mod 10) :: acc) = true).
  { apply json_safe_digit; [|exact Hacc].
    pose proof (N.mod_upper_bound n 10). lia. }
  destruct (n / 10 =? 0); [exact Hstep|]. apply IH. exact Hstep.
Qed.

Lemma json_safe_dec n : json_safe (dec n) = true.
Proof. apply json_safe_dec_digits. reflexivity. Qed.

Lemma json_safe_hex2 b : json_safe (hex2 b) = true.
Proof.
  unfold hex2.
  apply json_safe_digit; [apply N.mod_upper_bound; lia|].
  apply json_safe_digit; [apply N.mod_upper_bound; lia|reflexivity].
Qed.

Lemma json_safe_decode_error b start stop reason :
  json_safe reason = true ->
  json_safe (str_exn (UnicodeDecodeError b start stop reason)) = true.
Proof.
  intros Hreason. cbn [str_exn].
  destruct (Nat.eqb stop (S start));
    rewrite !json_safe_app, ?json_safe_hex2, ?json_safe_dec, Hreason;
    reflexivity.
Qed.

Lemma decode_error_safe b start stop reason e :
  json_safe (str reason) = true ->
  decode_error b start stop reason = Raise e ->
  json_safe (str_exn e) = true.
Proof.
  intros Hreason [= <-]. apply json_safe_decode_error. exact Hreason.
Qed.

Lemma utf8_decode_error_safe n :
  forall data pos e,
    (length data <= n)%nat ->
    utf8_decode_from pos data = Raise e ->
    json_safe (str_exn e) = true.
Proof.
  induction n as [|n IH]; intros data pos e Hlen Hdec.
  - destruct data; [discriminate|simpl in Hlen; lia].
  - destruct data as [|b0 data]; [discriminate|].
    cbn [length] in Hlen. cbn [utf8_decode_from] in Hdec.
    repeat match type of Hdec with
    | decode_error _ _ _ _ = Raise _ =>
      refine (decode_error_safe _ _ _ _ _ _ Hdec); vm_compute; reflexivity
    | res_map _ (utf8_decode_from ?p ?r) = Raise _ =>
      destruct (utf8_decode_from p r) as [t|e'] eqn:Hrec; [discriminate|];
      injection Hdec as <-;
      exact (IH r p e' ltac:(cbn [length] in *; lia) Hrec)
    | context [if ?c then _ else _] => destruct c eqn:?
    | context [match ?l with [] => _ | _ :: _ => _ end] =>
      is_var l; destruct l; cbn [length] in *
    end.
Qed.

Lemma Raise_inj {A} (e1 e2 : exn) :
  Raise (A := A) e1 = Raise e2 -> e1 = e2.
Proof. congruence. Qed.

Lemma a2b_base64_error_safe ascii :
  forall quad_pos leftchar pads out e,
    a2b_base64_loop ascii quad_pos leftchar pads out = Raise e ->
    json_safe (str_exn e) = true.
Proof.
  induction ascii as [|c ascii IH]; intros quad_pos leftchar pads out e Hrun;
    cbn [a2b_base64_loop] in Hrun.
  - destruct (quad_pos =? 0); [discriminate|].
    destruct (quad_pos =? 1); apply Raise_inj in Hrun; subst e;
      cbn [str_exn].
    + rewrite !json_safe_app, json_safe_dec. reflexivity.
    + reflexivity.
  - repeat match type of Hrun with
    | a2b_base64_loop ascii _ _ _ _ = Raise _ => exact (IH _ _ _ _ _ Hrun)
    | Ok _ = Raise _ => discriminate Hrun
    | context [if ?b then _ else _] => destruct b
    | context [match ?o with Some _ => _ | None => _ end] => destruct o
    end.
Qed.

(** The two decoders the handler calls raise exceptions whose text holds
    no double quote, no backslash and no control character, so the
    answer to undecodable input is a JSON text: when [data.decode()] or
    [base64.b64decode(line)] raises [e], the envelope built from [e] is
    well formed. *)
Theorem decoding_failure_envelope_is_json e :
  (exists data, bytes_decode data = Raise e)
  \/ (exists line, b64decode line = Raise e) ->
  JSON.wellformed (error_msg e) = true.
Proof.
  intros Hraised. apply error_msg_wellformed.
  destruct Hraised as [[data Hdec]|[line Hdec]].
  - exact (utf8_decode_error_safe (length data) data 0%nat e (le_n _) Hdec).
  - unfold b64decode in Hdec.
    destruct (forallb (fun c => c <? 128) line).
    + exact (a2b_base64_error_safe line _ _ _ _ e Hdec).
    + injection Hdec as <-. reflexivity.
Qed.

(** ** The client's [send_command]

    The command has been sent; what follows is the receive loop and the
    parsing of the response.  What [sock.recv] gives is, as for the
    server, the list of the results of the successive calls, and once
    the list is used up the peer has closed the connection. *)

Inductive client_recv :=
| Chunk (data : pybytes)
| RecvTimeout
| RecvRaises (e : exn).

(** [sep in s] *)
Fixpoint contains (sep s : pystr) : bool :=
  startswith s sep
  || match s with
     | [] => false
     | _ :: r => contains sep r
     end.

(** [s.split(sep, 1)[0]]: the text before the first occurrence of [sep],
    all of [s] when there is none. *)
Fixpoint before_first (sep s : pystr) : pystr :=
  if startswith s sep then []
  else match s with
       | [] => []
       | c :: r => c :: before_first sep r
       end.

(** How the receive loop ends: by [break] with the text for
    [json.loads], by [socket.timeout], or by another exception. *)
Inductive received :=
| Text (data_buffer : pystr)
| TimedOut
| Raised (e : exn).

Fixpoint receive (input : list client_recv) (data_buffer : pystr)
  : received :=
  match input with
  | [] => Text data_buffer
  | RecvTimeout :: _ => TimedOut
  | RecvRaises e :: _ => Raised e
  | Chunk [] :: _ => Text data_buffer
  | Chunk chunk :: input' =>
    match bytes_decode chunk with
    | Raise e => Raised e
    | Ok decoded =>
      if contains [13; 10; 13; 10] decoded
      then Text (before_first [13; 10; 13; 10] (data_buffer ++ decoded))
      else receive input' (data_buffer ++ decoded)
    end
  end.

Section SendCommand.

(** [json.loads] *)
Variable loads : pystr -> res pyval.

(** What [send_command] returns when the text [data_buffer] goes to
    [json.loads]: the parsed value, or the dictionary of the
    [except Exception] clause. *)
Definition parsed (data_buffer : pystr) : pyval :=
  match loads data_buffer with
  | Ok v => v
  | Raise e => error_dict e
  end.

Definition send_command (input : list client_recv) : pyval :=
  match receive input [] with
  | Text data_buffer => parsed data_buffer
  | TimedOut =>
    PDict [(str "status", PStr (str "ERROR"));
           (str "data", PStr (str "timeout during receive"))]
  | Raised e => error_dict e
  end.

End SendCommand.

(** A text without carriage return. *)
Definition no_cr (s : pystr) : bool := forallb (fun c => negb (c =? 13)) s.

Lemma no_cr_cons c s :
  no_cr (c :: s) = true -> (c =? 13) = false /\ no_cr s = true.
Proof.
  unfold no_cr. cbn [forallb]. intros [Hc Hs]%andb_prop.
  apply negb_true_iff in Hc. split; assumption.
Qed.

Lemma no_cr_contains s :
  no_cr s = true -> contains terminator s = false.
Proof.
  induction s as [|c s IH]; intros Hs; [reflexivity|].
  apply no_cr_cons in Hs as [Hc Hs].
  cbn [contains terminator startswith]. rewrite Hc, (IH Hs). reflexivity.
Qed.

Lemma before_first_terminator message rest :
  no_cr message = true ->
  before_first terminator (message ++ terminator ++ rest) = message.
Proof.
  induction message as [|c message IH]; intros Hm.
  - unfold terminator. cbn [app before_first startswith N.eqb Pos.eqb andb].
    destruct rest; reflexivity.
  - apply no_cr_cons in Hm as [Hc Hm].
    cbn [app before_first terminator startswith]. rewrite Hc.
    cbn [andb]. f_equal. apply IH. exact Hm.
Qed.

Lemma no_cr_concat texts s :
  no_cr (concat texts ++ s) = true ->
  Forall (fun t => contains terminator t = false) texts.
Proof.
  induction texts as [|t texts IH]; intros Hall; [constructor|].
  cbn [concat] in Hall. rewrite <- app_assoc in Hall.
  unfold no_cr in Hall. rewrite forallb_app in Hall.
  apply andb_prop in Hall as [Ht Hrest].
  constructor; [apply no_cr_contains; exact Ht|apply IH; exact Hrest].
Qed.

(** Chunks none of which holds the whole terminator do not end the
    loop. *)
Lemma receive_goes_on chunks texts :
  Forall2 decoded chunks texts ->
  Forall (fun t => contains terminator t = false) texts ->
  forall rest data_buffer,
    receive (map Chunk chunks ++ rest) data_buffer
    = receive rest (data_buffer ++ concat texts).
Proof.
  induction 1 as [|chunk text chunks texts [Hne Hdec] Hrest IH];
    intros Hall rest data_buffer.
  - cbn [map app concat]. rewrite app_nil_r. reflexivity.
  - apply Forall_cons in Hall as [Htext Hall].
    destruct chunk as [|b chunk]; [contradiction|].
    cbn [map app receive]. rewrite Hdec.
    change [13; 10; 13; 10] with terminator. rewrite Htext.
    rewrite (IH Hall). cbn [concat]. rewrite app_assoc. reflexivity.
Qed.

Section Framing.

Variable loads : pystr -> res pyval.

(** The payload of one response, [message] followed by the terminator,
    reaches the client in pieces that hold whole characters, the
    terminator within the last of them, and [message] holds no carriage
    return.  Then [send_command] hands exactly [message] to
    [json.loads], whatever follows on the connection. *)
Theorem response_is_cut_at_the_terminator
    chunks texts last before message rest :
  Forall2 decoded chunks texts ->
  decoded last (before ++ terminator) ->
  message = concat texts ++ before ->
  no_cr message = true ->
  send_command loads (map Chunk chunks ++ Chunk last :: rest)
  = parsed loads message.
Proof.
  intros Hchunks [Hne Hdec] -> Hm. unfold send_command.
  rewrite (receive_goes_on chunks texts Hchunks (no_cr_concat _ _ Hm)).
  destruct last as [|b last]; [contradiction|].
  cbn [receive app]. rewrite Hdec.
  change [13; 10; 13; 10] with terminator.
  assert (Hin : contains terminator (before ++ terminator) = true).
  { clear. induction before as [|c s IH]; [reflexivity|].
    cbn [app contains]. rewrite IH. apply orb_true_r. }
  rewrite Hin, app_assoc.
  rewrite <- (app_nil_r terminator) at 2.
  rewrite (before_first_terminator _ [] Hm). reflexivity.
Qed.

(** The terminator is looked for in each chunk, not in what has been
    received so far.  When no chunk holds it whole, as when a response
    is cut inside its terminator, the loop goes on although the complete
    response has arrived: a timeout of the next [recv] makes
    [send_command] return the timeout error, and the end of the
    connection makes it parse everything received, terminator
    included. *)
Theorem cut_terminator_is_not_seen chunks texts rest :
  Forall2 decoded chunks texts ->
  Forall (fun t => contains terminator t = false) texts ->
  send_command loads (map Chunk chunks ++ RecvTimeout :: rest)
  = PDict [(str "status", PStr (str "ERROR"));
           (str "data", PStr (str "timeout during receive"))]
  /\ send_command loads (map Chunk chunks) = parsed loads (concat texts).
Proof.
  intros Hchunks Hall. unfold send_command. split.
  - rewrite (receive_goes_on chunks texts Hchunks Hall). reflexivity.
  - rewrite <- (app_nil_r (map Chunk chunks)).
    rewrite (receive_goes_on chunks texts Hchunks Hall). reflexivity.
Qed.

End Framing.

(** ** The orchestrator's reading of the client pool's summary *)

(** The line boundaries of [str.splitlines()]. *)
Definition is_linebreak (c : N) : bool :=
  ((10 <=? c) && (c <=? 13)) || ((28 <=? c) && (c <=? 30))
  || (c =? 0x85) || (c =? 0x2028) || (c =? 0x2029).

(** [s.splitlines()]: CR LF counts as one boundary, and a boundary at
    the end opens no further line. *)
Fixpoint splitlines_from (cur s : pystr) : list pystr :=
  match s with
  | [] => match cur with [] => [] | _ => [rev cur] end
  | c :: r =>
    if is_linebreak c then
      rev cur
      :: splitlines_from []
           (if c =? 13 then match r with 10 :: r' => r' | _ => r end else r)
    else splitlines_from (c :: cur) r
  end.

Definition splitlines (s : pystr) : list pystr := splitlines_from [] s.

(** [line.split(':')[-1]] *)
Definition after_last_colon (line : pystr) : pystr :=
  List.last (split_on 58 line) [].

(** [line.split(':')[-1].strip().split()[0]] *)
Definition first_word_after_colon (line : pystr) : res pystr :=
  match tokens (strip (after_last_colon line)) with
  | word :: _ => Ok word
  | [] => Raise (IndexError (str "list index out of range"))
  end.

(** [avg_time, throughput, success, fail] *)
Definition readings : Type := pystr * pystr * pystr * pystr.

(** The body of the loop of [_parse_client_output]. *)
Definition parse_line (st : readings) (line : pystr) : res readings :=
  let '(avg_time, throughput, success, fail) := st in
  res_bind
    (if contains (str "Average Time/Client:") line
     then first_word_after_colon line else Ok avg_time)
    (fun avg_time =>
  res_bind
    (if contains (str "Throughput/Client:") line
     then first_word_after_colon line else Ok throughput)
    (fun throughput =>
  if contains (str "Success/Failure") line then
    match split_on 47 (strip (after_last_colon line)) with
    | [s; f] => Ok (avg_time, throughput, s, f)
    | _ => Ok (avg_time, throughput, success, fail)
    end
  else Ok (avg_time, throughput, success, fail))).

Fixpoint parse_lines (st : readings) (lines : list pystr) : res readings :=
  match lines with
  | [] => Ok st
  | line :: lines' =>
    res_bind (parse_line st line) (fun st' => parse_lines st' lines')
  end.

(** [StressTestOrchestrator._parse_client_output] *)
Definition _parse_client_output (output : pystr) : res readings :=
  parse_lines (str "-", str "-", str "-", str "-") (splitlines output).

(** What [run_client_pool] prints at its end, the formatted values
    given as texts: [operation] stands for [operation.upper()],
    [avg_time] and [total_time] for the numbers with two decimals,
    [throughput] for the result of [human_readable_bytes]. *)
Definition summary (mode operation client_pool volume avg_time throughput
                    successes failures total_time : pystr) : pystr :=
  [10] ++ str "Test Results" ++ [10]
  ++ str "  Mode               : " ++ mode ++ [10]
  ++ str "  Operation          : " ++ operation ++ [10]
  ++ str "  Client Pool Size   : " ++ client_pool ++ [10]
  ++ str "  Volume per Client  : " ++ volume ++ str " MB" ++ [10]
  ++ str "  Average Time/Client: " ++ avg_time ++ str " s" ++ [10]
  ++ str "  Throughput/Client  : " ++ throughput ++ [10]
  ++ str "  Success/Failure     : " ++ successes ++ str "/" ++ failures
  ++ [10]
  ++ str "  Total Test Duration: " ++ total_time ++ str " s" ++ [10].

(** Texts over a range of characters. *)
Definition text_in (lo hi : N) (s : pystr) : Prop :=
  Forall (fun c => lo <= c <= hi) s.

Lemma startswith_nil s : startswith s [] = true.
Proof. destruct s; reflexivity. Qed.

Lemma startswith_prefix s key :
  startswith s key = true -> exists r, s = key ++ r.
Proof.
  revert s. induction key as [|k key IH]; intros s Hs.
  - exists s. reflexivity.
  - destruct s as [|c s]; [discriminate|]. cbn [startswith] in Hs.
    apply andb_prop in Hs as [Hc Hs]. apply N.eqb_eq in Hc. subst c.
    destruct (IH s Hs) as [r ->]. exists r. reflexivity.
Qed.

Lemma startswith_app key r : startswith (key ++ r) key = true.
Proof.
  induction key as [|k key IH]; [apply startswith_nil|].
  cbn [app startswith]. rewrite N.eqb_refl. exact IH.
Qed.

(** A text that lacks one character of [key] does not hold [key]. *)
Lemma contains_absent k key s :
  In k key -> Forall (fun c => c <> k) s -> contains key s = false.
Proof.
  intros Hk. induction 1 as [|c s Hc Hs IH].
  - destruct key; [destruct Hk|reflexivity].
  - cbn [contains]. rewrite IH, orb_false_r.
    destruct (startswith (c :: s) key) eqn:Hpre; [|reflexivity].
    apply startswith_prefix in Hpre as [r Hr].
    assert (Hin : In k (c :: s)) by (rewrite Hr; apply in_or_app; left; exact Hk).
    destruct Hin as [->|Hin]; [contradiction|].
    rewrite Forall_forall in Hs. apply list_elem_of_In in Hin.
    destruct (Hs k Hin eq_refl).
Qed.

Lemma contains_cons key c s :
  contains key (c :: s) = startswith (c :: s) key || contains key s.
Proof. reflexivity. Qed.

Lemma contains_unfold key s :
  contains key s
  = startswith s key
    || match s with
       | [] => false
       | _ :: r => contains key r
       end.
Proof. destruct s; reflexivity. Qed.

Lemma contains_here key before rest :
  contains key (before ++ key ++ rest) = true.
Proof.
  induction before as [|c before IH].
  - cbn [app]. rewrite contains_unfold, startswith_app. reflexivity.
  - cbn [app contains]. rewrite IH. apply orb_true_r.
Qed.

Lemma is_linebreak_printable c : 32 <= c <= 122 -> is_linebreak c = false.
Proof.
  intros Hc. unfold is_linebreak.
  replace (c <=? 13) with false by (symmetry; apply N.leb_gt; lia).
  replace (c <=? 30) with false by (symmetry; apply N.leb_gt; lia).
  repeat match goal with
  | |- context [c =? ?k] =>
    replace (c =? k) with false by (symmetry; apply N.eqb_neq; lia)
  end.
  rewrite !andb_false_r. reflexivity.
Qed.

(** A line of printable characters and its newline. *)
Lemma splitlines_line line :
  text_in 32 122 line ->
  forall cur rest,
    splitlines_from cur (line ++ 10 :: rest)
    = (rev cur ++ line) :: splitlines_from [] rest.
Proof.
  induction 1 as [|c line Hc Hline IH]; intros cur rest.
  - cbn [app splitlines_from]. rewrite app_nil_r. reflexivity.
  - cbn [app splitlines_from]. rewrite (is_linebreak_printable c Hc).
    rewrite IH. cbn [rev]. rewrite <- app_assoc. reflexivity.
Qed.

Lemma split_on_colon_last before after :
  Forall (fun c => c <> 58) after ->
  exists parts, parts <> [] /\ split_on 58 (before ++ 58 :: after)
                              = parts ++ [after].
Proof.
  intros Hafter. induction before as [|c before (parts & Hne & IH)].
  - exists [[]]. split; [discriminate|]. cbn [app split_on].
    rewrite (split_on_absent 58 after Hafter). reflexivity.
  - cbn [app split_on]. rewrite IH. destruct (c =? 58).
    + exists ([] :: parts). split; [discriminate|reflexivity].
    + destruct parts as [|w ws]; [contradiction|].
      exists ((c :: w) :: ws). split; [discriminate|reflexivity].
Qed.

Lemma after_last_colon_app before after :
  Forall (fun c => c <> 58) after ->
  after_last_colon (before ++ 58 :: after) = after.
Proof.
  intros Hafter. unfold after_last_colon.
  destruct (split_on_colon_last before after Hafter) as (parts & _ & ->).
  apply last_last.
Qed.

Lemma split_on_two sep a b :
  Forall (fun c => c <> sep) a -> Forall (fun c => c <> sep) b ->
  split_on sep (a ++ sep :: b) = [a; b].
Proof.
  intros Ha Hb. induction Ha as [|c a Hc Ha IH].
  - cbn [app split_on]. rewrite N.eqb_refl, (split_on_absent sep b Hb).
    reflexivity.
  - cbn [app split_on]. rewrite IH.
    replace (c =? sep) with false by (symmetry; apply N.eqb_neq; exact Hc).
    reflexivity.
Qed.

Lemma text_in_weaken lo hi lo' hi' s :
  lo' <= lo -> hi <= hi' -> text_in lo hi s -> text_in lo' hi' s.
Proof.
  intros Hlo Hhi Hs. unfold text_in in *.
  eapply Forall_impl; [exact Hs|]. cbv beta. intros c Hc. lia.
Qed.

Lemma text_in_absent lo hi k s :
  k < lo \/ hi < k -> text_in lo hi s -> Forall (fun c => c <> k) s.
Proof.
  intros Hk Hs. unfold text_in in *.
  eapply Forall_impl; [exact Hs|]. cbv beta. intros c Hc. lia.
Qed.

Lemma text_in_plain lo hi s :
  43 <= lo -> hi <= 122 -> text_in lo hi s -> plain_text s = true.
Proof.
  intros Hlo Hhi Hs. unfold plain_text. apply forallb_forall.
  intros c Hc. apply list_elem_of_In in Hc.
  unfold text_in in Hs. rewrite Forall_forall in Hs.
  specialize (Hs c Hc). apply andb_true_intro. split; apply N.leb_le; lia.
Qed.

Lemma literal_text_in lo hi s :
  forallb (fun c => (lo <=? c) && (c <=? hi)) s = true -> text_in lo hi s.
Proof.
  intros Hs. apply Forall_forall. intros c Hc.
  apply list_elem_of_In in Hc.
  rewrite forallb_forall in Hs. specialize (Hs c Hc).
  apply andb_prop in Hs as [H1 H2]. apply N.leb_le in H1, H2. lia.
Qed.

Lemma literal_absent k s :
  forallb (fun c => negb (c =? k)) s = true -> Forall (fun c => c <> k) s.
Proof.
  intros Hs. apply Forall_forall. intros c Hc.
  apply list_elem_of_In in Hc.
  rewrite forallb_forall in Hs. specialize (Hs c Hc).
  apply negb_true_iff, N.eqb_neq in Hs. exact Hs.
Qed.

(** Words: [tokens] collects the characters up to the next white
    space. *)
Lemma tokens_from_word word :
  plain_text word = true ->
  forall cur rest,
    tokens_from cur (word ++ rest) = tokens_from (rev word ++ cur) rest.
Proof.
  induction word as [|c word IH]; intros Hw cur rest; [reflexivity|].
  apply plain_text_cons in Hw as [Hc Hw].
  cbn [app tokens_from]. rewrite (is_whitespace_plain c Hc).
  rewrite (IH Hw). cbn [rev]. rewrite <- app_assoc. reflexivity.
Qed.

Lemma first_word_of_padded word rest :
  word <> [] -> plain_text word = true ->
  exists more, tokens (word ++ 32 :: rest) = word :: more.
Proof.
  intros Hne Hw. unfold tokens. rewrite (tokens_from_word word Hw).
  rewrite app_nil_r. cbn [tokens_from].
  change (is_whitespace 32) with true. cbv iota.
  destruct (rev word) as [|c r] eqn:Hrev.
  - apply (f_equal (@rev N)) in Hrev. rewrite rev_involutive in Hrev.
    contradiction.
  - rewrite <- Hrev, rev_involutive. eexists. reflexivity.
Qed.

Lemma strip_padded_word word tail :
  word <> [] -> plain_text word = true ->
  tail <> [] -> plain_text tail = true ->
  strip (32 :: word ++ 32 :: tail) = word ++ 32 :: tail.
Proof.
  intros Hne Hw Hnet Ht. unfold strip, rstrip.
  assert (Hl : lstrip (32 :: word ++ 32 :: tail) = word ++ 32 :: tail).
  { change (lstrip (32 :: word ++ 32 :: tail))
      with (lstrip (word ++ 32 :: tail)).
    destruct word as [|c word]; [contradiction|].
    apply plain_text_cons in Hw as [Hc _].
    cbn [app lstrip]. rewrite (is_whitespace_plain c Hc). reflexivity. }
  rewrite Hl.
  assert (Hr : lstrip (rev (word ++ 32 :: tail)) = rev (word ++ 32 :: tail)).
  { rewrite rev_app_distr. cbn [rev]. rewrite <- !app_assoc.
    destruct (rev tail) as [|c r] eqn:Hrev.
    - apply (f_equal (@rev N)) in Hrev. rewrite rev_involutive in Hrev.
      contradiction.
    - assert (Hc : 43 <= c <= 122).
      { unfold plain_text in Ht. rewrite forallb_forall in Ht.
        assert (Hin : In c tail)
          by (apply in_rev; rewrite Hrev; left; reflexivity).
        specialize (Ht c Hin). apply andb_prop in Ht as [H1 H2].
        apply N.leb_le in H1, H2. lia. }
      cbn [app lstrip]. rewrite (is_whitespace_plain c Hc). reflexivity. }
  rewrite Hr. apply rev_involutive.
Qed.

Lemma strip_space_plain x : plain_text x = true -> strip (32 :: x) = x.
Proof.
  intros Hx. change (strip (32 :: x)) with (strip x). apply strip_plain.
  exact Hx.
Qed.

Lemma splitlines_lines lines :
  Forall (text_in 32 122) lines ->
  splitlines_from [] (concat (map (fun line => line ++ [10]) lines)) = lines.
Proof.
  induction 1 as [|line lines Hline Hlines IH]; [reflexivity|].
  cbn [map concat]. rewrite <- app_assoc. cbn [app].
  rewrite (splitlines_line line Hline), IH. reflexivity.
Qed.

(** A line that lacks a character of each of the three labels leaves
    the readings as they are. *)
Lemma parse_line_other st line k1 k2 k3 :
  In k1 (str "Average Time/Client:") ->
  In k2 (str "Throughput/Client:") ->
  In k3 (str "Success/Failure") ->
  Forall (fun c => c <> k1) line ->
  Forall (fun c => c <> k2) line ->
  Forall (fun c => c <> k3) line ->
  parse_line st line = Ok st.
Proof.
  intros Hk1 Hk2 Hk3 H1 H2 H3. destruct st as [[[a t] s] f].
  unfold parse_line.
  rewrite (contains_absent k1 _ line Hk1 H1).
  rewrite (contains_absent k2 _ line Hk2 H2).
  rewrite (contains_absent k3 _ line Hk3 H3). reflexivity.
Qed.

Ltac absent :=
  repeat (apply Forall_app; split);
  first [ apply literal_absent; vm_compute; reflexivity
        | eapply text_in_absent; [|eassumption]; lia
        | eapply Forall_impl; [eassumption|]; cbv beta; intros ? ?; lia ].

Ltac member := vm_compute; tauto.

(** The label of the throughput line is printed with two spaces before
    its colon; the label looked for has none. *)
Lemma throughput_label_not_found throughput :
  Forall (fun c => c <> 58) throughput ->
  contains (str "Throughput/Client:")
           (str "  Throughput/Client  : " ++ throughput) = false.
Proof.
  intros Hthr.
  change (str "Throughput/Client:")
    with [84; 104; 114; 111; 117; 103; 104; 112; 117; 116; 47; 67; 108; 105;
          101; 110; 116; 58].
  change (str "  Throughput/Client  : ")
    with [32; 32; 84; 104; 114; 111; 117; 103; 104; 112; 117; 116; 47; 67;
          108; 105; 101; 110; 116; 32; 32; 58; 32].
  cbn [app]. rewrite !contains_cons.
  cbn [startswith N.eqb Pos.eqb andb orb].
  apply (contains_absent 58); [|exact Hthr].
  cbn [In]. tauto.
Qed.

(** The text of [human_readable_bytes]: a number, a space and a unit
    from [B/s] to [PB/s].  It holds no colon, no [A] and no [S]. *)
Definition rate_text (s : pystr) : Prop :=
  Forall (fun c => 32 <= c <= 122 /\ c <> 58 /\ c <> 65 /\ c <> 83) s.

Definition summary_lines (mode operation client_pool volume avg_time
    throughput successes failures total_time : pystr) : list pystr :=
  [ [];
    str "Test Results";
    str "  Mode               : " ++ mode;
    str "  Operation          : " ++ operation;
    str "  Client Pool Size   : " ++ client_pool;
    str "  Volume per Client  : " ++ volume ++ str " MB";
    str "  Average Time/Client: " ++ avg_time ++ str " s";
    str "  Throughput/Client  : " ++ throughput;
    str "  Success/Failure     : " ++ successes ++ str "/" ++ failures;
    str "  Total Test Duration: " ++ total_time ++ str " s" ].

Lemma summary_eq mode operation client_pool volume avg_time throughput
    successes failures total_time :
  summary mode operation client_pool volume avg_time throughput successes
          failures total_time
  = concat (map (fun line => line ++ [10])
              (summary_lines mode operation client_pool volume avg_time
                             throughput successes failures total_time)).
Proof.
  unfold summary, summary_lines. cbn [map concat].
  rewrite <- !app_assoc. rewrite app_nil_r. reflexivity.
Qed.

Ltac printable :=
  unfold text_in, rate_text in *;
  repeat (apply Forall_app; split);
  first [ apply literal_text_in; vm_compute; reflexivity
        | eapply Forall_impl; [eassumption|]; cbv beta; intros ? ?; lia ].

Section Summary.

Variables mode operation client_pool volume avg_time throughput
          successes failures total_time : pystr.

Hypothesis Hmode : text_in 97 122 mode.
Hypothesis Hoperation : text_in 65 90 operation.
Hypothesis Hpool : text_in 48 57 client_pool.
Hypothesis Hvolume : text_in 48 57 volume.
Hypothesis Havg : text_in 45 57 avg_time.
Hypothesis Havg_ne : avg_time <> [].
Hypothesis Hthroughput : rate_text throughput.
Hypothesis Hsuccesses : text_in 48 57 successes.
Hypothesis Hfailures : text_in 48 57 failures.
Hypothesis Htotal : text_in 45 57 total_time.

Lemma summary_lines_printable :
  Forall (text_in 32 122)
         (summary_lines mode operation client_pool volume avg_time
                        throughput successes failures total_time).
Proof.
  unfold summary_lines.
  do 10 (apply Forall_cons; split; [printable|]). constructor.
Qed.

Lemma parse_line_average a t s f :
  parse_line (a, t, s, f)
             (str "  Average Time/Client: " ++ avg_time ++ str " s")
  = Ok (avg_time, t, s, f).
Proof.
  unfold parse_line.
  assert (Hfound : contains (str "Average Time/Client:")
                     (str "  Average Time/Client: " ++ avg_time ++ str " s")
                   = true).
  { change (str "  Average Time/Client: ")
      with (str "  " ++ str "Average Time/Client:" ++ str " ").
    rewrite <- !app_assoc. apply contains_here. }
  rewrite Hfound.
  assert (Hword : first_word_after_colon
                    (str "  Average Time/Client: " ++ avg_time ++ str " s")
                  = Ok avg_time).
  { unfold first_word_after_colon.
    change (str "  Average Time/Client: ")
      with (str "  Average Time/Client" ++ 58 :: [32]).
    rewrite <- app_assoc. cbn [app].
    rewrite after_last_colon_app by (apply Forall_cons; split; [lia|absent]).
    change (str " s") with (32 :: [115]).
    assert (Hplain : plain_text avg_time = true)
      by (apply (text_in_plain 45 57); [lia|lia|exact Havg]).
    rewrite (strip_padded_word avg_time [115] Havg_ne Hplain)
      by (first [discriminate|reflexivity]).
    destruct (first_word_of_padded avg_time [115] Havg_ne Hplain)
      as [more ->].
    reflexivity. }
  rewrite Hword. cbn [res_bind].
  rewrite (contains_absent 104) by first [member|absent].
  cbn [res_bind].
  rewrite (contains_absent 83) by first [member|absent].
  reflexivity.
Qed.

Lemma parse_line_rate st :
  parse_line st (str "  Throughput/Client  : " ++ throughput) = Ok st.
Proof.
  destruct st as [[[a t] s] f]. unfold parse_line.
  rewrite (contains_absent 65) by first [member|unfold rate_text in *; absent].
  cbn [res_bind].
  rewrite throughput_label_not_found
    by (eapply Forall_impl; [exact Hthroughput|]; cbv beta; intros ? ?; lia).
  cbn [res_bind].
  rewrite (contains_absent 83) by first [member|unfold rate_text in *; absent].
  reflexivity.
Qed.

Lemma parse_line_counts a t s f :
  parse_line (a, t, s, f)
    (str "  Success/Failure     : " ++ successes ++ str "/" ++ failures)
  = Ok (a, t, successes, failures).
Proof.
  unfold parse_line.
  rewrite (contains_absent 65) by first [member|absent].
  cbn [res_bind].
  rewrite (contains_absent 84) by first [member|absent].
  cbn [res_bind].
  assert (Hfound : contains (str "Success/Failure")
                     (str "  Success/Failure     : " ++ successes
                      ++ str "/" ++ failures) = true).
  { change (str "  Success/Failure     : ")
      with (str "  " ++ str "Success/Failure" ++ str "     : ").
    rewrite <- !app_assoc. apply contains_here. }
  rewrite Hfound.
  change (str "  Success/Failure     : ")
    with (str "  Success/Failure     " ++ 58 :: [32]).
  rewrite <- app_assoc. cbn [app].
  rewrite after_last_colon_app by (apply Forall_cons; split; [lia|absent]).
  change (str "/") with [47]. cbn [app].
  rewrite strip_space_plain.
  - rewrite split_on_two by absent. reflexivity.
  - apply plain_text_app; [apply (text_in_plain 48 57); [lia|lia|assumption]|].
    apply plain_text_cons. split; [lia|].
    apply (text_in_plain 48 57); [lia|lia|assumption].
Qed.

(** The orchestrator reads the summary the client pool prints: the
    average time and the two counts are found, the throughput is not.
    Its label is printed as [Throughput/Client  :] and looked for as
    [Throughput/Client:], so the reading stays at its initial dash. *)
Theorem summary_is_read_without_throughput :
  _parse_client_output
    (summary mode operation client_pool volume avg_time throughput
             successes failures total_time)
  = Ok (avg_time, str "-", successes, failures).
Proof.
  unfold _parse_client_output, splitlines.
  rewrite summary_eq, (splitlines_lines _ summary_lines_printable).
  unfold summary_lines. cbn [parse_lines].
  rewrite (parse_line_other _ [] 65 84 83) by first [member|absent].
  cbn [res_bind].
  rewrite (parse_line_other _ _ 65 104 83) by first [member|absent].
  cbn [res_bind].
  rewrite (parse_line_other _ _ 65 84 83) by first [member|absent].
  cbn [res_bind].
  rewrite (parse_line_other _ _ 118 104 117) by first [member|absent].
  cbn [res_bind].
  rewrite (parse_line_other _ _ 65 84 117) by first [member|absent].
  cbn [res_bind].
  rewrite (parse_line_other _ _ 65 84 83) by first [member|absent].
  cbn [res_bind].
  rewrite parse_line_average. cbn [res_bind].
  rewrite parse_line_rate. cbn [res_bind].
  rewrite parse_line_counts. cbn [res_bind].
  rewrite (parse_line_other _ _ 65 104 83) by first [member|absent].
  reflexivity.
Qed.

End Summary.

Lemma lstrip_blank blank :
  Forall (fun c => is_whitespace c = true) blank -> lstrip blank = [].
Proof.
  induction 1 as [|c blank Hc Hblank IH]; [reflexivity|].
  cbn [lstrip]. rewrite Hc. exact IH.
Qed.

(** A line that holds the label of the average time, or of the
    throughput as it is looked for, and nothing but white space after
    its last colon makes the orchestrator fail with [IndexError]: the
    first word of an empty list of words is asked for. *)
Theorem label_without_value_raises st before blank :
  Forall (fun c => is_whitespace c = true) blank ->
  parse_line st (before ++ str "Average Time/Client:" ++ blank)
  = Raise (IndexError (str "list index out of range"))
  /\ parse_line st (before ++ str "Throughput/Client:" ++ blank)
     = Raise (IndexError (str "list index out of range")).
Proof.
  intros Hblank.
  assert (Hcolon : Forall (fun c => c <> 58) blank).
  { eapply Forall_impl; [exact Hblank|]. cbv beta. intros c Hc ->.
    discriminate Hc. }
  assert (Hword : forall label,
            first_word_after_colon (before ++ (label ++ [58]) ++ blank)
            = Raise (IndexError (str "list index out of range"))).
  { intros label. unfold first_word_after_colon.
    rewrite <- app_assoc, app_assoc. cbn [app].
    rewrite (after_last_colon_app _ blank Hcolon).
    unfold strip, rstrip. rewrite (lstrip_blank blank Hblank). reflexivity. }
  destruct st as [[[a t] s] f]. unfold parse_line. split.
  - rewrite contains_here.
    change (str "Average Time/Client:")
      with (str "Average Time/Client" ++ [58]).
    rewrite Hword. reflexivity.
  - rewrite (contains_here (str "Throughput/Client:")).
    change (str "Throughput/Client:") with (str "Throughput/Client" ++ [58]).
    rewrite Hword. destruct (contains _ _); reflexivity.
Qed.

Lemma literal_rate_text s :
  forallb (fun c => (32 <=? c) && (c <=? 122) && negb (c =? 58)
                    && negb (c =? 65) && negb (c =? 83)) s = true ->
  rate_text s.
Proof.
  intros Hs. apply Forall_forall. intros c Hc.
  apply list_elem_of_In in Hc.
  rewrite forallb_forall in Hs. specialize (Hs c Hc).
  repeat (apply andb_prop in Hs as [Hs ?]).
  repeat match goal with
  | H : negb _ = true |- _ => apply negb_true_iff, N.eqb_neq in H
  | H : (_ <=? _) = true |- _ => apply N.leb_le in H
  end.
  lia.
Qed.

(** ** Entering the storage directory *)

Lemma lookup_entry_child (fs : gmap path entry) dir name :
  lookup_entry fs (dir ++ [name]) = fs !! (dir ++ [name]).
Proof. destruct dir; reflexivity. Qed.

Lemma resolve_storage w :
  resolve w (str "files/")
  = match lookup_entry (files w) (cwd w) with
    | Some Dir =>
      match files w !! (cwd w ++ [str "files"]) with
      | Some Dir => inl (cwd w ++ [str "files"])
      | Some (File _) => inr ENOTDIR
      | None => inr ENOENT
      end
    | Some (File _) => inr ENOTDIR
    | None => inr ENOENT
    end.
Proof.
  assert (Hstep : forall cur,
            step_component cur (str "files") = cur ++ [str "files"])
    by reflexivity.
  assert (Hsame : forall cur, step_component cur [] = cur) by reflexivity.
  assert (Hfits : (NAME_MAX <? N.of_nat (length (str_encode (str "files"))))
                  = false) by reflexivity.
  assert (Hnone : (NAME_MAX <? N.of_nat (length (str_encode []))) = false)
    by reflexivity.
  replace (resolve w (str "files/"))
    with (walk (files w) (cwd w) [str "files"; []]) by reflexivity.
  cbn [walk]. rewrite Hfits, Hstep, Hnone, Hsame, lookup_entry_child.
  destruct (lookup_entry (files w) (cwd w)) as [[?|]|]; reflexivity.
Qed.

Lemma init_result w :
  FileInterface_init w
  = match resolve w (str "files/") with
    | inl p => (Ok tt, set_cwd p (log (EvChdir (str "files/")) w))
    | inr e => (Raise (os_error e (str "files/")),
                log (EvChdir (str "files/")) w)
    end.
Proof.
  unfold FileInterface_init, os_chdir. unfold_st.
  change (resolve (log (EvChdir (str "files/")) w) (str "files/"))
    with (resolve w (str "files/")).
  change (files (log (EvChdir (str "files/")) w)) with (files w).
  rewrite resolve_storage.
  destruct (lookup_entry (files w) (cwd w)) as [[?|]|]; try reflexivity.
  destruct (files w !! (cwd w ++ [str "files"])) as [[?|]|] eqn:Hdir;
    try reflexivity.
  rewrite lookup_entry_child, Hdir. reflexivity.
Qed.

(** [FileInterface()] moves the process into the directory [files] of
    the current directory and changes no file.  The move is relative:
    after one instance has been made, making a second one succeeds
    exactly when the storage directory has a subdirectory [files] of
    its own, and then that becomes the storage directory. *)
Theorem second_instance_needs_nested_directory w :
  fst (FileInterface_init w) = Ok tt ->
  cwd (snd (FileInterface_init w)) = cwd w ++ [str "files"]
  /\ files (snd (FileInterface_init w)) = files w
  /\ (fst (FileInterface_init (snd (FileInterface_init w))) = Ok tt
      <-> files w !! (cwd w ++ [str "files"; str "files"]) = Some Dir).
Proof.
  rewrite (init_result w), resolve_storage.
  destruct (lookup_entry (files w) (cwd w)) as [[?|]|]; try discriminate.
  destruct (files w !! (cwd w ++ [str "files"])) as [[?|]|] eqn:Hdir;
    try discriminate.
  intros _. cbn [fst snd]. split; [reflexivity|]. split; [reflexivity|].
  set (w1 := set_cwd (cwd w ++ [str "files"]) (log (EvChdir (str "files/")) w)).
  rewrite (init_result w1), resolve_storage.
  change (files w1) with (files w).
  change (cwd w1) with (cwd w ++ [str "files"]).
  rewrite lookup_entry_child, Hdir, <- app_assoc. cbn [app].
  destruct (files w !! (cwd w ++ [str "files"; str "files"])) as [[?|]|];
    cbn [fst]; split; first [reflexivity|discriminate].
Qed.

(** ** The properties above at the example installation *)

Lemma delete_then_get_not_found_witness :
  fst (FileInterface_get [str "a.txt"]
         (snd (FileInterface_delete [str "a.txt"] example_world)))
  = Ok (error_dict (os_error ENOENT (str "a.txt"))).
Proof.
  apply (delete_then_get_not_found (str "a.txt") [] [] example_world).
  vm_compute. reflexivity.
Defined.

Lemma get_payload_decodes_to_content_witness :
  exists payload,
    fst (FileInterface_get [str "a.txt"] example_world)
    = Ok (PDict [(str "status", PStr (str "OK"));
                 (str "data_namafile", PStr (str "a.txt"));
                 (str "data_file", PStr payload)])
    /\ b64decode payload = Ok (bytes_of "A").
Proof.
  apply (get_payload_decodes_to_content (str "a.txt") [] example_world
           [str "srv"; str "files"; str "a.txt"] (bytes_of "A")).
  - vm_compute. reflexivity.
  - vm_compute. reflexivity.
Defined.

Lemma upload_twice_same_store_witness :
  files (snd (FileInterface_upload [str "/tmp/u2"]
                (snd (FileInterface_upload [str "/tmp/u1"] example_uploads))))
  = files (snd (FileInterface_upload [str "/tmp/u1"] example_uploads)).
Proof.
  apply (upload_twice_same_store (str "/tmp/u1") [] (str "/tmp/u2") []
           example_uploads (bytes_of "hi")
           (str "49f68a5c8493ec2c0bf489821c21fc3b")
           (snd (FileInterface_upload [str "/tmp/u1"] example_uploads))
           (str "49f68a5c8493ec2c0bf489821c21fc3b")
           (snd (FileInterface_upload [str "/tmp/u2"]
                   (snd (FileInterface_upload [str "/tmp/u1"]
                                              example_uploads))))).
  - vm_compute. reflexivity.
  - vm_compute. reflexivity.
  - vm_compute. reflexivity.
  - vm_compute. reflexivity.
Defined.

Lemma upload_writes_one_entry_witness :
  (exists digits extension,
     str "914240125319291c7cb7e712e419b254.pdf" = digits ++ extension
     /\ length digits = 32%nat
     /\ Forall (fun c => is_lower_hex c = true) digits
     /\ (extension = [] \/ extension ∈ known_extensions))
  /\ files (snd (FileInterface_upload [str "/tmp/p1"] example_uploads))
       !! (cwd example_uploads ++ [str "914240125319291c7cb7e712e419b254.pdf"])
     = Some (File (bytes_of "%PDF-1.4"))
  /\ (forall q,
        q <> cwd example_uploads
             ++ [str "914240125319291c7cb7e712e419b254.pdf"] ->
        files (snd (FileInterface_upload [str "/tmp/p1"] example_uploads)) !! q
        = files example_uploads !! q)
  /\ cwd (snd (FileInterface_upload [str "/tmp/p1"] example_uploads))
     = cwd example_uploads.
Proof.
  apply (upload_writes_one_entry (str "/tmp/p1") [] example_uploads
           (bytes_of "%PDF-1.4")
           (str "914240125319291c7cb7e712e419b254.pdf")
           (snd (FileInterface_upload [str "/tmp/p1"] example_uploads))).
  - vm_compute. reflexivity.
  - vm_compute. reflexivity.
Defined.

Lemma detect_file_type_reads_eight_bytes_witness :
  detect_file_type (bytes_of "GIF89a..one") = detect_file_type (bytes_of "GIF89a..two").
Proof.
  apply (detect_file_type_reads_eight_bytes (bytes_of "GIF89a..one")
           (bytes_of "GIF89a..two")).
  vm_compute. reflexivity.
Defined.

Lemma socket_closed_once_and_last_witness :
  exists l,
    hlog (snd (run (str "/tmp") proses_string [Data (line_bytes "LIST")]
                   example_world))
    = l ++ [HConnClose]
    /\ Forall (fun e => e <> HConnClose) l.
Proof.
  apply (socket_closed_once_and_last (str "/tmp") proses_string
           [Data (line_bytes "LIST")] example_world).
  vm_compute. reflexivity.
Defined.

Lemma no_complete_frame_is_left_witness :
  exists lines rest hl,
    buffer (sess (mkH initial_session example_world []))
    ++ str "LIST" ++ [10] ++ str "GE"
    = flat_map (fun l => l ++ [10]) lines ++ rest
    /\ Forall (fun l => has_newline l = false) lines
    /\ has_newline rest = false
    /\ handle_lines (str "/tmp") proses_string lines
                    (mkH initial_session example_world [])
       = (Ok tt, hl)
    /\ snd (on_data (str "/tmp") proses_string
              (line_bytes "LIST" ++ bytes_of "GE")
              (mkH initial_session example_world []))
       = with_buffer rest hl
    /\ buffer (sess (snd (on_data (str "/tmp") proses_string
                            (line_bytes "LIST" ++ bytes_of "GE")
                            (mkH initial_session example_world []))))
       = rest.
Proof.
  apply (no_complete_frame_is_left (str "/tmp") proses_string
           (line_bytes "LIST" ++ bytes_of "GE")
           (str "LIST" ++ [10] ++ str "GE")
           (mkH initial_session example_world [])
           (snd (on_data (str "/tmp") proses_string
                   (line_bytes "LIST" ++ bytes_of "GE")
                   (mkH initial_session example_world [])))).
  - vm_compute. reflexivity.
  - vm_compute. reflexivity.
Defined.

Lemma chunking_does_not_matter_witness :
  fst (run (str "/tmp") proses_string
         (map Data [line_bytes "LIST"] ++ []) example_world)
  = fst (run (str "/tmp") proses_string
           (map Data [bytes_of "LI"; line_bytes "ST"] ++ []) example_world)
  /\ exists b,
       snd (run (str "/tmp") proses_string
              (map Data [line_bytes "LIST"] ++ []) example_world)
       = with_buffer b
           (snd (run (str "/tmp") proses_string
                   (map Data [bytes_of "LI"; line_bytes "ST"] ++ [])
                   example_world)).
Proof.
  apply (chunking_does_not_matter (str "/tmp") proses_string
           [line_bytes "LIST"] [bytes_of "LI"; line_bytes "ST"] []
           example_world).
  - repeat constructor; vm_compute; discriminate.
  - repeat constructor; vm_compute; discriminate.
  - vm_compute. reflexivity.
Defined.

Lemma data_lines_accumulate_in_order_witness :
  exists h1 f1 w1,
    handle_lines (str "/tmp") proses_string [str "aGk="; str "IQ=="]
                 example_upload_state
    = (Ok tt, h1)
    /\ hlog h1
       = hlog example_upload_state
         ++ map HWrite [bytes_of "hi"; bytes_of "!"]
    /\ uploading (sess h1) = true
    /\ temp_path (sess h1) = str "/tmp/tmpk3v9x0qa"
    /\ temp_file (sess h1) = Some f1
    /\ closed f1 = false
    /\ temp_content f1 (env h1)
       = Some ([] ++ concat [bytes_of "hi"; bytes_of "!"])
    /\ file_close f1 (env h1)
       = (Ok tt, mkTemp (str "/tmp/tmpk3v9x0qa") true [], w1)
    /\ fst (open_read (str "/tmp/tmpk3v9x0qa") w1)
       = Ok ([] ++ concat [bytes_of "hi"; bytes_of "!"]).
Proof.
  apply (data_lines_accumulate_in_order (str "/tmp") proses_string
           [str "aGk="; str "IQ=="] [bytes_of "hi"; bytes_of "!"]
           example_files (str "/tmp/tmpk3v9x0qa") [] example_upload_state).
  - split; [reflexivity|]. split; [reflexivity|].
    exists (mkTemp (str "/tmp/tmpk3v9x0qa") false []),
           [str "tmp"; str "tmpk3v9x0qa"], [].
    repeat split; vm_compute; reflexivity.
  - repeat constructor; vm_compute; first [discriminate|reflexivity].
Defined.

Lemma remote_upload_is_received_witness :
  exists h1 f1 w1 b,
    uploading (sess h1) = true
    /\ temp_path (sess h1) = str "/tmp/tmpk3v9x0qa"
    /\ temp_file (sess h1) = Some f1
    /\ file_close f1 (env h1)
       = (Ok tt, mkTemp (str "/tmp/tmpk3v9x0qa") true [], w1)
    /\ fst (open_read (str "/tmp/tmpk3v9x0qa") w1) = Ok (bytes_of "hi")
    /\ handle_line (str "/tmp") proses_string (str "ENDUPLOAD") h1
       = match proses_string (str "UPLOAD " ++ str "/tmp/tmpk3v9x0qa") w1 with
         | (Ok response, w2) =>
           after_store (str "/tmp/tmpk3v9x0qa") response
             (mkH (set_temp_file
                     (Some (mkTemp (str "/tmp/tmpk3v9x0qa") true []))
                     (sess h1))
                  w2
                  (hlog h1
                   ++ [HDispatch (str "UPLOAD " ++ str "/tmp/tmpk3v9x0qa")]))
         | (Raise e, w2) =>
           (Raise e,
            mkH (set_temp_file
                   (Some (mkTemp (str "/tmp/tmpk3v9x0qa") true []))
                   (sess h1))
                w2
                (hlog h1
                 ++ [HDispatch (str "UPLOAD " ++ str "/tmp/tmpk3v9x0qa")]))
         end
    /\ recv_loop (str "/tmp") proses_string
         (map Data [bytes_of "UPLO"; line_bytes "AD" ++ line_bytes "aGk="
                                     ++ bytes_of "ENDUP";
                    line_bytes "LOAD"])
         (mkH initial_session example_world [])
       = (fst (handle_line (str "/tmp") proses_string (str "ENDUPLOAD") h1),
          with_buffer b
            (snd (handle_line (str "/tmp") proses_string (str "ENDUPLOAD")
                    h1))).
Proof.
  apply (remote_upload_is_received (str "/tmp") proses_string (bytes_of "hi")
           [bytes_of "UPLO";
            line_bytes "AD" ++ line_bytes "aGk=" ++ bytes_of "ENDUP";
            line_bytes "LOAD"]
           (mkH initial_session example_world [])
           (mkTemp (str "/tmp/tmpk3v9x0qa") false [])
           (snd (NamedTemporaryFile (str "/tmp") example_world))).
  - reflexivity.
  - reflexivity.
  - reflexivity.
  - vm_compute. reflexivity.
  - repeat constructor; vm_compute; discriminate.
  - vm_compute. reflexivity.
Defined.

Lemma decoding_failure_envelope_is_json_witness :
  JSON.wellformed
    (error_msg (UnicodeDecodeError xff 0 1 (str "invalid start byte")))
  = true.
Proof.
  apply (decoding_failure_envelope_is_json
           (UnicodeDecodeError xff 0 1 (str "invalid start byte"))).
  left. exists [xff]. vm_compute. reflexivity.
Defined.

Lemma response_is_cut_at_the_terminator_witness :
  send_command (fun _ => Ok PNone)
    (map Chunk [bytes_of "{"] ++ Chunk (bytes_of "}" ++ [x0d; x0a; x0d; x0a])
         :: [RecvTimeout])
  = parsed (fun _ => Ok PNone) (str "{}").
Proof.
  apply (response_is_cut_at_the_terminator (fun _ => Ok PNone)
           [bytes_of "{"] [str "{"]
           (bytes_of "}" ++ [x0d; x0a; x0d; x0a]) (str "}") (str "{}")
           [RecvTimeout]).
  - repeat constructor; vm_compute; first [discriminate|reflexivity].
  - split; vm_compute; first [discriminate|reflexivity].
  - vm_compute. reflexivity.
  - vm_compute. reflexivity.
Defined.

Lemma cut_terminator_is_not_seen_witness :
  send_command (fun _ => Ok PNone)
    (map Chunk [bytes_of "{}" ++ [x0d; x0a]; [x0d; x0a]] ++ RecvTimeout :: [])
  = PDict [(str "status", PStr (str "ERROR"));
           (str "data", PStr (str "timeout during receive"))]
  /\ send_command (fun _ => Ok PNone)
       (map Chunk [bytes_of "{}" ++ [x0d; x0a]; [x0d; x0a]])
     = parsed (fun _ => Ok PNone) (concat [str "{}" ++ [13; 10]; [13; 10]]).
Proof.
  apply (cut_terminator_is_not_seen (fun _ => Ok PNone)
           [bytes_of "{}" ++ [x0d; x0a]; [x0d; x0a]]
           [str "{}" ++ [13; 10]; [13; 10]] []).
  - repeat constructor; vm_compute; first [discriminate|reflexivity].
  - repeat constructor.
Defined.

Lemma summary_is_read_without_throughput_witness :
  _parse_client_output
    (summary (str "thread") (str "UPLOAD") (str "5") (str "10")
             (str "0.52") (str "19.23 MB/s") (str "5") (str "0")
             (str "0.61"))
  = Ok (str "0.52", str "-", str "5", str "0").
Proof.
  apply (summary_is_read_without_throughput
           (str "thread") (str "UPLOAD") (str "5") (str "10")
           (str "0.52") (str "19.23 MB/s") (str "5") (str "0")
           (str "0.61"));
    first [ apply literal_text_in; vm_compute; reflexivity
          | apply literal_rate_text; vm_compute; reflexivity
          | vm_compute; discriminate ].
Defined.

Lemma label_without_value_raises_witness :
  parse_line (str "-", str "-", str "-", str "-")
             ([] ++ str "Average Time/Client:" ++ str " ")
  = Raise (IndexError (str "list index out of range"))
  /\ parse_line (str "-", str "-", str "-", str "-")
                ([] ++ str "Throughput/Client:" ++ str " ")
     = Raise (IndexError (str "list index out of range")).
Proof.
  apply (label_without_value_raises (str "-", str "-", str "-", str "-") []
           (str " ")).
  repeat constructor.
Defined.

Lemma second_instance_needs_nested_directory_witness :
  cwd (snd (FileInterface_init (set_cwd [str "srv"] example_world)))
  = cwd (set_cwd [str "srv"] example_world) ++ [str "files"]
  /\ files (snd (FileInterface_init (set_cwd [str "srv"] example_world)))
     = files (set_cwd [str "srv"] example_world)
  /\ (fst (FileInterface_init
             (snd (FileInterface_init (set_cwd [str "srv"] example_world))))
      = Ok tt
      <-> files (set_cwd [str "srv"] example_world)
            !! (cwd (set_cwd [str "srv"] example_world)
                ++ [str "files"; str "files"])
          = Some Dir).
Proof.
  apply (second_instance_needs_nested_directory
           (set_cwd [str "srv"] example_world)).
  vm_compute. reflexivity.
Defined.

